(** * PacoConfigFilter: a shallow embedding of the configuration filter

    The repository holds two variants of one pipeline that strips a switch
    configuration (a JSON document) down to its base bootstrap part:

    - [src/main.py]: the strict variant (only IRB references are in use,
      one output interface record per reference);
    - [src/nokia/paco/config_filter.py]: the consolidating variant (every
      reference is in use, one output interface record per name, ethernet
      interfaces always kept).

    Python values are modelled as a JSON tree, Python exceptions as the
    error side of a result monad, the in-place updates of [data] as state
    passing, and the iteration order of a Python [set] as a parameter
    [set_iter], on which nothing is assumed: what is proved holds for every
    order.  [copy.deepcopy] is the identity on a tree without sharing, and
    an exception ends the run, so no partly updated document is ever seen.

    Conventions of the model:
    - a character is a code point below 256, a [str] is a [string];
    - a Python [int] is a [Z]; JSON numbers with a fraction or an exponent
      (Python floats) are outside the model;
    - the interpreter's limit on the length of decimal integer conversions
      is not modelled: CPython from 3.11 on refuses, with a [ValueError],
      to convert between [str] and an [int] of more digits than a limit,
      4300 by default and 640 at the least where one is set. *)

From Stdlib Require Import ZArith List String Ascii Bool Lia Permutation.
Import ListNotations.

Local Open Scope string_scope.
Local Open Scope list_scope.
Local Open Scope Z_scope.

(** ** Python exceptions and the result monad *)

Inductive exn : Type :=
| KeyError
| TypeError
| IndexError
| ValueError
| AttributeError
| UnboundLocalError
| SystemExit.

Inductive result (A : Type) : Type :=
| Ok (a : A)
| Raise (e : exn).

Arguments Ok {A} a.
Arguments Raise {A} e.

Definition bind {A B : Type} (m : result A) (k : A -> result B) : result B :=
  match m with
  | Ok a => k a
  | Raise e => Raise e
  end.

Notation "x <- m ;; k" := (bind m (fun x => k))
  (at level 61, m at next level, right associativity).

Definition fails {A : Type} (m : result A) : Prop :=
  exists e, m = Raise e.

(** [for x in xs: st = body x st], stopping at the first exception. *)
Fixpoint for_each {A S : Type} (xs : list A) (body : A -> S -> result S)
  (st : S) : result S :=
  match xs with
  | [] => Ok st
  | x :: xs' => st' <- body x st ;; for_each xs' body st'
  end.

(** ** Characters and strings *)

Definition code (c : ascii) : Z := Z.of_N (N_of_ascii c).

Definition is_digit (c : ascii) : bool := (48 <=? code c) && (code c <=? 57).

Definition digit_val (c : ascii) : Z := code c - 48.

Definition digit_char (d : Z) : ascii := ascii_of_N (Z.to_N (48 + d)).

(** Whitespace as [int()] sees it: the C-locale spaces of [Py_ISSPACE] and the
    two Unicode spaces below 256 that the conversion first turns into [" "]. *)
Definition is_space (c : ascii) : bool :=
  ((9 <=? code c) && (code c <=? 13)) || (code c =? 32)
  || (code c =? 133) || (code c =? 160).

Definition dot : ascii := "."%char.
Definition underscore : ascii := "_"%char.

(** [sub in s] on two strings. *)
Fixpoint str_contains (sub s : string) : bool :=
  if String.prefix sub s then true
  else match s with
       | EmptyString => false
       | String _ s' => str_contains sub s'
       end.

(** [s.split(".")]: the fields between the separators, never an empty list. *)
Fixpoint split_dot (s : string) : list string :=
  match s with
  | EmptyString => [EmptyString]
  | String c s' =>
      if Ascii.eqb c dot then EmptyString :: split_dot s'
      else match split_dot s' with
           | h :: t => String c h :: t
           | [] => [String c EmptyString]
           end
  end.

Fixpoint no_dot (s : string) : bool :=
  match s with
  | EmptyString => true
  | String c s' => negb (Ascii.eqb c dot) && no_dot s'
  end.

(** ** [int(str)] and [str(int)] *)

Fixpoint lstrip (s : string) : string :=
  match s with
  | String c s' => if is_space c then lstrip s' else s
  | EmptyString => EmptyString
  end.

(** The digit loop of the integer parser: digits, with single underscores
    between them; [prev] is the previous character, [n] counts the digits. *)
Fixpoint digits_loop (s : string) (prev : ascii) (acc : Z) (n : nat)
  : option (Z * nat * string) :=
  match s with
  | String c s' =>
      if is_digit c then digits_loop s' c (10 * acc + digit_val c) (S n)
      else if Ascii.eqb c underscore then
        if Ascii.eqb prev underscore then None else digits_loop s' c acc n
      else if Ascii.eqb prev underscore then None else Some (acc, n, s)
  | EmptyString =>
      if Ascii.eqb prev underscore then None else Some (acc, n, s)
  end.

Definition py_int_unsigned (s : string) : option Z :=
  match s with
  | String c _ =>
      if Ascii.eqb c underscore then None
      else match digits_loop s zero 0 0 with
           | Some (v, S _, rest) =>
               match lstrip rest with
               | EmptyString => Some v
               | _ => None
               end
           | _ => None
           end
  | EmptyString => None
  end.

(** [int(s)] in base 10; [None] stands for [ValueError]. *)
Definition py_int (s : string) : option Z :=
  match lstrip s with
  | String c s' =>
      if Ascii.eqb c "+"%char then py_int_unsigned s'
      else if Ascii.eqb c "-"%char then option_map Z.opp (py_int_unsigned s')
      else py_int_unsigned (String c s')
  | EmptyString => None
  end.

(** The decimal digits of a natural number, most significant first, put in
    front of [acc]. *)
Fixpoint dec_digits (fuel : nat) (n : Z) (acc : string) : string :=
  match fuel with
  | O => acc
  | S f =>
      let acc' := String (digit_char (n mod 10)) acc in
      if n <? 10 then acc' else dec_digits f (n / 10) acc'
  end.

Definition str_nat (n : Z) : string :=
  dec_digits (S (Z.to_nat (Z.log2 n))) n EmptyString.

(** [str(n)], which is also what an f-string makes of an [int]. *)
Definition py_str (n : Z) : string :=
  if n <? 0 then String "-"%char (str_nat (- n)) else str_nat n.

(** ** The [Interface] helper class *)

Module Interface.

Record t : Type := Build { interface_name : string; unit : Z }.

Definition new_interface_from_string (s : string) : result t :=
  let parts := split_dot s in
  p0 <- match nth_error parts 0 with
        | Some p => Ok p
        | None => Raise IndexError
        end ;;
  p1 <- match nth_error parts 1 with
        | Some p => Ok p
        | None => Raise IndexError
        end ;;
  u <- match py_int p1 with
       | Some z => Ok z
       | None => Raise ValueError
       end ;;
  Ok (Build p0 u).

Definition config_rep (i : t) : string :=
  (interface_name i ++ "." ++ py_str (unit i))%string.

End Interface.

(** ** JSON documents as Python sees them after [json.load] *)

Local Set Warnings "-register-all".

Inductive json : Type :=
| JNull
| JBool (b : bool)
| JInt (n : Z)
| JStr (s : string)
| JArr (l : list json)
| JObj (o : list (string * json)).

(** A [dict] with string keys keeps its keys in insertion order. *)
Definition dict : Type := list (string * json).

Fixpoint assoc {V : Type} (k : string) (o : list (string * V)) : option V :=
  match o with
  | [] => None
  | (k', v) :: o' => if String.eqb k k' then Some v else assoc k o'
  end.

(** [o[k] = v]: an existing key keeps its place, a new key goes last. *)
Fixpoint assoc_set {V : Type} (k : string) (v : V) (o : list (string * V))
  : list (string * V) :=
  match o with
  | [] => [(k, v)]
  | (k', v') :: o' =>
      if String.eqb k k' then (k', v) :: o' else (k', v') :: assoc_set k v o'
  end.

(** [v[k]] for a string key. *)
Definition getitem (v : json) (k : string) : result json :=
  match v with
  | JObj o => match assoc k o with
              | Some x => Ok x
              | None => Raise KeyError
              end
  | _ => Raise TypeError
  end.

(** [v[k] = x] for a string key, returning the updated value. *)
Definition setitem (v : json) (k : string) (x : json) : result json :=
  match v with
  | JObj o => Ok (JObj (assoc_set k x o))
  | _ => Raise TypeError
  end.

(** [for x in v]: the items of a list, the keys of a dict, the characters of
    a string. *)
Definition iter (v : json) : result (list json) :=
  match v with
  | JArr l => Ok l
  | JObj o => Ok (map (fun kv => JStr (fst kv)) o)
  | JStr s =>
      Ok (map (fun c => JStr (String c EmptyString)) (list_ascii_of_string s))
  | _ => Raise TypeError
  end.

(** [v == s] for a string [s]. *)
Definition eq_str (v : json) (s : string) : bool :=
  match v with
  | JStr s' => String.eqb s' s
  | _ => false
  end.

(** [v == n] for an integer [n]; a [bool] is an [int] in Python. *)
Definition eq_int (v : json) (n : Z) : bool :=
  match v with
  | JInt n' => n' =? n
  | JBool b => (if b then 1 else 0) =? n
  | _ => false
  end.

(** [sub in v] for a string [sub]. *)
Definition py_contains (v : json) (sub : string) : result bool :=
  match v with
  | JStr s => Ok (str_contains sub s)
  | JArr l => Ok (existsb (fun x => eq_str x sub) l)
  | JObj o => Ok (existsb (fun kv => String.eqb (fst kv) sub) o)
  | _ => Raise TypeError
  end.

Definition hashable (v : json) : bool :=
  match v with
  | JArr _ | JObj _ => false
  | _ => true
  end.

(** [x == y] on hashable values. *)
Definition py_eq (x y : json) : bool :=
  match x, y with
  | JNull, JNull => true
  | JStr s, JStr s' => String.eqb s s'
  | JStr _, _ | _, JStr _ => false
  | JNull, _ | _, JNull => false
  | _, JInt n => eq_int x n
  | _, JBool b => eq_int x (if b then 1 else 0)
  | _, _ => false
  end.

(** [s.add(x)] on a set kept as the list of its members in insertion order. *)
Definition set_add (x : json) (s : list json) : result (list json) :=
  if hashable x then Ok (if existsb (py_eq x) s then s else s ++ [x])
  else Raise TypeError.

(** ** Steps shared by the two variants *)

(** [drop_nis], with the module constant [keep_nis] as a parameter. *)
Definition drop_nis (keep_nis : list string) (data : json) : result json :=
  nis <- getitem data "network-instance" ;;
  entries <- iter nis ;;
  result <- for_each entries (fun entry result =>
      for_each keep_nis (fun match_name_part result =>
          name <- getitem entry "name" ;;
          b <- py_contains name match_name_part ;;
          Ok (if b then result ++ [entry] else result))
        result) [] ;;
  setitem data "network-instance" (JArr result).

(** The first loop of the deduction: the set [interfs] of the referenced
    interface names, in the order in which they were added. *)
Definition collect_interface_names (data : json) : result (list json) :=
  nis <- getitem data "network-instance" ;;
  entries <- iter nis ;;
  for_each entries (fun entry interfs =>
      ifs <- getitem entry "interface" ;;
      l <- iter ifs ;;
      for_each l (fun interface interfs =>
          name <- getitem interface "name" ;;
          set_add name interfs)
        interfs) [].

(** [Interface.new_interface_from_string(x)] on a member of the set. *)
Definition new_interface_from_value (x : json) : result Interface.t :=
  match x with
  | JStr s => Interface.new_interface_from_string s
  | _ => Raise AttributeError
  end.

(** [data['bfd']['subinterface'] = match] updates the dict that [data] holds
    under [bfd]: the updated dict is put back. *)
Definition remove_bfd_interfaces (irbs : list Interface.t) (data : json)
  : result json :=
  bfd <- getitem data "bfd" ;;
  subs <- getitem bfd "subinterface" ;;
  entries <- iter subs ;;
  matched <- for_each entries (fun entry matched =>
      for_each irbs (fun irb matched =>
          id <- getitem entry "id" ;;
          Ok (if eq_str id (Interface.config_rep irb)
              then matched ++ [entry] else matched))
        matched) [] ;;
  bfd' <- setitem bfd "subinterface" (JArr matched) ;;
  setitem data "bfd" bfd'.

(** The inner loop of both interface pruners: the subinterfaces of [entry]
    whose index is [n], appended to [acc]. *)
Definition matching_subinterfaces (entry : json) (n : Z) (acc : list json)
  : result (list json) :=
  subs <- getitem entry "subinterface" ;;
  l <- iter subs ;;
  for_each l (fun subif acc =>
      idx <- getitem subif "index" ;;
      Ok (if eq_int idx n then acc ++ [subif] else acc)) acc.

(** [interf = copy.deepcopy(entry); interf['subinterface'] = []]. *)
Definition fresh_record (entry : json) : result json :=
  setitem entry "subinterface" (JArr []).

(** ** The file system and [open] *)

Record world : Type := World { files : list (string * string); stdout : string }.

Fixpoint read_file (path : string) (fs : list (string * string)) : option string :=
  match fs with
  | [] => None
  | (p, c) :: fs' => if String.eqb path p then Some c else read_file path fs'
  end.

(** The file [path] created or truncated, then holding [content]. *)
Fixpoint write_file (path content : string) (fs : list (string * string))
  : list (string * string) :=
  match fs with
  | [] => [(path, content)]
  | (p, c) :: fs' =>
      if String.eqb path p then (p, content) :: fs'
      else (p, c) :: write_file path content fs'
  end.

Record mode_flags : Type := Flags {
  creating : bool; reading : bool; writing : bool; appending : bool;
  updating : bool; text : bool; binary : bool }.

Fixpoint occurs (c : ascii) (s : string) : bool :=
  match s with
  | EmptyString => false
  | String c' s' => Ascii.eqb c c' || occurs c s'
  end.

(** The scan of the mode string by [open]: every character is one of
    [xrwa+tb] and none occurs twice. *)
Fixpoint scan_mode (m : string) (f : mode_flags) : option mode_flags :=
  match m with
  | EmptyString => Some f
  | String c m' =>
      if occurs c m' then None
      else
        let 'Flags x r w a u t b := f in
        if Ascii.eqb c "x" then scan_mode m' (Flags true r w a u t b)
        else if Ascii.eqb c "r" then scan_mode m' (Flags x true w a u t b)
        else if Ascii.eqb c "w" then scan_mode m' (Flags x r true a u t b)
        else if Ascii.eqb c "a" then scan_mode m' (Flags x r w true u t b)
        else if Ascii.eqb c "+" then scan_mode m' (Flags x r w a true t b)
        else if Ascii.eqb c "t" then scan_mode m' (Flags x r w a u true b)
        else if Ascii.eqb c "b" then scan_mode m' (Flags x r w a u t true)
        else None
  end.

Definition count_true (l : list bool) : nat :=
  List.length (List.filter (fun b => b) l).

(** The mode checks of [open]; [None] stands for its [ValueError]. *)
Definition check_mode (m : string) : option mode_flags :=
  match scan_mode m (Flags false false false false false false false) with
  | Some f =>
      if text f && binary f then None
      else if Nat.eqb (count_true [creating f; reading f; writing f; appending f]) 1
           then Some f
           else None
  | None => None
  end.

(** [with open(path, mode) as outfile: outfile.write(content)].  The program
    opens with ["rw"] and with ["w+"] only; a valid mode without [w] is
    answered like a refused write.  Every path of the model can be written. *)
Definition open_and_write (path mode content : string) (w : world) : result world :=
  match check_mode mode with
  | None => Raise ValueError
  | Some f =>
      if writing f then Ok (World (write_file path content (files w)) (stdout w))
      else Raise ValueError
  end.

(** [load_data]: the file must exist ([sys.exit(1)] otherwise) and parse
    ([json.load] raises a [ValueError] otherwise). *)
Definition load_data (json_loads : string -> option json) (i : string)
  (w : world) : result json :=
  match read_file i (files w) with
  | None => Raise SystemExit
  | Some content =>
      match json_loads content with
      | Some data => Ok data
      | None => Raise ValueError
      end
  end.

(** [print(text)]. *)
Definition print (txt : string) (w : world) : world :=
  World (files w) (stdout w ++ txt ++ String (ascii_of_N 10) EmptyString)%string.

(** ** [src/main.py]: the strict variant *)

Module Main.

Definition keep_nis : list string := ["provisioning"; "infrastructure"; "default"].

(** The copy [interf] is appended to [result] before the inner loop fills
    its subinterface list; the list it ends up with is computed first here,
    which is the same since nothing reads [result] in between. *)
Definition remove_interfaces (interfaces : list Interface.t) (data : json)
  : result json :=
  result <- for_each interfaces (fun irb result =>
      ifs <- getitem data "interface" ;;
      entries <- iter ifs ;;
      for_each entries (fun entry result =>
          name <- getitem entry "name" ;;
          if eq_str name (Interface.interface_name irb) then
            interf <- fresh_record entry ;;
            subs <- matching_subinterfaces entry (Interface.unit irb) [] ;;
            interf' <- setitem interf "subinterface" (JArr subs) ;;
            Ok (result ++ [interf'])
          else Ok result)
        result) [] ;;
  setitem data "interface" (JArr result).

Definition deduce_base_irb_interfaces (set_iter : list json -> list json)
  (data : json) : result (list Interface.t) :=
  interfs <- collect_interface_names data ;;
  for_each (set_iter interfs) (fun x result =>
      b <- py_contains x "irb" ;;
      if b then i <- new_interface_from_value x ;; Ok (result ++ [i])
      else Ok result) [].

Definition finish (json_dumps : json -> string) (data : json)
  (o : option string) (w : world) : result world :=
  match o with
  | Some path => open_and_write path "rw" (json_dumps data) w
  | None => Ok (print (json_dumps data) w)
  end.

(** The four pruning steps of [process], between [load_data] and [finish]. *)
Definition prune (set_iter : list json -> list json) (data : json)
  : result json :=
  data1 <- drop_nis keep_nis data ;;
  irbs <- deduce_base_irb_interfaces set_iter data1 ;;
  data2 <- remove_bfd_interfaces irbs data1 ;;
  remove_interfaces irbs data2.

Definition process (json_loads : string -> option json)
  (json_dumps : json -> string) (set_iter : list json -> list json)
  (i : string) (o : option string) (w : world) : result world :=
  data <- load_data json_loads i w ;;
  data' <- prune set_iter data ;;
  finish json_dumps data' o w.

End Main.

(** ** [src/nokia/paco/config_filter.py]: the consolidating variant *)

Module ConfigFilter.

Definition keep_nis : list string := ["infrastructure"; "default"].

(** The loop state of [remove_interfaces]: the dict [result] and the key
    under which the record bound to the local variable [interf] sits in it
    ([None] while the variable is unbound). *)
Definition loop_state : Type := (dict * option string)%type.

(** [interf = copy.deepcopy(entry); interf['subinterface'] = [];
    result[entry['name']] = interf].  Where the program gets here the name is
    a string, or a list or dict, which no dict takes as a key. *)
Definition bind_fresh (entry name : json) (st : loop_state) : result loop_state :=
  interf <- fresh_record entry ;;
  match name with
  | JStr n => Ok (assoc_set n interf (fst st), Some n)
  | _ => Raise TypeError
  end.

(** [interf['subinterface'].append(subif)]. *)
Definition append_subinterface (subif : json) (st : loop_state)
  : result loop_state :=
  match snd st with
  | None => Raise UnboundLocalError
  | Some k =>
      match assoc k (fst st) with
      | None => Raise KeyError
      | Some interf =>
          subs <- getitem interf "subinterface" ;;
          match subs with
          | JArr l =>
              interf' <- setitem interf "subinterface" (JArr (l ++ [subif])) ;;
              Ok (assoc_set k interf' (fst st), Some k)
          | _ => Raise AttributeError
          end
      end
  end.

(** [name not in result]. *)
Definition not_in_result (name : json) (st : loop_state) : result bool :=
  match name with
  | JStr n => Ok (match assoc n (fst st) with Some _ => false | None => true end)
  | _ => if hashable name then Ok true else Raise TypeError
  end.

(** The body of the loop over [data['interface']]. *)
Definition scan_entry (interfaces : list Interface.t) (entry : json)
  (st : loop_state) : result loop_state :=
  name <- getitem entry "name" ;;
  eth <- py_contains name "ethernet" ;;
  st1 <- (if eth then bind_fresh entry name st else Ok st) ;;
  for_each interfaces (fun interface st =>
      name <- getitem entry "name" ;;
      if eq_str name (Interface.interface_name interface) then
        absent <- not_in_result name st ;;
        st' <- (if absent then bind_fresh entry name st else Ok st) ;;
        subs <- getitem entry "subinterface" ;;
        l <- iter subs ;;
        for_each l (fun subif st =>
            idx <- getitem subif "index" ;;
            if eq_int idx (Interface.unit interface)
            then append_subinterface subif st else Ok st) st'
      else Ok st) st1.

Definition remove_interfaces (interfaces : list Interface.t) (data : json)
  : result json :=
  ifs <- getitem data "interface" ;;
  entries <- iter ifs ;;
  st <- for_each entries (scan_entry interfaces) ([], None) ;;
  setitem data "interface" (JArr (map snd (fst st))).

Definition deduce_in_use_interfaces (set_iter : list json -> list json)
  (data : json) : result (list Interface.t) :=
  interfs <- collect_interface_names data ;;
  for_each (set_iter interfs) (fun x result =>
      i <- new_interface_from_value x ;; Ok (result ++ [i])) [].

Definition finish (json_dumps : json -> string) (data : json)
  (o : option string) (w : world) : result world :=
  match o with
  | Some path => open_and_write path "w+" (json_dumps data) w
  | None => Ok (print (json_dumps data) w)
  end.

(** The four pruning steps of [process], between [load_data] and [finish]. *)
Definition prune (set_iter : list json -> list json) (data : json)
  : result json :=
  data1 <- drop_nis keep_nis data ;;
  in_use_interfaces <- deduce_in_use_interfaces set_iter data1 ;;
  data2 <- remove_bfd_interfaces in_use_interfaces data1 ;;
  remove_interfaces in_use_interfaces data2.

Definition process (json_loads : string -> option json)
  (json_dumps : json -> string) (set_iter : list json -> list json)
  (i : string) (o : option string) (w : world) : result world :=
  data <- load_data json_loads i w ;;
  data' <- prune set_iter data ;;
  finish json_dumps data' o w.

End ConfigFilter.

(** ** Notions used to state the properties *)

Fixpoint all_digits (s : string) : bool :=
  match s with
  | EmptyString => true
  | String c s' => is_digit c && all_digits s'
  end.

(** The value of a digit string read after the value [acc]. *)
Fixpoint dec_value (s : string) (acc : Z) : Z :=
  match s with
  | EmptyString => acc
  | String c s' => dec_value s' (10 * acc + digit_val c)
  end.

Definition lead_nonzero (s : string) : bool :=
  match s with
  | String c _ => negb (Ascii.eqb c "0")
  | EmptyString => false
  end.

(** A decimal numeral without sign and without a needless leading zero. *)
Definition canonical_nat (s : string) : bool :=
  match s with
  | EmptyString => false
  | String c s' =>
      all_digits s
      && (lead_nonzero s || match s' with EmptyString => true | _ => false end)
  end.

(** The numerals that [str] produces: ["0"], or a numeral that starts with a
    digit other than zero, with ["-"] in front of it or not. *)
Definition canonical_decimal (s : string) : bool :=
  match s with
  | String c s' =>
      if Ascii.eqb c "-" then canonical_nat s' && negb (String.eqb s' "0")
      else canonical_nat s
  | EmptyString => false
  end.

(** The reference strings of the specification: one separator between a name
    and a unit that [int] can parse. *)
Definition WellFormedRef (s : string) : Prop :=
  exists name u,
    s = (name ++ "." ++ u)%string /\ no_dot name = true /\ no_dot u = true
    /\ py_int u <> None.

(** The reference strings the parser takes: the second field must parse, the
    fields after it are not looked at. *)
Definition AcceptedRef (s : string) : Prop :=
  exists name u rest,
    s = (name ++ "." ++ u ++ rest)%string
    /\ no_dot name = true /\ no_dot u = true
    /\ (rest = EmptyString \/ exists r, rest = String dot r)
    /\ py_int u <> None.

(** The name of a record, when it is a dict whose [name] is a string. *)
Definition name_of (entry : json) : option string :=
  match getitem entry "name" with
  | Ok (JStr n) => Some n
  | _ => None
  end.

(** How many of the configured substrings occur in a name. *)
Definition count_matches (keep_nis : list string) (n : string) : nat :=
  List.length (List.filter (fun m => str_contains m n) keep_nis).

(** How often [drop_nis] appends an entry to its result. *)
Definition copies_kept (keep_nis : list string) (entry : json) : nat :=
  match name_of entry with
  | Some n => count_matches keep_nis n
  | None => O
  end.

(** An entry is kept when its name contains at least one substring. *)
Definition kept (keep_nis : list string) (entry : json) : bool :=
  match name_of entry with
  | Some n => existsb (fun m => str_contains m n) keep_nis
  | None => false
  end.

(** The network instances of a document, when they form a list of named
    records. *)
Definition named_list (data : json) (key : string) (entries : list json) : Prop :=
  getitem data key = Ok (JArr entries)
  /\ Forall (fun e => name_of e <> None) entries.

(** How often [remove_bfd_interfaces] appends a binding to its result: once
    for every reference whose canonical form is the binding's id. *)
Definition bfd_copies (irbs : list Interface.t) (entry : json) : nat :=
  match getitem entry "id" with
  | Ok id =>
      List.length
        (List.filter (fun irb => eq_str id (Interface.config_rep irb)) irbs)
  | Raise _ => O
  end.

(** A binding is in use when its id is the canonical form of a reference. *)
Definition bfd_in_use (irbs : list Interface.t) (entry : json) : bool :=
  match getitem entry "id" with
  | Ok id => existsb (fun irb => eq_str id (Interface.config_rep irb)) irbs
  | Raise _ => false
  end.

(** The BFD bindings of a document, when they form a list of records with an
    id. *)
Definition bfd_list (data : json) (b : dict) (entries : list json) : Prop :=
  getitem data "bfd" = Ok (JObj b)
  /\ assoc "subinterface" b = Some (JArr entries)
  /\ Forall (fun e => exists id, getitem e "id" = Ok id) entries.

(** [l1] is [l2] with some of its items left out. *)
Inductive subseq {A : Type} : list A -> list A -> Prop :=
| subseq_nil : subseq [] []
| subseq_skip x l1 l2 : subseq l1 l2 -> subseq l1 (x :: l2)
| subseq_take x l1 l2 : subseq l1 l2 -> subseq (x :: l1) (x :: l2).

(** The subinterfaces of a record, when they form a list. *)
Definition subifs_of (entry : json) : list json :=
  match getitem entry "subinterface" with
  | Ok (JArr l) => l
  | _ => []
  end.

(** [subif['index'] == n]. *)
Definition index_matches (n : Z) (subif : json) : bool :=
  match getitem subif "index" with
  | Ok idx => eq_int idx n
  | Raise _ => false
  end.

(** The record [entry] with [subs] as its subinterface list. *)
Definition with_subinterfaces (entry : json) (subs : list json) : json :=
  match entry with
  | JObj o => JObj (assoc_set "subinterface" (JArr subs) o)
  | _ => entry
  end.

(** An interface record: a dict with a string name and a list of
    subinterfaces that are dicts with an index. *)
Definition iface_record (entry : json) : Prop :=
  name_of entry <> None
  /\ exists l, getitem entry "subinterface" = Ok (JArr l)
               /\ Forall (fun s => exists idx, getitem s "index" = Ok idx) l.

Definition iface_list (data : json) (entries : list json) : Prop :=
  getitem data "interface" = Ok (JArr entries) /\ Forall iface_record entries.

(** [entry['name'] == irb.interface_name] on a named record. *)
Definition named (irb : Interface.t) (entry : json) : bool :=
  match name_of entry with
  | Some n => String.eqb n (Interface.interface_name irb)
  | None => false
  end.

(** What the strict pruner appends for one reference: a copy of every record
    with the reference's name, in document order, with the subinterfaces of
    the reference's unit only. *)
Definition strict_records (entries : list json) (irb : Interface.t) : list json :=
  map (fun e => with_subinterfaces e
                  (List.filter (index_matches (Interface.unit irb)) (subifs_of e)))
      (List.filter (named irb) entries).

(** ** A typed view of the consolidating loop *)

(** A record of [result]: the original record it was copied from and the
    subinterfaces appended to the copy so far. *)
Definition trimmed : Type := (json * list json)%type.

(** The loop state: [result] as the list of its keys with their records, and
    the key of the record that the variable [interf] is bound to. *)
Definition view : Type := (list (string * trimmed) * option string)%type.

Definition concrete_record (v : trimmed) : json :=
  with_subinterfaces (fst v) (snd v).

Definition concrete (a : list (string * trimmed)) : dict :=
  map (fun kv => (fst kv, concrete_record (snd kv))) a.

Definition rep (st : view) : ConfigFilter.loop_state :=
  (concrete (fst st), snd st).

Definition has_key {V : Type} (n : string) (a : list (string * V)) : bool :=
  match assoc n a with
  | Some _ => true
  | None => false
  end.

Definition view_bind (n : string) (e : json) (st : view) : view :=
  (assoc_set n (e, []) (fst st), Some n).

Definition view_append (s : json) (st : view) : view :=
  match snd st with
  | Some k =>
      match assoc k (fst st) with
      | Some (e, l) => (assoc_set k (e, l ++ [s]) (fst st), Some k)
      | None => st
      end
  | None => st
  end.

Definition view_subifs (u : Z) (st : view) (s : json) : view :=
  if index_matches u s then view_append s st else st.

Definition view_reference (e : json) (n : string) (st : view)
  (irb : Interface.t) : view :=
  if String.eqb n (Interface.interface_name irb) then
    fold_left (view_subifs (Interface.unit irb)) (subifs_of e)
      (if has_key n (fst st) then st else view_bind n e st)
  else st.

Definition view_scan (irbs : list Interface.t) (st : view) (e : json) : view :=
  match name_of e with
  | Some n =>
      fold_left (view_reference e n) irbs
        (if str_contains "ethernet" n then view_bind n e st else st)
  | None => st
  end.

Definition view_loop (irbs : list Interface.t) (entries : list json) : view :=
  fold_left (view_scan irbs) entries ([], None).

(** The states the loop can be in: every record was copied from a dict, and
    once [result] has a key, [interf] is bound to a record of [result]. *)
Definition view_ok (st : view) : Prop :=
  (forall k v, assoc k (fst st) = Some v -> exists o, fst v = JObj o)
  /\ (fst st <> [] -> exists k, snd st = Some k /\ has_key k (fst st) = true).

(** A record is kept when its name contains ["ethernet"] or is the name of
    an in-use reference. *)
Definition retained (irbs : list Interface.t) (e : json) : bool :=
  match name_of e with
  | Some n =>
      str_contains "ethernet" n
      || existsb (fun irb => String.eqb n (Interface.interface_name irb)) irbs
  | None => false
  end.

(** The subinterfaces that the references to the record [e] select from it,
    reference by reference. *)
Definition selected_subifs (irbs : list Interface.t) (e : json) : list json :=
  flat_map (fun irb => if named irb e
                       then List.filter (index_matches (Interface.unit irb)) (subifs_of e)
                       else []) irbs.

(** What the loop adds to [result] for a record whose name is new. *)
Definition consolidated (irbs : list Interface.t) (e : json) : list (string * trimmed) :=
  match name_of e with
  | Some n => if retained irbs e then [(n, (e, selected_subifs irbs e))] else []
  | None => []
  end.

Definition add_key (ks : list string) (k : string) : list string :=
  if existsb (String.eqb k) ks then ks else ks ++ [k].

(** The names of a list in the order in which each is seen first. *)
Definition first_seen (l : list string) : list string := fold_left add_key l [].

Definition names_of (l : list json) : list string :=
  flat_map (fun e => match name_of e with Some n => [n] | None => [] end) l.

(** A subinterface is in use when it sits in an original record and its index
    is the unit of a reference that names this record. *)
Definition in_use_subif (irbs : list Interface.t) (entries : list json)
  (s : json) : Prop :=
  exists e irb, In e entries /\ In irb irbs /\ named irb e = true
                /\ In s (subifs_of e)
                /\ index_matches (Interface.unit irb) s = true.

(** Where the records of [result] come from: each was copied from an original
    record of its name, and holds subinterfaces in use only. *)
Definition provenance (irbs : list Interface.t) (entries : list json)
  (st : view) : Prop :=
  forall k e l, assoc k (fst st) = Some (e, l) ->
    In e entries /\ name_of e = Some k /\ Forall (in_use_subif irbs entries) l.

(** The top-level keys that the pipeline does not assign. *)
Definition other_key (k : string) : bool :=
  negb (String.eqb k "network-instance") && negb (String.eqb k "interface")
  && negb (String.eqb k "bfd").

(** The bindings of a dict under the keys that satisfy [p], in their order. *)
Definition restrict (p : string -> bool) (o : dict) : dict :=
  List.filter (fun kv => p (fst kv)) o.

Definition not_subinterface (k : string) : bool :=
  negb (String.eqb k "subinterface").

(** ** Documents of the expected shape *)

(** A document with the three sections the pipeline reads: network instances
    that are named records, BFD bindings with an id, interface records. *)
Definition doc_shape (d : json) (o : dict) (nis : list json) (b : dict)
  (bfds ifs : list json) : Prop :=
  d = JObj o
  /\ assoc "network-instance" o = Some (JArr nis)
  /\ Forall (fun e => name_of e <> None) nis
  /\ assoc "bfd" o = Some (JObj b)
  /\ assoc "subinterface" b = Some (JArr bfds)
  /\ Forall (fun e => exists id, getitem e "id" = Ok id) bfds
  /\ assoc "interface" o = Some (JArr ifs)
  /\ Forall iface_record ifs.

(** The document with its three sections replaced. *)
Definition with_sections (o : dict) (nis : list json) (b : dict)
  (bfds ifs : list json) : dict :=
  assoc_set "interface" (JArr ifs)
    (assoc_set "bfd" (JObj (assoc_set "subinterface" (JArr bfds) b))
       (assoc_set "network-instance" (JArr nis) o)).

Definition kept_instances (keep_nis : list string) (nis : list json) : list json :=
  flat_map (fun e => repeat e (copies_kept keep_nis e)) nis.

Definition kept_bindings (irbs : list Interface.t) (bfds : list json) : list json :=
  flat_map (fun e => repeat e (bfd_copies irbs e)) bfds.

(** The records that the consolidating pruner returns on distinct names. *)
Definition consolidated_records (irbs : list Interface.t) (ifs : list json)
  : list json :=
  map (fun e => with_subinterfaces e (selected_subifs irbs e))
      (List.filter (retained irbs) ifs).

Inductive variant : Type := Strict | Consolidating.

Definition keep_nis_of (v : variant) : list string :=
  match v with
  | Strict => Main.keep_nis
  | Consolidating => ConfigFilter.keep_nis
  end.

Definition prune_of (v : variant) : (list json -> list json) -> json -> result json :=
  match v with
  | Strict => Main.prune
  | Consolidating => ConfigFilter.prune
  end.

Definition deduce_of (v : variant)
  : (list json -> list json) -> json -> result (list Interface.t) :=
  match v with
  | Strict => Main.deduce_base_irb_interfaces
  | Consolidating => ConfigFilter.deduce_in_use_interfaces
  end.

Definition pruned_records (v : variant) (irbs : list Interface.t)
  (ifs : list json) : list json :=
  match v with
  | Strict => flat_map (strict_records ifs) irbs
  | Consolidating => consolidated_records irbs ifs
  end.

(** What a run needs beyond the shape of its input to be repeatable: no
    network instance is kept twice, and in strict mode no two references name
    one interface, in consolidating mode no two records carry one name. *)
Definition repeatable (v : variant) (irbs : list Interface.t)
  (nis ifs : list json) : Prop :=
  Forall (fun e => (copies_kept (keep_nis_of v) e <= 1)%nat) nis
  /\ NoDup (map Interface.config_rep irbs)
  /\ match v with
     | Strict => NoDup (map Interface.interface_name irbs)
     | Consolidating => NoDup (names_of ifs)
     end.

(** ** Sample documents *)

Definition subif (i : Z) : json := JObj [("index", JInt i)].

Definition record (n : string) (subs : list json) : json :=
  JObj [("name", JStr n); ("mtu", JInt 9000); ("subinterface", JArr subs)].

Definition sample_interfaces : list json :=
  [record "ethernet-1/1" [subif 0; subif 5];
   record "irb0" [subif 1; subif 2; subif 3];
   record "lo0" [subif 0]].

Definition sample_in_use : list Interface.t :=
  [Interface.Build "irb0" 2; Interface.Build "ethernet-1/1" 0;
   Interface.Build "irb0" 1].

Definition network_instance (n : string) (refs : list string) : json :=
  JObj [("name", JStr n);
        ("interface", JArr (map (fun r => JObj [("name", JStr r)]) refs))].

Definition binding (id : string) : json := JObj [("id", JStr id)].

Definition sample_instances : list json :=
  [network_instance "default" ["irb0.2"; "ethernet-1/1.0"; "irb0.1"];
   network_instance "tenant-7" ["irb0.3"; "lo0.0"]].

Definition sample_bindings : list json :=
  [binding "irb0.1"; binding "irb0.3"; binding "irb0.2"].

Definition sample_bfd : dict :=
  [("admin-state", JStr "enable"); ("subinterface", JArr sample_bindings)].

Definition sample_dict : dict :=
  [("system", JObj [("name", JStr "leaf1")]);
   ("network-instance", JArr sample_instances);
   ("interface", JArr sample_interfaces);
   ("bfd", JObj sample_bfd)].

Definition sample_data : json := JObj sample_dict.

(** One interface referenced with two units. *)
Definition twice_referenced : json :=
  JObj [("network-instance", JArr [network_instance "default" ["irb0.1"; "irb0.2"]]);
        ("interface", JArr [record "irb0" [subif 1; subif 2]]);
        ("bfd", JObj [("subinterface", JArr [])])].

(** One network instance whose name contains two of the kept substrings. *)
Definition twice_kept : json :=
  JObj [("network-instance", JArr [network_instance "default-infrastructure" []]);
        ("interface", JArr []);
        ("bfd", JObj [("subinterface", JArr [])])].

(** ** Notions used for the further properties *)

(** The names that a network instance refers to, when its [interface] is a
    list. *)
Definition refs_of (e : json) : list string :=
  match getitem e "interface" with
  | Ok (JArr l) => names_of l
  | _ => []
  end.

(** The interface names that the network instances refer to, in document
    order, with their repetitions. *)
Definition referenced_names (nis : list json) : list string :=
  flat_map refs_of nis.

(** A network instance whose [interface] is a list of named records. *)
Definition ni_record (e : json) : Prop :=
  exists l, getitem e "interface" = Ok (JArr l)
            /\ Forall (fun r => name_of r <> None) l.

(** The set iterates over its members, each once, in some order. *)
Definition iterates_members (set_iter : list json -> list json) : Prop :=
  forall l, Permutation (set_iter l) l.

(** [parts] are the parses of [names], one by one. *)
Definition parsed_as (names : list string) (irbs : list Interface.t) : Prop :=
  Forall2 (fun n i => Interface.new_interface_from_string n = Ok i) names irbs.

(** The names that the deduction of a variant parses: those with ["irb"] in
    them in [src/main.py], all of them in [config_filter.py]. *)
Definition parsed_by (v : variant) (n : string) : bool :=
  match v with
  | Strict => str_contains "irb" n
  | Consolidating => true
  end.

(** The record has a name with ["ethernet"] in it. *)
Definition ethernet_named (e : json) : bool :=
  match name_of e with
  | Some n => str_contains "ethernet" n
  | None => false
  end.

(** A document in which no network instance will be kept. *)
Definition sample_unkept_dict : dict :=
  [("network-instance", JArr [network_instance "tenant-7" ["irb0.3"; "lo0"]]);
   ("interface", JArr sample_interfaces);
   ("bfd", JObj sample_bfd)].

(** * Properties *)

(** ** Strings *)

Lemma string_snoc_ind (P : string -> Prop) :
  P EmptyString ->
  (forall s c, P s -> P (s ++ String c EmptyString)%string) ->
  forall s, P s.
Proof.
  intros Hnil Hsnoc s.
  rewrite <- (string_of_list_ascii_of_string s).
  induction (list_ascii_of_string s) as [|c l IH] using rev_ind.
  - exact Hnil.
  - replace (string_of_list_ascii (l ++ [c]))
      with (string_of_list_ascii l ++ String c EmptyString)%string.
    + apply Hsnoc, IH.
    + clear. induction l as [|a l IH]; simpl; [reflexivity | now rewrite IH].
Qed.

Lemma append_nil_r (s : string) : (s ++ EmptyString)%string = s.
Proof. induction s as [|c s IH]; simpl; [reflexivity | now rewrite IH]. Qed.

Lemma append_assoc (a b c : string) :
  ((a ++ b) ++ c)%string = (a ++ (b ++ c))%string.
Proof. induction a as [|x a IH]; simpl; [reflexivity | now rewrite IH]. Qed.

Lemma append_inv_head (a b c : string) :
  (a ++ b)%string = (a ++ c)%string -> b = c.
Proof. induction a as [|x a IH]; simpl; intros H; [exact H | injection H; auto]. Qed.

Lemma length_append (a b : string) :
  String.length (a ++ b) = (String.length a + String.length b)%nat.
Proof. induction a as [|x a IH]; simpl; [reflexivity | now rewrite IH]. Qed.

Lemma split_dot_not_nil (s : string) : split_dot s <> [].
Proof.
  induction s as [|c s IH]; simpl; [discriminate|].
  destruct (Ascii.eqb c dot); [discriminate|].
  destruct (split_dot s); [contradiction | discriminate].
Qed.

Lemma split_dot_no_dot (s : string) : no_dot s = true -> split_dot s = [s].
Proof.
  induction s as [|c s IH]; simpl; [reflexivity|].
  destruct (Ascii.eqb c dot); simpl; [discriminate|].
  intros H. now rewrite (IH H).
Qed.

Lemma split_dot_app (a b : string) :
  no_dot a = true -> split_dot (a ++ String dot b) = a :: split_dot b.
Proof.
  induction a as [|c a IH]; simpl; [reflexivity|].
  destruct (Ascii.eqb c dot); simpl; [discriminate|].
  intros H. now rewrite (IH H).
Qed.

(** What the first field of a split says about the string. *)
Lemma split_dot_head (s p : string) (ps : list string) :
  split_dot s = p :: ps ->
  no_dot p = true
  /\ (ps = [] -> s = p)
  /\ (ps <> [] -> exists s', s = (p ++ String dot s')%string /\ split_dot s' = ps).
Proof.
  revert p ps. induction s as [|c s IH]; simpl; intros p ps H.
  - injection H as <- <-.
    split; [reflexivity | split; [reflexivity | now intros []]].
  - destruct (Ascii.eqb c dot) eqn:Hc.
    + injection H as <- <-. apply Ascii.eqb_eq in Hc. subst c.
      split; [reflexivity | split].
      * intros E. now destruct (split_dot_not_nil s).
      * intros _. exists s. now split.
    + destruct (split_dot s) as [|h t] eqn:Hs; [now destruct (split_dot_not_nil s)|].
      injection H as <- <-.
      destruct (IH h t eq_refl) as (Hh & Hnil & Hcons).
      split; [|split].
      * simpl. now rewrite Hc, Hh.
      * intros E. now rewrite (Hnil E).
      * intros E. destruct (Hcons E) as (s' & -> & Hs').
        exists s'. now split.
Qed.

(** ** Digits *)

Ltac ascii_cases c :=
  destruct c as [[] [] [] [] [] [] [] []]; vm_compute; try discriminate; auto.

Lemma digit_char_val (c : ascii) :
  is_digit c = true -> digit_char (digit_val c) = c.
Proof. ascii_cases c. Qed.

Lemma digit_val_range (c : ascii) : is_digit c = true -> 0 <= digit_val c <= 9.
Proof. ascii_cases c; intros _; split; discriminate. Qed.

Lemma digit_val_zero (c : ascii) :
  is_digit c = true -> digit_val c = 0 -> c = "0"%char.
Proof. ascii_cases c; discriminate. Qed.

Lemma digit_not_underscore (c : ascii) :
  is_digit c = true -> Ascii.eqb c underscore = false.
Proof. ascii_cases c. Qed.

Lemma digit_not_space (c : ascii) : is_digit c = true -> is_space c = false.
Proof. ascii_cases c. Qed.

Lemma digit_not_sign (c : ascii) :
  is_digit c = true ->
  Ascii.eqb c "+" = false /\ Ascii.eqb c "-" = false /\ Ascii.eqb c dot = false.
Proof. ascii_cases c. Qed.

Lemma digit_char_digit (d : Z) :
  0 <= d <= 9 -> is_digit (digit_char d) = true /\ digit_val (digit_char d) = d.
Proof.
  intros H.
  assert (E : d = 0 \/ d = 1 \/ d = 2 \/ d = 3 \/ d = 4 \/ d = 5 \/ d = 6
              \/ d = 7 \/ d = 8 \/ d = 9) by lia.
  repeat (destruct E as [-> | E]; [now vm_compute|]). subst d. now vm_compute.
Qed.

Lemma all_digits_app (a b : string) :
  all_digits (a ++ b) = all_digits a && all_digits b.
Proof.
  induction a as [|c a IH]; simpl; [reflexivity|].
  now rewrite IH, andb_assoc.
Qed.

Lemma dec_value_snoc (s : string) (c : ascii) (acc : Z) :
  dec_value (s ++ String c EmptyString) acc = 10 * dec_value s acc + digit_val c.
Proof. revert acc. induction s as [|x s IH]; simpl; intros acc; [reflexivity | apply IH]. Qed.

Lemma dec_value_nonneg (s : string) (acc : Z) :
  all_digits s = true -> 0 <= acc -> acc <= dec_value s acc.
Proof.
  revert acc. induction s as [|c s IH]; cbn [dec_value all_digits];
    intros acc H Hacc; [lia|].
  apply andb_prop in H as [Hc Hs].
  pose proof (digit_val_range c Hc) as Hr.
  assert (Hnext : 0 <= 10 * acc + digit_val c) by lia.
  specialize (IH (10 * acc + digit_val c) Hs Hnext). lia.
Qed.

(** ** [int] on digit strings *)

Lemma digits_loop_digits (s : string) (prev : ascii) (acc : Z) (n : nat) :
  all_digits s = true ->
  Ascii.eqb prev underscore = false ->
  digits_loop s prev acc n = Some (dec_value s acc, (n + String.length s)%nat, EmptyString).
Proof.
  revert prev acc n.
  induction s as [|c s IH]; cbn [digits_loop dec_value all_digits String.length];
    intros prev acc n H Hp.
  - rewrite Hp. now rewrite Nat.add_0_r.
  - apply andb_prop in H as [Hc Hs]. rewrite Hc.
    rewrite (IH c _ _ Hs (digit_not_underscore c Hc)).
    now rewrite Nat.add_succ_r.
Qed.

Lemma py_int_unsigned_digits (s : string) :
  all_digits s = true -> s <> EmptyString ->
  py_int_unsigned s = Some (dec_value s 0).
Proof.
  intros H Hne. destruct s as [|c s]; [contradiction|].
  unfold py_int_unsigned.
  rewrite (digits_loop_digits _ zero 0 0 H eq_refl).
  simpl in H. apply andb_prop in H as [Hc _].
  rewrite (digit_not_underscore c Hc). reflexivity.
Qed.

Lemma py_int_digits (s : string) :
  all_digits s = true -> s <> EmptyString -> py_int s = Some (dec_value s 0).
Proof.
  intros H Hne. destruct s as [|c s]; [contradiction|].
  pose proof H as H'. simpl in H'. apply andb_prop in H' as [Hc _].
  unfold py_int. simpl lstrip. rewrite (digit_not_space c Hc).
  destruct (digit_not_sign c Hc) as (-> & -> & _).
  now apply py_int_unsigned_digits.
Qed.

Lemma py_int_minus_digits (s : string) :
  all_digits s = true -> s <> EmptyString ->
  py_int (String "-" s) = Some (- dec_value s 0).
Proof.
  intros H Hne. unfold py_int. simpl.
  now rewrite (py_int_unsigned_digits s H Hne).
Qed.

(** ** [str] on integers *)

Lemma lead_nonzero_app (s t : string) :
  s <> EmptyString -> lead_nonzero (s ++ t) = lead_nonzero s.
Proof. destruct s; [contradiction | reflexivity]. Qed.

Lemma lead_nonzero_digit (c : ascii) :
  is_digit c = true -> lead_nonzero (String c EmptyString) = true ->
  1 <= digit_val c.
Proof.
  intros Hc Hl. pose proof (digit_val_range c Hc) as Hr.
  destruct (Z.eq_dec (digit_val c) 0) as [E|E]; [|lia].
  rewrite (digit_val_zero c Hc E) in Hl. discriminate.
Qed.

(** The printer gives back a numeral that starts with a digit other than
    zero, when it has one step of fuel for each digit. *)
Lemma dec_digits_value (s : string) :
  all_digits s = true -> lead_nonzero s = true ->
  1 <= dec_value s 0
  /\ 2 ^ Z.of_nat (String.length s) <= 2 * dec_value s 0
  /\ forall fuel acc, (String.length s <= fuel)%nat ->
       dec_digits fuel (dec_value s 0) acc = (s ++ acc)%string.
Proof.
  induction s as [|s c IH] using string_snoc_ind; [discriminate|].
  rewrite all_digits_app. intros H Hl. apply andb_prop in H as [Hs Hc].
  cbn [all_digits] in Hc. rewrite andb_true_r in Hc.
  pose proof (digit_val_range c Hc) as Hr.
  rewrite dec_value_snoc, length_append. cbn [String.length].
  destruct s as [|x s'].
  - clear IH. cbn [dec_value append Nat.add String.length] in *.
    pose proof (lead_nonzero_digit c Hc Hl) as H1.
    split; [lia | split; [change (2 ^ Z.of_nat 1) with 2; lia|]].
    intros [|f] acc Hf; [inversion Hf|]. cbn [dec_digits].
    replace (10 * 0 + digit_val c) with (digit_val c) by lia.
    rewrite Z.mod_small by lia.
    destruct (Z.ltb_spec (digit_val c) 10); [|lia].
    now rewrite digit_char_val.
  - rewrite lead_nonzero_app in Hl by discriminate.
    destruct (IH Hs Hl) as (H1 & Hpow & Hprint).
    set (v := dec_value (String x s') 0) in *.
    split; [lia | split].
    + rewrite Nat.add_1_r, Nat2Z.inj_succ, Z.pow_succ_r by lia. lia.
    + intros [|f] acc Hf; [lia|]. cbn [dec_digits].
      destruct (Z.ltb_spec (10 * v + digit_val c) 10); [lia|].
      replace ((10 * v + digit_val c) / 10) with v
        by (apply Z.div_unique with (r := digit_val c); lia).
      replace ((10 * v + digit_val c) mod 10) with (digit_val c)
        by (apply Z.mod_unique with (q := v); lia).
      rewrite Hprint by lia.
      rewrite digit_char_val by assumption.
      now rewrite append_assoc.
Qed.

Lemma str_nat_value (s : string) :
  canonical_nat s = true -> str_nat (dec_value s 0) = s.
Proof.
  unfold canonical_nat. destruct s as [|c s']; [discriminate|].
  intros H. apply andb_prop in H as [Hd H].
  apply orb_prop in H as [Hl | Hone].
  - destruct (dec_digits_value _ Hd Hl) as (H1 & Hpow & Hprint).
    unfold str_nat. rewrite Hprint; [apply append_nil_r|].
    set (v := dec_value (String c s') 0) in *.
    set (len := String.length (String c s')) in *.
    assert (Hlen : (1 <= len)%nat) by (subst len; simpl; lia).
    assert (Hle : 2 ^ (Z.of_nat len - 1) <= v).
    { replace (Z.of_nat len) with (Z.succ (Z.of_nat len - 1)) in Hpow by lia.
      rewrite Z.pow_succ_r in Hpow by lia. lia. }
    apply Z.log2_le_pow2 in Hle; lia.
  - destruct s'; [|discriminate].
    cbn [all_digits] in Hd. rewrite andb_true_r in Hd.
    pose proof (digit_val_range c Hd) as Hr.
    unfold str_nat. cbn [dec_value dec_digits].
    replace (10 * 0 + digit_val c) with (digit_val c) by lia.
    destruct (Z.to_nat (Z.log2 (digit_val c))); cbn [dec_digits];
      rewrite Z.mod_small by lia;
      (destruct (Z.ltb_spec (digit_val c) 10); [|lia]);
      now rewrite digit_char_val.
Qed.

(** Parsing a canonical numeral and printing the value gives the numeral. *)
Lemma py_str_py_int_canonical (u : string) :
  canonical_decimal u = true ->
  exists z, py_int u = Some z /\ py_str z = u.
Proof.
  unfold canonical_decimal. destruct u as [|c u']; [discriminate|].
  destruct (Ascii.eqb c "-") eqn:Hc.
  - apply Ascii.eqb_eq in Hc. subst c. intros H.
    apply andb_prop in H as [Hcan Hnz].
    pose proof Hcan as Hcan'. unfold canonical_nat in Hcan'.
    destruct u' as [|d u'']; [discriminate|].
    apply andb_prop in Hcan' as [Hd Hl].
    assert (Hlead : lead_nonzero (String d u'') = true).
    { apply orb_prop in Hl as [Hl|Hone]; [exact Hl|].
      destruct u''; [|discriminate]. cbn [lead_nonzero].
      destruct (Ascii.eqb_spec d "0"); [subst d; discriminate | reflexivity]. }
    destruct (dec_digits_value _ Hd Hlead) as (H1 & _ & _).
    exists (- dec_value (String d u'') 0). split.
    + apply py_int_minus_digits; [assumption | discriminate].
    + unfold py_str. destruct (Z.ltb_spec (- dec_value (String d u'') 0) 0); [|lia].
      rewrite Z.opp_involutive. now rewrite str_nat_value.
  - intros Hcan. pose proof Hcan as Hcan'. unfold canonical_nat in Hcan'.
    apply andb_prop in Hcan' as [Hd _].
    exists (dec_value (String c u') 0). split.
    + apply py_int_digits; [assumption | discriminate].
    + unfold py_str.
      pose proof (dec_value_nonneg _ 0 Hd (Z.le_refl 0)).
      destruct (Z.ltb_spec (dec_value (String c u') 0) 0); [lia|].
      now apply str_nat_value.
Qed.

Lemma dec_digits_canonical (fuel : nat) :
  forall n acc, 0 < n -> (Z.to_nat (Z.log2 n) < fuel)%nat ->
  exists ds, dec_digits fuel n acc = (ds ++ acc)%string
             /\ all_digits ds = true /\ lead_nonzero ds = true.
Proof.
  induction fuel as [|f IH]; intros n acc Hn Hf; [lia|].
  cbn [dec_digits]. destruct (Z.ltb_spec n 10) as [Hlt|Hge].
  - exists (String (digit_char (n mod 10)) EmptyString).
    rewrite Z.mod_small by lia.
    destruct (digit_char_digit n) as [Hd Hv]; [lia|].
    split; [reflexivity | split].
    + cbn [all_digits]. now rewrite Hd.
    + cbn [lead_nonzero]. destruct (Ascii.eqb_spec (digit_char n) "0") as [E|E];
        [|reflexivity].
      rewrite E in Hv. vm_compute in Hv. lia.
  - assert (Hq : 0 < n / 10) by (apply Z.div_str_pos; lia).
    assert (Hlog : Z.log2 (n / 10) < Z.log2 n).
    { assert (H2 : 2 * (n / 10) <= n).
      { pose proof (Z.mul_div_le n 10 ltac:(lia)). lia. }
      apply Z.log2_le_mono in H2. rewrite Z.log2_double in H2 by assumption. lia. }
    pose proof (Z.log2_nonneg (n / 10)) as Hnn.
    destruct (IH (n / 10) (String (digit_char (n mod 10)) acc) Hq ltac:(lia))
      as (ds & -> & Hd & Hl).
    exists (ds ++ String (digit_char (n mod 10)) EmptyString)%string.
    destruct (digit_char_digit (n mod 10)) as [Hc _];
      [pose proof (Z.mod_pos_bound n 10 ltac:(lia)); lia|].
    split; [now rewrite append_assoc | split].
    + rewrite all_digits_app, Hd. cbn [all_digits]. now rewrite Hc.
    + rewrite lead_nonzero_app; [assumption|]. now destruct ds.
Qed.

(** [str] only produces canonical numerals. *)
Lemma py_str_canonical (z : Z) : canonical_decimal (py_str z) = true.
Proof.
  assert (Hpos : forall n, 0 < n ->
            exists ds, str_nat n = ds /\ all_digits ds = true /\ lead_nonzero ds = true).
  { intros n Hn. unfold str_nat.
    destruct (dec_digits_canonical (S (Z.to_nat (Z.log2 n))) n EmptyString Hn ltac:(lia))
      as (ds & E & Hd & Hl).
    exists ds. rewrite E, append_nil_r. auto. }
  unfold py_str. destruct (Z.ltb_spec z 0) as [Hneg|Hnn].
  - destruct (Hpos (- z) ltac:(lia)) as (ds & -> & Hd & Hl).
    cbn [canonical_decimal]. rewrite Ascii.eqb_refl.
    destruct ds as [|c ds]; [discriminate|].
    unfold canonical_nat. rewrite Hd, Hl. cbn [andb orb].
    destruct (String.eqb_spec (String c ds) "0") as [E|E]; [|reflexivity].
    rewrite E in Hl. discriminate.
  - destruct (Z.eq_dec z 0) as [->|Hz]; [reflexivity|].
    destruct (Hpos z ltac:(lia)) as (ds & -> & Hd & Hl).
    destruct ds as [|c ds]; [discriminate|].
    cbn [canonical_decimal]. cbn [all_digits] in Hd.
    pose proof Hd as Hd'. apply andb_prop in Hd' as [Hc _].
    destruct (digit_not_sign c Hc) as (_ & -> & _).
    unfold canonical_nat. cbn [all_digits]. now rewrite Hd, Hl.
Qed.

(** ** Interface references: parsing and the canonical form *)

Lemma new_interface_from_string_fields (name u rest : string) :
  no_dot name = true -> no_dot u = true ->
  rest = EmptyString \/ (exists r, rest = String dot r) ->
  Interface.new_interface_from_string (name ++ "." ++ u ++ rest)
  = match py_int u with
    | Some z => Ok (Interface.Build name z)
    | None => Raise ValueError
    end.
Proof.
  intros Hn Hu Hrest. unfold Interface.new_interface_from_string.
  change (name ++ "." ++ u ++ rest)%string with (name ++ String dot (u ++ rest))%string.
  rewrite (split_dot_app name _ Hn).
  assert (E : exists t, split_dot (u ++ rest) = u :: t).
  { destruct Hrest as [->|[r ->]].
    - rewrite append_nil_r, (split_dot_no_dot u Hu). now exists [].
    - rewrite (split_dot_app u r Hu). now eexists. }
  destruct E as [t ->]. cbn [nth_error bind].
  now destruct (py_int u).
Qed.

Lemma new_interface_from_string_ok (s : string) (i : Interface.t) :
  Interface.new_interface_from_string s = Ok i ->
  exists u rest,
    s = (Interface.interface_name i ++ "." ++ u ++ rest)%string
    /\ no_dot (Interface.interface_name i) = true /\ no_dot u = true
    /\ (rest = EmptyString \/ exists r, rest = String dot r)
    /\ py_int u = Some (Interface.unit i).
Proof.
  unfold Interface.new_interface_from_string.
  destruct (split_dot s) as [|p0 ps] eqn:Hs; [now destruct (split_dot_not_nil s)|].
  destruct (split_dot_head s p0 ps Hs) as (Hp0 & _ & Hcons).
  destruct ps as [|p1 ps']; [discriminate|]. cbn [nth_error bind].
  destruct (Hcons ltac:(discriminate)) as (s' & -> & Hs').
  destruct (split_dot_head s' p1 ps' Hs') as (Hp1 & Hnil & Hcons').
  destruct (py_int p1) as [z|] eqn:Hz; [|discriminate].
  intros [= <-]. cbn [Interface.interface_name Interface.unit].
  destruct ps' as [|p2 ps''].
  - exists p1, EmptyString. rewrite (Hnil eq_refl), append_nil_r. auto 6.
  - destruct (Hcons' ltac:(discriminate)) as (s'' & -> & _).
    exists p1, (String dot s''). repeat split; eauto.
Qed.

Lemma parse_one_separator (name u : string) :
  no_dot name = true -> no_dot u = true ->
  Interface.new_interface_from_string (name ++ "." ++ u)
  = match py_int u with
    | Some z => Ok (Interface.Build name z)
    | None => Raise ValueError
    end.
Proof.
  intros Hn Hu.
  rewrite <- (new_interface_from_string_fields name u EmptyString Hn Hu (or_introl eq_refl)).
  now rewrite append_nil_r.
Qed.

Lemma well_formed_split (s : string) :
  WellFormedRef s -> exists name u, split_dot s = [name; u].
Proof.
  intros (name & u & -> & Hn & Hu & _). exists name, u.
  change (name ++ "." ++ u)%string with (name ++ String dot u)%string.
  now rewrite (split_dot_app name u Hn), (split_dot_no_dot u Hu).
Qed.

(** C2, as stated, fails: ["irb0.007"] has one separator and a unit that
    [int] parses, and its parse serializes to ["irb0.7"]. *)
Lemma C2_counterexample :
  WellFormedRef "irb0.007"
  /\ ~ (exists i, Interface.new_interface_from_string "irb0.007" = Ok i
                  /\ Interface.config_rep i = "irb0.007").
Proof.
  split.
  - exists "irb0", "007". repeat split; discriminate.
  - intros (i & Hi & Hrep). vm_compute in Hi. injection Hi as <-.
    vm_compute in Hrep. discriminate.
Qed.

(** C2, amended: a reference string with one separator and a unit that
    [int] parses is parsed, and serializing the parse gives the string back
    exactly when the unit is written as a canonical decimal numeral (["0"],
    or a first digit other than zero, with a minus sign in front or not; no
    plus sign, leading zero, blank or underscore). *)
Theorem C2_round_trip (name u : string) (z : Z) :
  no_dot name = true -> no_dot u = true -> py_int u = Some z ->
  Interface.new_interface_from_string (name ++ "." ++ u)
  = Ok (Interface.Build name z)
  /\ (Interface.config_rep (Interface.Build name z) = (name ++ "." ++ u)%string
      <-> canonical_decimal u = true).
Proof.
  intros Hn Hu Hz. split.
  - now rewrite (parse_one_separator name u Hn Hu), Hz.
  - unfold Interface.config_rep. cbn [Interface.interface_name Interface.unit].
    split.
    + intros E. apply append_inv_head in E.
      change ("." ++ py_str z)%string with (String dot (py_str z)) in E.
      change ("." ++ u)%string with (String dot u) in E.
      injection E as <-. apply py_str_canonical.
    + intros Hcan. destruct (py_str_py_int_canonical u Hcan) as (z' & Hz' & Hs).
      rewrite Hz in Hz'. injection Hz' as <-. now rewrite Hs.
Qed.

Lemma C2_round_trip_witness :
  no_dot "irb0" = true /\ no_dot "100" = true /\ py_int "100" = Some 100
  /\ Interface.new_interface_from_string "irb0.100" = Ok (Interface.Build "irb0" 100)
  /\ (Interface.config_rep (Interface.Build "irb0" 100) = "irb0.100"
      <-> canonical_decimal "100" = true).
Proof.
  split; [reflexivity | split; [reflexivity | split; [reflexivity |]]].
  apply (C2_round_trip "irb0" "100" 100); reflexivity.
Defined.

(** C7, as stated, fails: ["irb0.1.2"] has two separators, so it is
    malformed, and the parser takes it (as interface [irb0], unit 1). *)
Lemma C7_counterexample :
  ~ (fails (Interface.new_interface_from_string "irb0.1.2")
     <-> ~ WellFormedRef "irb0.1.2").
Proof.
  intros [_ H].
  assert (Hbad : ~ WellFormedRef "irb0.1.2").
  { intros Hwf. destruct (well_formed_split _ Hwf) as (name & u & E).
    vm_compute in E. discriminate. }
  destruct (H Hbad) as [e He]. vm_compute in He. discriminate.
Qed.

(** C7, amended: parsing fails exactly when the string has no separator or
    the field after the first separator, up to the next separator or the end,
    is not an integer that [int] parses; what follows a second separator is
    ignored.  Hence a string with exactly one separator fails exactly when its
    unit does not parse, and ["irb0"] fails. *)
Theorem C7_parse_fails_iff :
  (forall s, fails (Interface.new_interface_from_string s) <-> ~ AcceptedRef s)
  /\ (forall s, WellFormedRef s -> ~ fails (Interface.new_interface_from_string s))
  /\ Interface.new_interface_from_string "irb0" = Raise IndexError.
Proof.
  assert (Hacc : forall s, AcceptedRef s ->
            ~ fails (Interface.new_interface_from_string s)).
  { intros s (name & u & rest & -> & Hn & Hu & Hrest & Hint) [e He].
    rewrite (new_interface_from_string_fields name u rest Hn Hu Hrest) in He.
    destruct (py_int u); [discriminate | contradiction]. }
  split; [|split].
  - intros s. split.
    + intros Hf Ha. exact (Hacc s Ha Hf).
    + intros Hna.
      destruct (Interface.new_interface_from_string s) as [i|e] eqn:E;
        [|now exists e].
      exfalso. apply Hna.
      destruct (new_interface_from_string_ok s i E) as (u & rest & -> & Hn & Hu & Hr & Hz).
      exists (Interface.interface_name i), u, rest.
      repeat split; try assumption. now rewrite Hz.
  - intros s (name & u & -> & Hn & Hu & Hint). apply Hacc.
    exists name, u, EmptyString. rewrite append_nil_r. auto 6.
  - reflexivity.
Qed.

(** ** Loops *)

Lemma bind_ok {A B : Type} (m : result A) (k : A -> result B) (b : B) :
  bind m k = Ok b -> exists a, m = Ok a /\ k a = Ok b.
Proof. destruct m as [a|e]; simpl; [eauto | discriminate]. Qed.

(** A loop that appends [g x] for every [x] builds a [flat_map]. *)
Lemma for_each_append {A B : Type} (xs : list A) (body : A -> list B -> result (list B))
  (g : A -> list B) (acc : list B) :
  (forall x acc', In x xs -> body x acc' = Ok (acc' ++ g x)) ->
  for_each xs body acc = Ok (acc ++ flat_map g xs).
Proof.
  revert acc. induction xs as [|x xs IH]; intros acc H.
  - cbn. now rewrite app_nil_r.
  - cbn [for_each flat_map]. rewrite (H x acc (or_introl eq_refl)). cbn [bind].
    rewrite IH by (intros y acc' Hy; apply H; now right).
    now rewrite app_assoc.
Qed.

(** ** Dicts *)

Lemma assoc_set_same {V : Type} (k : string) (v : V) (o : list (string * V)) :
  assoc k (assoc_set k v o) = Some v.
Proof.
  induction o as [|[k' v'] o IH]; cbn [assoc_set assoc].
  - now rewrite String.eqb_refl.
  - destruct (String.eqb k k') eqn:E; cbn [assoc]; rewrite E; [reflexivity | exact IH].
Qed.

Lemma assoc_set_other {V : Type} (k k' : string) (v : V) (o : list (string * V)) :
  k' <> k -> assoc k' (assoc_set k v o) = assoc k' o.
Proof.
  intros Hne. induction o as [|[k0 v0] o IH]; cbn [assoc_set assoc].
  - destruct (String.eqb_spec k' k); [contradiction | reflexivity].
  - destruct (String.eqb_spec k k0) as [->|Hk]; cbn [assoc].
    + destruct (String.eqb_spec k' k0); [contradiction | reflexivity].
    + now rewrite IH.
Qed.

Lemma assoc_set_keys {V : Type} (k : string) (v : V) (o : list (string * V)) :
  assoc k o <> None -> map fst (assoc_set k v o) = map fst o.
Proof.
  induction o as [|[k' v'] o IH]; cbn [assoc_set assoc map fst]; [congruence|].
  destruct (String.eqb k k') eqn:E; cbn [map fst]; [reflexivity|].
  intros H. now rewrite IH.
Qed.

(** Writing back the value a key already has changes nothing. *)
Lemma assoc_set_id {V : Type} (k : string) (v : V) (o : list (string * V)) :
  assoc k o = Some v -> assoc_set k v o = o.
Proof.
  induction o as [|[k' v'] o IH]; cbn [assoc_set assoc]; [discriminate|].
  destruct (String.eqb k k') eqn:E.
  - now intros [= ->].
  - intros H. now rewrite IH.
Qed.

Lemma assoc_set_twice {V : Type} (k : string) (v v' : V) (o : list (string * V)) :
  assoc_set k v' (assoc_set k v o) = assoc_set k v' o.
Proof.
  induction o as [|[k0 v0] o IH]; cbn [assoc_set].
  - now rewrite String.eqb_refl.
  - destruct (String.eqb k k0) eqn:E; cbn [assoc_set]; rewrite E; [reflexivity|].
    now rewrite IH.
Qed.

(** ** The network-instance filter *)

Lemma name_of_getitem (entry : json) (n : string) :
  name_of entry = Some n -> getitem entry "name" = Ok (JStr n).
Proof.
  unfold name_of. destruct (getitem entry "name") as [[]|]; try discriminate.
  now intros [= ->].
Qed.

(** The inner loop of [drop_nis] appends the entry once for every configured
    substring that its name contains. *)
Lemma drop_nis_inner (keep_nis : list string) (entry : json) (n : string)
  (acc : list json) :
  name_of entry = Some n ->
  for_each keep_nis (fun match_name_part result =>
      name <- getitem entry "name" ;;
      b <- py_contains name match_name_part ;;
      Ok (if b then result ++ [entry] else result)) acc
  = Ok (acc ++ repeat entry (count_matches keep_nis n)).
Proof.
  intros Hn. apply name_of_getitem in Hn. unfold count_matches. rewrite Hn.
  revert acc. induction keep_nis as [|m keep IH]; intros acc.
  - cbn. now rewrite app_nil_r.
  - cbn [for_each bind py_contains List.filter].
    destruct (str_contains m n); cbn [List.length repeat]; rewrite IH.
    + now rewrite <- app_assoc.
    + reflexivity.
Qed.

(** [drop_nis] on a document whose network instances are named records. *)
Lemma drop_nis_named (keep_nis : list string) (data : json) (entries : list json) :
  named_list data "network-instance" entries ->
  exists o, data = JObj o
    /\ drop_nis keep_nis data
       = Ok (JObj (assoc_set "network-instance"
                     (JArr (flat_map (fun e => repeat e (copies_kept keep_nis e)) entries))
                     o)).
Proof.
  intros [Hget Hall]. destruct data as [| | | | |o]; try discriminate.
  exists o. split; [reflexivity|].
  unfold drop_nis. rewrite Hget. cbn [bind iter].
  rewrite (for_each_append entries _
             (fun e => repeat e (copies_kept keep_nis e)) []).
  - reflexivity.
  - intros e acc He. rewrite Forall_forall in Hall. specialize (Hall e He).
    unfold copies_kept. destruct (name_of e) as [n|] eqn:Hn; [|contradiction].
    now apply drop_nis_inner.
Qed.

Lemma filter_length_pos {A : Type} (p : A -> bool) (l : list A) :
  (0 <? List.length (List.filter p l))%nat = existsb p l.
Proof.
  induction l as [|x l IH]; [reflexivity|]. cbn [List.filter existsb].
  destruct (p x); [reflexivity | exact IH].
Qed.

Lemma kept_copies (keep_nis : list string) (e : json) :
  kept keep_nis e = (0 <? copies_kept keep_nis e)%nat.
Proof.
  unfold kept, copies_kept, count_matches.
  destruct (name_of e); [now rewrite filter_length_pos | reflexivity].
Qed.

(** Appending every item [copies x] times, when no item is appended more than
    once, is filtering. *)
Lemma flat_map_repeat_filter {A : Type} (copies : A -> nat) (l : list A) :
  Forall (fun x => (copies x <= 1)%nat) l ->
  flat_map (fun x => repeat x (copies x)) l
  = List.filter (fun x => (0 <? copies x)%nat) l.
Proof.
  induction 1 as [|x l Hx _ IH]; [reflexivity|]. cbn [flat_map List.filter].
  rewrite IH. destruct (copies x) as [|[|k]]; [reflexivity | reflexivity | lia].
Qed.

Lemma in_flat_map_repeat {A : Type} (copies : A -> nat) (l : list A) (y : A) :
  In y (flat_map (fun x => repeat x (copies x)) l)
  <-> In y l /\ (0 < copies y)%nat.
Proof.
  rewrite in_flat_map. split.
  - intros (x & Hx & Hy). apply repeat_spec in Hy as E. subst y.
    split; [assumption|]. destruct (copies x); [contradiction | lia].
  - intros [Hy Hc]. exists y. split; [assumption|].
    destruct (copies y); [lia | now left].
Qed.

(** The part of C1 that holds on every document: an entry is in the result
    exactly when it is in the list and its name contains a configured
    substring, and an entry whose name contains one configured substring only
    is neither dropped nor repeated: the result is the list filtered. *)
Lemma drop_nis_filter (keep_nis : list string) (data : json) (entries : list json) :
  named_list data "network-instance" entries ->
  exists out kept_entries,
    drop_nis keep_nis data = Ok out
    /\ getitem out "network-instance" = Ok (JArr kept_entries)
    /\ (forall e, In e kept_entries <-> In e entries /\ kept keep_nis e = true)
    /\ (Forall (fun e => (copies_kept keep_nis e <= 1)%nat) entries ->
        kept_entries = List.filter (kept keep_nis) entries).
Proof.
  intros H. destruct (drop_nis_named keep_nis data entries H) as (o & -> & ->).
  eexists. eexists. split; [reflexivity|]. split.
  - cbn [getitem]. now rewrite assoc_set_same.
  - split.
    + intros e. rewrite in_flat_map_repeat, kept_copies.
      now rewrite Nat.ltb_lt.
    + intros Hone. rewrite (flat_map_repeat_filter _ _ Hone).
      apply filter_ext. intros e. now rewrite kept_copies.
Qed.

(** C1, the defect: both loops of [drop_nis] run to their end, so an entry
    whose name contains two configured substrings is appended twice.  Here
    on a document with the single network instance
    ["default-infrastructure"], under the substring list of either variant. *)
Theorem C1_drop_nis_duplicates :
  let entry := JObj [("name", JStr "default-infrastructure");
                     ("interface", JArr [])] in
  let data := fun nis => JObj [("network-instance", JArr nis);
                               ("interface", JArr []);
                               ("bfd", JObj [("subinterface", JArr [])])] in
  kept ConfigFilter.keep_nis entry = true
  /\ drop_nis ConfigFilter.keep_nis (data [entry]) = Ok (data [entry; entry])
  /\ drop_nis Main.keep_nis (data [entry]) = Ok (data [entry; entry])
  /\ List.filter (kept ConfigFilter.keep_nis) [entry] = [entry].
Proof. repeat split. Qed.

(** ** BFD pruning *)

Lemma remove_bfd_inner (irbs : list Interface.t) (entry id : json)
  (acc : list json) :
  getitem entry "id" = Ok id ->
  for_each irbs (fun irb matched =>
      id <- getitem entry "id" ;;
      Ok (if eq_str id (Interface.config_rep irb)
          then matched ++ [entry] else matched)) acc
  = Ok (acc ++ repeat entry (bfd_copies irbs entry)).
Proof.
  intros Hid. unfold bfd_copies. rewrite Hid.
  revert acc. induction irbs as [|irb irbs IH]; intros acc.
  - cbn. now rewrite app_nil_r.
  - cbn [for_each bind List.filter].
    destruct (eq_str id (Interface.config_rep irb)); cbn [List.length repeat];
      rewrite IH.
    + now rewrite <- app_assoc.
    + reflexivity.
Qed.

(** [remove_bfd_interfaces] on a document whose BFD bindings have ids. *)
Lemma remove_bfd_interfaces_listed (irbs : list Interface.t) (data : json)
  (b : dict) (entries : list json) :
  bfd_list data b entries ->
  exists o, data = JObj o
    /\ remove_bfd_interfaces irbs data
       = Ok (JObj (assoc_set "bfd"
               (JObj (assoc_set "subinterface"
                        (JArr (flat_map (fun e => repeat e (bfd_copies irbs e)) entries))
                        b))
               o)).
Proof.
  intros (Hbfd & Hsub & Hall). destruct data as [| | | | |o]; try discriminate.
  exists o. split; [reflexivity|].
  unfold remove_bfd_interfaces. rewrite Hbfd. cbn [bind getitem]. rewrite Hsub.
  cbn [bind iter setitem].
  rewrite (for_each_append entries _ (fun e => repeat e (bfd_copies irbs e)) []).
  - reflexivity.
  - intros e acc He. rewrite Forall_forall in Hall.
    destruct (Hall e He) as [id Hid]. now apply remove_bfd_inner with (id := id).
Qed.

Lemma bfd_in_use_copies (irbs : list Interface.t) (e : json) :
  bfd_in_use irbs e = (0 <? bfd_copies irbs e)%nat.
Proof.
  unfold bfd_in_use, bfd_copies.
  destruct (getitem e "id"); [now rewrite filter_length_pos | reflexivity].
Qed.

Lemma filter_subseq {A : Type} (p : A -> bool) (l : list A) :
  subseq (List.filter p l) l.
Proof.
  induction l as [|x l IH]; cbn [List.filter]; [constructor|].
  destruct (p x); now constructor.
Qed.

(** The part of C3 that holds for every reference list: a binding is in the
    result exactly when its id is the canonical form of a reference.  When no
    two references share a canonical form with a binding's id, the result is
    the list filtered, hence a subsequence of it. *)
Lemma remove_bfd_interfaces_filter (irbs : list Interface.t) (data : json)
  (b : dict) (entries : list json) :
  bfd_list data b entries ->
  exists out b' matched,
    remove_bfd_interfaces irbs data = Ok out
    /\ getitem out "bfd" = Ok (JObj b')
    /\ assoc "subinterface" b' = Some (JArr matched)
    /\ (forall e, In e matched <-> In e entries /\ bfd_in_use irbs e = true)
    /\ (Forall (fun e => (bfd_copies irbs e <= 1)%nat) entries ->
        matched = List.filter (bfd_in_use irbs) entries /\ subseq matched entries).
Proof.
  intros H.
  destruct (remove_bfd_interfaces_listed irbs data b entries H) as (o & -> & ->).
  eexists. eexists. eexists. split; [reflexivity|]. split.
  - cbn [getitem]. now rewrite assoc_set_same.
  - split; [apply assoc_set_same | split].
    + intros e. rewrite in_flat_map_repeat, bfd_in_use_copies.
      now rewrite Nat.ltb_lt.
    + intros Hone. rewrite (flat_map_repeat_filter _ _ Hone).
      assert (E : List.filter (fun x => (0 <? bfd_copies irbs x)%nat) entries
                  = List.filter (bfd_in_use irbs) entries).
      { apply filter_ext. intros e. now rewrite bfd_in_use_copies. }
      rewrite E. split; [reflexivity | apply filter_subseq].
Qed.

Lemma subseq_length {A : Type} (l1 l2 : list A) :
  subseq l1 l2 -> (List.length l1 <= List.length l2)%nat.
Proof. induction 1; cbn [List.length]; lia. Qed.

(** C3, the defect: both loops of [remove_bfd_interfaces] run to their end,
    so a binding is appended once for every reference with its canonical
    form.  Two references with one canonical form give the binding twice: the
    result is not a subsequence of the original list.  Such a reference list
    comes out of the deduction when two network-instance interface names
    parse to the same reference, as ["irb0.100"] and ["irb0.0100"] do. *)
Theorem C3_remove_bfd_duplicates :
  let irb := Interface.Build "irb0" 100 in
  let entry := JObj [("id", JStr "irb0.100")] in
  let data := fun l => JObj [("bfd", JObj [("subinterface", JArr l)])] in
  remove_bfd_interfaces [irb; irb] (data [entry]) = Ok (data [entry; entry])
  /\ ~ subseq [entry; entry] [entry]
  /\ Interface.new_interface_from_string "irb0.100" = Ok irb
  /\ Interface.new_interface_from_string "irb0.0100" = Ok irb.
Proof.
  cbv zeta. split; [reflexivity | split; [|split; reflexivity]].
  intros H. apply subseq_length in H. cbn in H. lia.
Qed.

(** ** The emitter *)

Lemma read_write_file (path content : string) (fs : list (string * string)) :
  read_file path (write_file path content fs) = Some content.
Proof.
  induction fs as [|[p c] fs IH]; cbn [write_file read_file].
  - now rewrite String.eqb_refl.
  - destruct (String.eqb path p) eqn:E; cbn [read_file]; rewrite E; [reflexivity | exact IH].
Qed.

(** C5, the defect: [finish] of [src/main.py] opens the destination with the
    mode ["rw"], which [open] refuses with a [ValueError] before it touches
    the file, whatever the document and the path.  [finish] of
    [src/nokia/paco/config_filter.py] opens it with ["w+"] and leaves the
    serialized document as the content of the file. *)
Theorem C5_finish_main_raises (json_dumps : json -> string) (data : json)
  (path : string) (w : world) :
  Main.finish json_dumps data (Some path) w = Raise ValueError
  /\ exists w', ConfigFilter.finish json_dumps data (Some path) w = Ok w'
                /\ read_file path (files w') = Some (json_dumps data)
                /\ stdout w' = stdout w.
Proof.
  split; [reflexivity|].
  eexists. split; [reflexivity|]. split; [apply read_write_file | reflexivity].
Qed.

(** ** Interface records *)

Lemma iface_record_dict (entry : json) :
  iface_record entry -> exists o, entry = JObj o.
Proof.
  intros [Hn _]. unfold name_of, getitem in Hn.
  destruct entry; try contradiction. now eexists.
Qed.

Lemma matching_subinterfaces_filter (entry : json) (n : Z) (acc : list json) :
  iface_record entry ->
  matching_subinterfaces entry n acc
  = Ok (acc ++ List.filter (index_matches n) (subifs_of entry)).
Proof.
  intros (_ & l & Hl & Hall). unfold matching_subinterfaces, subifs_of.
  rewrite Hl. cbn [bind iter].
  rewrite (for_each_append l _ (fun s => if index_matches n s then [s] else []) acc).
  - f_equal. f_equal. clear. induction l as [|s l IH]; [reflexivity|].
    cbn [flat_map List.filter]. rewrite IH. now destruct (index_matches n s).
  - intros s acc' Hs. rewrite Forall_forall in Hall. destruct (Hall s Hs) as [idx Hidx].
    unfold index_matches. rewrite Hidx. cbn [bind].
    destruct (eq_int idx n); [reflexivity | now rewrite app_nil_r].
Qed.

(** ** Strict interface pruning *)

Lemma strict_inner (irb : Interface.t) (entries : list json) (acc : list json) :
  Forall iface_record entries ->
  for_each entries (fun entry result =>
      name <- getitem entry "name" ;;
      if eq_str name (Interface.interface_name irb) then
        interf <- fresh_record entry ;;
        subs <- matching_subinterfaces entry (Interface.unit irb) [] ;;
        interf' <- setitem interf "subinterface" (JArr subs) ;;
        Ok (result ++ [interf'])
      else Ok result) acc
  = Ok (acc ++ strict_records entries irb).
Proof.
  intros Hall. unfold strict_records.
  rewrite (for_each_append entries _
             (fun e => if named irb e
                       then [with_subinterfaces e
                               (List.filter (index_matches (Interface.unit irb)) (subifs_of e))]
                       else []) acc).
  - f_equal. f_equal. clear. induction entries as [|e l IH]; [reflexivity|].
    cbn [flat_map List.filter]. rewrite IH. now destruct (named irb e).
  - intros e acc' He. rewrite Forall_forall in Hall. pose proof (Hall e He) as Hrec.
    destruct (iface_record_dict e Hrec) as [o ->].
    destruct Hrec as [Hn Hsubs]. unfold named.
    destruct (name_of (JObj o)) as [n|] eqn:En; [|contradiction].
    rewrite (name_of_getitem _ _ En). cbn [bind eq_str].
    destruct (String.eqb n (Interface.interface_name irb)); [|now rewrite app_nil_r].
    rewrite matching_subinterfaces_filter by (split; [congruence | exact Hsubs]).
    cbn [fresh_record setitem bind with_subinterfaces app].
    now rewrite assoc_set_twice.
Qed.

(** C9: in strict mode the output interface list is, for each in-use
    reference in the order of the reference list, the copies of the original
    records that carry the reference's name, those in document order, each
    with the subinterfaces whose index is the reference's unit and no other. *)
Theorem C9_strict_order (irbs : list Interface.t) (data : json)
  (entries : list json) :
  iface_list data entries ->
  exists out,
    Main.remove_interfaces irbs data = Ok out
    /\ getitem out "interface" = Ok (JArr (flat_map (strict_records entries) irbs)).
Proof.
  intros [Hget Hall]. destruct data as [| | | | |o]; try discriminate.
  unfold Main.remove_interfaces.
  rewrite (for_each_append irbs _ (strict_records entries) []).
  - cbn [bind setitem app]. eexists. split; [reflexivity|].
    cbn [getitem]. now rewrite assoc_set_same.
  - intros irb acc _. rewrite Hget. cbn [bind iter]. now apply strict_inner.
Qed.

Lemma C9_strict_order_witness :
  let sub := fun i => JObj [("index", JInt i)] in
  let rec := fun n l => JObj [("name", JStr n); ("subinterface", JArr l)] in
  let entries := [rec "lo0" [sub 0]; rec "irb0" [sub 1; sub 2]] in
  let data := JObj [("interface", JArr entries)] in
  let irbs := [Interface.Build "irb0" 2; Interface.Build "lo0" 0;
               Interface.Build "irb0" 1] in
  iface_list data entries
  /\ exists out,
       Main.remove_interfaces irbs data = Ok out
       /\ getitem out "interface"
          = Ok (JArr [rec "irb0" [sub 2]; rec "lo0" [sub 0]; rec "irb0" [sub 1]]).
Proof.
  cbv zeta.
  assert (H : iface_list
                (JObj [("interface",
                        JArr [JObj [("name", JStr "lo0");
                                    ("subinterface", JArr [JObj [("index", JInt 0)]])];
                              JObj [("name", JStr "irb0");
                                    ("subinterface",
                                     JArr [JObj [("index", JInt 1)];
                                           JObj [("index", JInt 2)]])]])])
                [JObj [("name", JStr "lo0");
                       ("subinterface", JArr [JObj [("index", JInt 0)]])];
                 JObj [("name", JStr "irb0");
                       ("subinterface",
                        JArr [JObj [("index", JInt 1)]; JObj [("index", JInt 2)]])]]).
  { split; [reflexivity|].
    repeat constructor; try discriminate;
      eexists; (split; [reflexivity|]); repeat constructor; eexists; reflexivity. }
  split; [exact H|].
  exact (C9_strict_order
           [Interface.Build "irb0" 2; Interface.Build "lo0" 0; Interface.Build "irb0" 1]
           _ _ H).
Defined.

(** ** The consolidating loop and its typed view *)

Lemma for_each_simulates {A S T : Type} (to : T -> S) (Inv : T -> Prop)
  (xs : list A) (body : A -> S -> result S) (f : T -> A -> T) (st : T) :
  (forall x t, In x xs -> Inv t -> body x (to t) = Ok (to (f t x)) /\ Inv (f t x)) ->
  Inv st ->
  for_each xs body (to st) = Ok (to (fold_left f xs st)) /\ Inv (fold_left f xs st).
Proof.
  revert st. induction xs as [|x xs IH]; intros st Hstep Hst; [now split|].
  cbn [for_each fold_left].
  destruct (Hstep x st (or_introl eq_refl) Hst) as [-> Hnext]. cbn [bind].
  apply IH; [|assumption]. intros y t Hy. apply Hstep. now right.
Qed.

Lemma assoc_map {V W : Type} (g : V -> W) (k : string) (a : list (string * V)) :
  assoc k (map (fun kv => (fst kv, g (snd kv))) a) = option_map g (assoc k a).
Proof.
  induction a as [|[k' v] a IH]; cbn [map assoc fst snd]; [reflexivity|].
  now destruct (String.eqb k k').
Qed.

Lemma assoc_set_map {V W : Type} (g : V -> W) (k : string) (v : V)
  (a : list (string * V)) :
  map (fun kv => (fst kv, g (snd kv))) (assoc_set k v a)
  = assoc_set k (g v) (map (fun kv => (fst kv, g (snd kv))) a).
Proof.
  induction a as [|[k' v'] a IH]; cbn [map assoc_set fst snd]; [reflexivity|].
  destruct (String.eqb k k'); cbn [map fst snd]; [reflexivity | now rewrite IH].
Qed.

Lemma has_key_set {V : Type} (k k' : string) (v : V) (a : list (string * V)) :
  has_key k' (assoc_set k v a) = String.eqb k' k || has_key k' a.
Proof.
  unfold has_key. destruct (String.eqb_spec k' k) as [->|Hne].
  - now rewrite assoc_set_same.
  - now rewrite assoc_set_other.
Qed.

Lemma assoc_set_not_nil {V : Type} (k : string) (v : V) (a : list (string * V)) :
  assoc_set k v a <> [].
Proof. destruct a as [|[k' v'] a]; cbn [assoc_set]; [|destruct (String.eqb k k')]; discriminate. Qed.

Lemma view_bind_ok (n : string) (e : json) (st : view) :
  (exists o, e = JObj o) -> view_ok st -> view_ok (view_bind n e st).
Proof.
  intros He [Hd Hi]. split; cbn [view_bind fst snd].
  - intros k v. destruct (String.eqb_spec k n) as [->|Hne].
    + rewrite assoc_set_same. now intros [= <-].
    + rewrite assoc_set_other by assumption. apply Hd.
  - intros _. exists n. split; [reflexivity|].
    now rewrite has_key_set, String.eqb_refl.
Qed.

Lemma bind_fresh_view (n : string) (e : json) (st : view) :
  (exists o, e = JObj o) ->
  ConfigFilter.bind_fresh e (JStr n) (rep st) = Ok (rep (view_bind n e st)).
Proof.
  intros [o ->]. unfold ConfigFilter.bind_fresh, rep, view_bind, concrete.
  cbn [fresh_record setitem bind fst snd]. now rewrite assoc_set_map.
Qed.

Lemma view_append_ok (s : json) (st : view) : view_ok st -> view_ok (view_append s st).
Proof.
  intros H. unfold view_append.
  destruct (snd st) as [k|] eqn:Hk; [|exact H].
  destruct (assoc k (fst st)) as [[e l]|] eqn:Ha; [|exact H].
  destruct H as [Hd Hi]. split; cbn [fst snd].
  - intros k' v. destruct (String.eqb_spec k' k) as [->|Hne].
    + rewrite assoc_set_same. intros [= <-]. exact (Hd k (e, l) Ha).
    + rewrite assoc_set_other by assumption. apply Hd.
  - intros _. exists k. split; [reflexivity|].
    now rewrite has_key_set, String.eqb_refl.
Qed.

Lemma append_subinterface_view (s : json) (st : view) :
  view_ok st -> fst st <> [] ->
  ConfigFilter.append_subinterface s (rep st) = Ok (rep (view_append s st)).
Proof.
  intros [Hd Hi] Hne. destruct (Hi Hne) as (k & Hk & Hkey).
  unfold ConfigFilter.append_subinterface, view_append, rep. cbn [fst snd].
  rewrite Hk. unfold concrete at 1. rewrite assoc_map.
  unfold has_key in Hkey. destruct (assoc k (fst st)) as [[e l]|] eqn:Ha; [|discriminate].
  destruct (Hd k (e, l) Ha) as [o Ho]. cbn [fst] in Ho. subst e.
  cbn [option_map concrete_record with_subinterfaces fst snd getitem].
  rewrite assoc_set_same. cbn [bind setitem]. rewrite assoc_set_twice.
  unfold concrete. now rewrite assoc_set_map.
Qed.

Lemma view_append_keeps_keys (s : json) (st : view) :
  fst st <> [] -> fst (view_append s st) <> [].
Proof.
  unfold view_append. destruct (snd st); [|auto].
  destruct (assoc s0 (fst st)) as [[e l]|]; [|auto].
  intros _. apply assoc_set_not_nil.
Qed.

(** The loop over the subinterfaces of a record, for one reference. *)
Lemma subif_loop_view (u : Z) (l : list json) (st : view) :
  Forall (fun s => exists idx, getitem s "index" = Ok idx) l ->
  view_ok st -> fst st <> [] ->
  for_each l (fun subif st =>
      idx <- getitem subif "index" ;;
      if eq_int idx u then ConfigFilter.append_subinterface subif st else Ok st)
    (rep st)
  = Ok (rep (fold_left (view_subifs u) l st))
  /\ view_ok (fold_left (view_subifs u) l st)
  /\ fst (fold_left (view_subifs u) l st) <> [].
Proof.
  intros Hall Hok Hne.
  pose proof (for_each_simulates rep (fun t => view_ok t /\ fst t <> []) l
                (fun subif st =>
                   idx <- getitem subif "index" ;;
                   if eq_int idx u then ConfigFilter.append_subinterface subif st
                   else Ok st)
                (view_subifs u) st) as H.
  destruct H as (E & Hok' & Hne'); [|now split|now split].
  intros s t Hs [Ht Htne]. rewrite Forall_forall in Hall.
  destruct (Hall s Hs) as [idx Hidx]. unfold view_subifs, index_matches.
  rewrite Hidx. cbn [bind]. destruct (eq_int idx u).
  - rewrite append_subinterface_view by assumption.
    split; [reflexivity | split; [now apply view_append_ok | now apply view_append_keeps_keys]].
  - now split.
Qed.

Lemma has_key_not_nil {V : Type} (n : string) (a : list (string * V)) :
  has_key n a = true -> a <> [].
Proof. now destruct a. Qed.

Lemma not_in_result_view (n : string) (st : view) :
  ConfigFilter.not_in_result (JStr n) (rep st) = Ok (negb (has_key n (fst st))).
Proof.
  unfold ConfigFilter.not_in_result, rep, concrete, has_key. cbn [fst].
  rewrite assoc_map. now destruct (assoc n (fst st)).
Qed.

(** The body of the loop over the references, for one record. *)
Lemma reference_view (e : json) (n : string) (irb : Interface.t) (st : view) :
  iface_record e -> name_of e = Some n -> view_ok st ->
  (name <- getitem e "name" ;;
   if eq_str name (Interface.interface_name irb) then
     absent <- ConfigFilter.not_in_result name (rep st) ;;
     st' <- (if absent then ConfigFilter.bind_fresh e name (rep st) else Ok (rep st)) ;;
     subs <- getitem e "subinterface" ;;
     l <- iter subs ;;
     for_each l (fun subif st =>
         idx <- getitem subif "index" ;;
         if eq_int idx (Interface.unit irb)
         then ConfigFilter.append_subinterface subif st else Ok st) st'
   else Ok (rep st))
  = Ok (rep (view_reference e n st irb))
  /\ view_ok (view_reference e n st irb).
Proof.
  intros Hrec Hn Hok. pose proof (iface_record_dict e Hrec) as Hdict.
  destruct Hrec as (_ & l & Hl & Hall).
  rewrite (name_of_getitem e n Hn). cbn [bind eq_str]. unfold view_reference.
  destruct (String.eqb n (Interface.interface_name irb)); [|now split].
  rewrite not_in_result_view.
  unfold subifs_of. rewrite Hl.
  destruct (has_key n (fst st)) eqn:Hkey; cbn [bind negb].
  - cbn [iter].
    destruct (subif_loop_view (Interface.unit irb) l st Hall Hok
                (has_key_not_nil n _ Hkey)) as (E & Hok' & _).
    now split.
  - rewrite (bind_fresh_view n e st Hdict). cbn [bind iter].
    destruct (subif_loop_view (Interface.unit irb) l (view_bind n e st) Hall
                (view_bind_ok n e st Hdict Hok) (assoc_set_not_nil _ _ _))
      as (E & Hok' & _).
    now split.
Qed.

(** One turn of the outer loop: [scan_entry] on a record. *)
Lemma scan_entry_view (irbs : list Interface.t) (e : json) (st : view) :
  iface_record e -> view_ok st ->
  ConfigFilter.scan_entry irbs e (rep st) = Ok (rep (view_scan irbs st e))
  /\ view_ok (view_scan irbs st e).
Proof.
  intros Hrec Hok. pose proof (iface_record_dict e Hrec) as Hdict.
  unfold ConfigFilter.scan_entry, view_scan.
  destruct (name_of e) as [n|] eqn:Hn; [|now destruct Hrec].
  rewrite (name_of_getitem e n Hn). cbn [bind py_contains].
  assert (H1 : (if str_contains "ethernet" n
                then ConfigFilter.bind_fresh e (JStr n) (rep st) else Ok (rep st))
               = Ok (rep (if str_contains "ethernet" n then view_bind n e st else st))
               /\ view_ok (if str_contains "ethernet" n then view_bind n e st else st)).
  { destruct (str_contains "ethernet" n); [|now split].
    split; [now apply bind_fresh_view | now apply view_bind_ok]. }
  destruct H1 as [-> Hok1]. cbn [bind].
  apply (for_each_simulates rep view_ok irbs _ (view_reference e n)); [|assumption].
  intros irb t _ Ht.
  pose proof (reference_view e n irb t Hrec Hn Ht) as H.
  rewrite (name_of_getitem e n Hn) in H. exact H.
Qed.

Lemma view_ok_empty : view_ok ([], None).
Proof. split; [discriminate | now intros []]. Qed.

(** The consolidating pruner computes what its typed view computes. *)
Lemma remove_interfaces_view (irbs : list Interface.t) (data : json)
  (entries : list json) :
  iface_list data entries ->
  exists o, data = JObj o
    /\ ConfigFilter.remove_interfaces irbs data
       = Ok (JObj (assoc_set "interface"
                     (JArr (map snd (concrete (fst (view_loop irbs entries)))))
                     o))
    /\ view_ok (view_loop irbs entries).
Proof.
  intros [Hget Hall]. destruct data as [| | | | |o]; try discriminate.
  exists o. split; [reflexivity|].
  unfold ConfigFilter.remove_interfaces. rewrite Hget. cbn [bind iter].
  destruct (for_each_simulates rep view_ok entries (ConfigFilter.scan_entry irbs)
              (view_scan irbs) ([], None)) as [E Hok].
  - intros e t He Ht. rewrite Forall_forall in Hall.
    now apply scan_entry_view; [apply Hall|].
  - exact view_ok_empty.
  - change (@nil (string * json), @None string) with (rep ([], None)).
    rewrite E. cbn [bind setitem rep fst]. now split.
Qed.

(** ** The consolidating loop on records with distinct names *)

Lemma assoc_app_absent {V : Type} (k : string) (v : V) (a : list (string * V)) :
  has_key k a = false -> assoc k (a ++ [(k, v)]) = Some v.
Proof.
  unfold has_key. induction a as [|[k' v'] a IH]; cbn [app assoc].
  - now rewrite String.eqb_refl.
  - destruct (String.eqb k k'); [discriminate | exact IH].
Qed.

Lemma assoc_set_absent {V : Type} (k : string) (v : V) (a : list (string * V)) :
  has_key k a = false -> assoc_set k v a = a ++ [(k, v)].
Proof.
  unfold has_key. induction a as [|[k' v'] a IH]; cbn [app assoc assoc_set]; [reflexivity|].
  destruct (String.eqb k k'); [discriminate|]. intros H. now rewrite IH.
Qed.

Lemma assoc_set_last {V : Type} (k : string) (v v' : V) (a : list (string * V)) :
  has_key k a = false -> assoc_set k v' (a ++ [(k, v)]) = a ++ [(k, v')].
Proof.
  unfold has_key. induction a as [|[k' v0] a IH]; cbn [app assoc assoc_set].
  - now rewrite String.eqb_refl.
  - destruct (String.eqb k k'); [discriminate|]. intros H. now rewrite IH.
Qed.

Lemma named_eqb (irb : Interface.t) (e : json) (n : string) :
  name_of e = Some n -> named irb e = String.eqb n (Interface.interface_name irb).
Proof. unfold named. now intros ->. Qed.

(** Once the record of [e] is the last of [result] and [interf] is bound to
    it, the subinterface loop appends to it. *)
Lemma view_subifs_bound (u : Z) (n : string) (e : json)
  (a : list (string * trimmed)) (subs l : list json) :
  has_key n a = false ->
  fold_left (view_subifs u) subs (a ++ [(n, (e, l))], Some n)
  = (a ++ [(n, (e, l ++ List.filter (index_matches u) subs))], Some n).
Proof.
  intros Hn. revert l. induction subs as [|s subs IH]; intros l.
  - cbn. now rewrite app_nil_r.
  - cbn [fold_left List.filter]. unfold view_subifs at 2.
    destruct (index_matches u s).
    + unfold view_append. cbn [fst snd].
      rewrite assoc_app_absent, assoc_set_last, IH by assumption.
      now rewrite <- app_assoc.
    + apply IH.
Qed.

Lemma view_reference_bound (irbs : list Interface.t) (n : string) (e : json)
  (a : list (string * trimmed)) (l : list json) :
  name_of e = Some n -> has_key n a = false ->
  fold_left (view_reference e n) irbs (a ++ [(n, (e, l))], Some n)
  = (a ++ [(n, (e, l ++ selected_subifs irbs e))], Some n).
Proof.
  intros He Hn. revert l. induction irbs as [|irb irbs IH]; intros l.
  - cbn. now rewrite app_nil_r.
  - cbn [fold_left selected_subifs flat_map]. unfold view_reference at 2.
    rewrite (named_eqb irb e n He).
    destruct (String.eqb n (Interface.interface_name irb)).
    + cbn [fst]. unfold has_key at 1. rewrite assoc_app_absent by assumption.
      rewrite view_subifs_bound by assumption. rewrite IH.
      now rewrite <- app_assoc.
    + rewrite IH. reflexivity.
Qed.

Lemma view_reference_unbound (irbs : list Interface.t) (n : string) (e : json)
  (st : view) :
  name_of e = Some n -> has_key n (fst st) = false ->
  fold_left (view_reference e n) irbs st
  = if existsb (fun irb => String.eqb n (Interface.interface_name irb)) irbs
    then (fst st ++ [(n, (e, selected_subifs irbs e))], Some n)
    else st.
Proof.
  intros He Hn. induction irbs as [|irb irbs IH]; [reflexivity|].
  cbn [fold_left existsb selected_subifs flat_map]. unfold view_reference at 2.
  rewrite (named_eqb irb e n He).
  destruct (String.eqb n (Interface.interface_name irb)); cbn [orb].
  - rewrite Hn. unfold view_bind. rewrite assoc_set_absent by assumption.
    rewrite view_subifs_bound by assumption.
    now rewrite view_reference_bound by assumption.
  - exact IH.
Qed.

(** Scanning a record whose name is not yet a key of [result]. *)
Lemma view_scan_fresh (irbs : list Interface.t) (e : json) (n : string) (st : view) :
  name_of e = Some n -> has_key n (fst st) = false ->
  fst (view_scan irbs st e)
  = if retained irbs e then fst st ++ [(n, (e, selected_subifs irbs e))] else fst st.
Proof.
  intros He Hn. unfold view_scan, retained. rewrite He.
  destruct (str_contains "ethernet" n); cbn [orb].
  - unfold view_bind. rewrite assoc_set_absent by assumption.
    now rewrite view_reference_bound by assumption.
  - rewrite view_reference_unbound by assumption.
    now destruct (existsb _ irbs).
Qed.

Lemma has_key_app {V : Type} (k : string) (a b : list (string * V)) :
  has_key k (a ++ b) = has_key k a || has_key k b.
Proof.
  unfold has_key. induction a as [|[k' v] a IH]; cbn [app assoc]; [reflexivity|].
  destruct (String.eqb k k'); [reflexivity | exact IH].
Qed.

Lemma view_loop_distinct_from (irbs : list Interface.t) (entries : list json)
  (st : view) :
  Forall (fun e => name_of e <> None) entries ->
  NoDup (names_of entries) ->
  (forall n, In n (names_of entries) -> has_key n (fst st) = false) ->
  fst (fold_left (view_scan irbs) entries st)
  = fst st ++ flat_map (consolidated irbs) entries.
Proof.
  revert st. induction entries as [|e entries IH]; intros st Hall Hnd Hfresh.
  - cbn. now rewrite app_nil_r.
  - inversion Hall as [|? ? He Hall']; subst.
    destruct (name_of e) as [n|] eqn:Hn; [|contradiction].
    cbn [names_of flat_map] in Hnd, Hfresh. rewrite Hn in Hnd, Hfresh.
    cbn [app] in Hnd, Hfresh. inversion Hnd as [|? ? Hnotin Hnd']; subst.
    cbn [fold_left flat_map]. rewrite IH; [| assumption | assumption |].
    + rewrite (view_scan_fresh irbs e n st Hn (Hfresh n (or_introl eq_refl))).
      unfold consolidated at 2. rewrite Hn.
      destruct (retained irbs e); [now rewrite <- app_assoc | reflexivity].
    + intros m Hm.
      rewrite (view_scan_fresh irbs e n st Hn (Hfresh n (or_introl eq_refl))).
      assert (Hst : has_key m (fst st) = false) by (apply Hfresh; now right).
      destruct (retained irbs e); [|exact Hst].
      rewrite has_key_app, Hst. unfold has_key. cbn [assoc orb].
      destruct (String.eqb_spec m n) as [->|_]; [contradiction | reflexivity].
Qed.

(** On records with distinct names the loop keeps the retained records in
    document order, each with the subinterfaces its references select. *)
Lemma view_loop_distinct (irbs : list Interface.t) (entries : list json) :
  Forall iface_record entries ->
  NoDup (names_of entries) ->
  map snd (concrete (fst (view_loop irbs entries)))
  = map (fun e => with_subinterfaces e (selected_subifs irbs e))
        (List.filter (retained irbs) entries).
Proof.
  intros Hall Hnd. unfold view_loop.
  rewrite view_loop_distinct_from; [| | assumption | reflexivity].
  - cbn [fst app]. clear Hnd. induction Hall as [|e l He _ IH]; [reflexivity|].
    cbn [flat_map List.filter]. unfold concrete in *. rewrite map_app, map_app, IH.
    unfold consolidated. destruct He as [Hn _].
    destruct (name_of e) as [n|]; [|contradiction].
    now destruct (retained irbs e).
  - eapply Forall_impl; [|exact Hall]. now intros e [Hn _].
Qed.

Lemma name_of_with_subinterfaces (e : json) (l : list json) :
  name_of (with_subinterfaces e l) = name_of e.
Proof.
  destruct e as [| | | | |o]; try reflexivity.
  unfold name_of, with_subinterfaces, getitem.
  now rewrite assoc_set_other by discriminate.
Qed.

Lemma subifs_of_with_subinterfaces (e : json) (l : list json) :
  (exists o, e = JObj o) -> subifs_of (with_subinterfaces e l) = l.
Proof.
  intros [o ->]. unfold subifs_of, with_subinterfaces, getitem.
  now rewrite assoc_set_same.
Qed.

(** Every key but [subinterface] reads the same in the copy. *)
Lemma getitem_with_subinterfaces (e : json) (l : list json) (k : string) :
  k <> "subinterface" -> getitem (with_subinterfaces e l) k = getitem e k.
Proof.
  intros Hk. destruct e as [| | | | |o]; try reflexivity.
  unfold with_subinterfaces, getitem. now rewrite assoc_set_other.
Qed.

Lemma in_selected_subifs (irbs : list Interface.t) (e s : json) :
  In s (selected_subifs irbs e)
  <-> exists irb, In irb irbs /\ named irb e = true
                  /\ In s (subifs_of e)
                  /\ index_matches (Interface.unit irb) s = true.
Proof.
  unfold selected_subifs. rewrite in_flat_map. split.
  - intros (irb & Hirb & Hs). exists irb. destruct (named irb e); [|contradiction].
    apply filter_In in Hs. tauto.
  - intros (irb & Hirb & Hnamed & Hs & Hidx). exists irb. rewrite Hnamed.
    split; [assumption|]. apply filter_In. tauto.
Qed.

(** The consolidating pruner on records with distinct names. *)
Lemma remove_interfaces_distinct (irbs : list Interface.t) (data : json)
  (entries : list json) :
  iface_list data entries -> NoDup (names_of entries) ->
  exists o, data = JObj o
    /\ ConfigFilter.remove_interfaces irbs data
       = Ok (JObj (assoc_set "interface"
               (JArr (map (fun e => with_subinterfaces e (selected_subifs irbs e))
                          (List.filter (retained irbs) entries)))
               o)).
Proof.
  intros H Hnd. destruct (remove_interfaces_view irbs data entries H) as (o & -> & -> & _).
  exists o. split; [reflexivity|].
  now rewrite (view_loop_distinct irbs entries (proj2 H) Hnd).
Qed.

(** C10: in consolidating mode, when the interface records of the document
    have pairwise distinct names, every subinterface of an output record is a
    subinterface of the original record with the same name, and its index is
    the unit of an in-use reference that names this interface. *)
Theorem C10_consolidating_provenance (irbs : list Interface.t) (data : json)
  (entries : list json) :
  iface_list data entries -> NoDup (names_of entries) ->
  exists out records,
    ConfigFilter.remove_interfaces irbs data = Ok out
    /\ getitem out "interface" = Ok (JArr records)
    /\ forall r s, In r records -> In s (subifs_of r) ->
         exists e irb,
           In e entries /\ name_of e = name_of r /\ In s (subifs_of e)
           /\ In irb irbs
           /\ name_of r = Some (Interface.interface_name irb)
           /\ index_matches (Interface.unit irb) s = true.
Proof.
  intros H Hnd.
  destruct (remove_interfaces_distinct irbs data entries H Hnd) as (o & -> & ->).
  eexists. eexists. split; [reflexivity|]. split.
  - cbn [getitem]. now rewrite assoc_set_same.
  - intros r s Hr Hs. apply in_map_iff in Hr as (e & <- & He).
    apply filter_In in He as [He _]. destruct H as [_ Hall].
    rewrite Forall_forall in Hall. pose proof (Hall e He) as Hrec.
    rewrite subifs_of_with_subinterfaces in Hs by now apply iface_record_dict.
    apply in_selected_subifs in Hs as (irb & Hirb & Hnamed & Hsub & Hidx).
    exists e, irb. rewrite name_of_with_subinterfaces.
    repeat split; try assumption.
    unfold named in Hnamed. destruct (name_of e) as [n|]; [|discriminate].
    apply String.eqb_eq in Hnamed. now subst n.
Qed.

Ltac solve_forall_records :=
  repeat first
    [ apply Forall_nil
    | apply Forall_cons
    | split
    | discriminate
    | eexists; reflexivity
    | eexists; split; [reflexivity|] ].

Ltac solve_nodup :=
  repeat (apply NoDup_cons; [cbn; intuition discriminate|]); apply NoDup_nil.

Lemma sample_interfaces_ok : iface_list sample_data sample_interfaces.
Proof. split; [reflexivity|]. unfold sample_interfaces. solve_forall_records. Defined.

Lemma sample_interfaces_distinct : NoDup (names_of sample_interfaces).
Proof. cbn. solve_nodup. Defined.

Lemma C10_consolidating_provenance_witness :
  iface_list sample_data sample_interfaces
  /\ NoDup (names_of sample_interfaces)
  /\ exists out records,
       ConfigFilter.remove_interfaces sample_in_use sample_data = Ok out
       /\ getitem out "interface" = Ok (JArr records)
       /\ forall r s, In r records -> In s (subifs_of r) ->
            exists e irb,
              In e sample_interfaces /\ name_of e = name_of r
              /\ In s (subifs_of e) /\ In irb sample_in_use
              /\ name_of r = Some (Interface.interface_name irb)
              /\ index_matches (Interface.unit irb) s = true.
Proof.
  split; [exact sample_interfaces_ok | split; [exact sample_interfaces_distinct|]].
  exact (C10_consolidating_provenance sample_in_use sample_data sample_interfaces
           sample_interfaces_ok sample_interfaces_distinct).
Defined.

Example consolidating_sample :
  ConfigFilter.remove_interfaces sample_in_use sample_data
  = (data <- setitem sample_data "interface"
               (JArr [record "ethernet-1/1" [subif 0];
                      record "irb0" [subif 2; subif 1]]) ;;
     Ok data).
Proof. reflexivity. Qed.

(** Without distinct names the provenance is lost: the variable [interf]
    stays bound to the record made last, here the one of ["lo0"], and the
    subinterface of the second ["irb0"] record lands in it. *)
Example consolidating_stale_interf :
  let entries := [record "irb0" [subif 1]; record "lo0" [subif 0];
                  record "irb0" [subif 1; subif 4]] in
  ConfigFilter.remove_interfaces
    [Interface.Build "irb0" 1; Interface.Build "lo0" 0]
    (JObj [("interface", JArr entries)])
  = Ok (JObj [("interface",
               JArr [record "irb0" [subif 1]; record "lo0" [subif 0; subif 1]])]).
Proof. reflexivity. Qed.

(** ** The consolidating loop on any list of records *)

Lemma fold_left_invariant {A T : Type} (Inv : T -> Prop) (f : T -> A -> T)
  (xs : list A) (st : T) :
  (forall x t, In x xs -> Inv t -> Inv (f t x)) -> Inv st -> Inv (fold_left f xs st).
Proof.
  revert st. induction xs as [|x xs IH]; intros st H Hst; [exact Hst|].
  cbn [fold_left]. apply IH.
  - intros y t Hy. apply H. now right.
  - apply H; [now left | exact Hst].
Qed.

Lemma existsb_eqb_in (k : string) (ks : list string) :
  existsb (String.eqb k) ks = true <-> In k ks.
Proof.
  rewrite existsb_exists. split.
  - intros (x & Hx & E). apply String.eqb_eq in E. now subst.
  - intros H. exists k. split; [assumption | apply String.eqb_refl].
Qed.

Lemma has_key_keys {V : Type} (k : string) (a : list (string * V)) :
  has_key k a = existsb (String.eqb k) (map fst a).
Proof.
  unfold has_key. induction a as [|[k' v] a IH]; cbn [assoc map fst existsb]; [reflexivity|].
  destruct (String.eqb k k'); [reflexivity | exact IH].
Qed.

Lemma keys_assoc_set {V : Type} (k : string) (v : V) (a : list (string * V)) :
  map fst (assoc_set k v a) = add_key (map fst a) k.
Proof.
  unfold add_key. rewrite <- has_key_keys.
  destruct (has_key k a) eqn:Hk.
  - apply assoc_set_keys. unfold has_key in Hk. now destruct (assoc k a).
  - rewrite assoc_set_absent by assumption. now rewrite map_app.
Qed.

Lemma add_key_present (ks : list string) (k : string) :
  In k ks -> add_key ks k = ks.
Proof. intros H. unfold add_key. apply existsb_eqb_in in H. now rewrite H. Qed.

Lemma add_key_in (ks : list string) (k : string) : In k (add_key ks k).
Proof.
  unfold add_key. destruct (existsb (String.eqb k) ks) eqn:E.
  - now apply existsb_eqb_in.
  - apply in_or_app. right. now left.
Qed.

Lemma add_key_nodup (ks : list string) (k : string) :
  NoDup ks -> NoDup (add_key ks k).
Proof.
  intros H. unfold add_key. destruct (existsb (String.eqb k) ks) eqn:E; [exact H|].
  assert (Hk : ~ In k ks) by (rewrite <- existsb_eqb_in; congruence).
  clear E. induction H as [|x l Hx Hl IH]; cbn [app].
  - constructor; [intros [] | constructor].
  - constructor.
    + rewrite in_app_iff. intros [Hin | [E | []]]; [contradiction|].
      apply Hk. now left.
    + apply IH. intros Hin. apply Hk. now right.
Qed.

Lemma first_seen_nodup (l : list string) : NoDup (first_seen l).
Proof.
  unfold first_seen.
  apply (fold_left_invariant (fun ks => NoDup ks) add_key l []).
  - intros k ks _. apply add_key_nodup.
  - constructor.
Qed.

Lemma keys_view_append (s : json) (st : view) :
  map fst (fst (view_append s st)) = map fst (fst st).
Proof.
  unfold view_append. destruct (snd st) as [k|]; [|reflexivity].
  destruct (assoc k (fst st)) as [[e l]|] eqn:Ha; [|reflexivity].
  cbn [fst]. apply assoc_set_keys. congruence.
Qed.

Lemma keys_view_subifs (u : Z) (subs : list json) (st : view) :
  map fst (fst (fold_left (view_subifs u) subs st)) = map fst (fst st).
Proof.
  apply (fold_left_invariant
           (fun t => map fst (fst t) = map fst (fst st)) (view_subifs u) subs st);
    [|reflexivity].
  intros s t _ Ht. unfold view_subifs.
  destruct (index_matches u s); [now rewrite keys_view_append | exact Ht].
Qed.

Lemma keys_view_reference (e : json) (n : string) (st : view) (irb : Interface.t) :
  map fst (fst (view_reference e n st irb))
  = if String.eqb n (Interface.interface_name irb)
    then add_key (map fst (fst st)) n else map fst (fst st).
Proof.
  unfold view_reference.
  destruct (String.eqb n (Interface.interface_name irb)); [|reflexivity].
  rewrite keys_view_subifs. destruct (has_key n (fst st)) eqn:Hk.
  - symmetry. apply add_key_present. apply existsb_eqb_in. now rewrite <- has_key_keys.
  - unfold view_bind. cbn [fst]. apply keys_assoc_set.
Qed.

Lemma keys_view_references (e : json) (n : string) (irbs : list Interface.t)
  (st : view) :
  map fst (fst (fold_left (view_reference e n) irbs st))
  = if existsb (fun irb => String.eqb n (Interface.interface_name irb)) irbs
    then add_key (map fst (fst st)) n else map fst (fst st).
Proof.
  revert st. induction irbs as [|irb irbs IH]; intros st; [reflexivity|].
  cbn [fold_left existsb]. rewrite IH, keys_view_reference.
  destruct (String.eqb n (Interface.interface_name irb)); cbn [orb]; [|reflexivity].
  rewrite (add_key_present (add_key _ n) n) by apply add_key_in.
  now destruct (existsb _ irbs).
Qed.

Lemma keys_view_scan (irbs : list Interface.t) (st : view) (e : json) :
  map fst (fst (view_scan irbs st e))
  = fold_left add_key (names_of (if retained irbs e then [e] else [])) (map fst (fst st)).
Proof.
  unfold view_scan, retained, names_of.
  destruct (name_of e) as [n|] eqn:Hn; [|reflexivity].
  rewrite keys_view_references.
  destruct (str_contains "ethernet" n); cbn [orb flat_map]; rewrite ?Hn; cbn [app fold_left].
  - unfold view_bind. cbn [fst]. rewrite keys_assoc_set.
    rewrite (add_key_present (add_key _ n) n) by apply add_key_in.
    now destruct (existsb _ irbs).
  - destruct (existsb _ irbs); cbn [flat_map]; rewrite ?Hn; reflexivity.
Qed.

Lemma names_of_app (l l' : list json) : names_of (l ++ l') = names_of l ++ names_of l'.
Proof. unfold names_of. apply flat_map_app. Qed.

(** The keys of [result], in their order: the names of the retained records,
    each where the scan of the document meets it first. *)
Lemma keys_view_loop (irbs : list Interface.t) (entries : list json) :
  map fst (fst (view_loop irbs entries))
  = first_seen (names_of (List.filter (retained irbs) entries)).
Proof.
  unfold view_loop, first_seen.
  change (@nil string) with (map fst (fst (@nil (string * trimmed), @None string))).
  generalize (@nil (string * trimmed), @None string).
  induction entries as [|e entries IH]; intros st; [reflexivity|].
  cbn [fold_left List.filter]. rewrite IH, keys_view_scan.
  destruct (retained irbs e); [|reflexivity].
  change (e :: List.filter (retained irbs) entries)
    with ([e] ++ List.filter (retained irbs) entries).
  now rewrite names_of_app, fold_left_app.
Qed.

Section Provenance.

Variable irbs : list Interface.t.
Variable entries : list json.

Lemma provenance_bind (n : string) (e : json) (st : view) :
  In e entries -> name_of e = Some n ->
  provenance irbs entries st -> provenance irbs entries (view_bind n e st).
Proof.
  intros He Hn H k e' l. unfold view_bind. cbn [fst].
  destruct (String.eqb_spec k n) as [->|Hne].
  - rewrite assoc_set_same. intros [= <- <-]. auto.
  - rewrite assoc_set_other by assumption. apply H.
Qed.

Lemma provenance_append (s : json) (st : view) :
  in_use_subif irbs entries s ->
  provenance irbs entries st -> provenance irbs entries (view_append s st).
Proof.
  intros Hs H. unfold view_append.
  destruct (snd st) as [k|]; [|exact H].
  destruct (assoc k (fst st)) as [[e l]|] eqn:Ha; [|exact H].
  intros k' e' l'. cbn [fst]. destruct (String.eqb_spec k' k) as [->|Hne].
  - rewrite assoc_set_same. intros [= <- <-].
    destruct (H k e l Ha) as (He & Hn & Hl). repeat split; try assumption.
    apply Forall_app. split; [assumption | now constructor].
  - rewrite assoc_set_other by assumption. apply H.
Qed.

Lemma provenance_reference (e : json) (n : string) (irb : Interface.t) (st : view) :
  In e entries -> name_of e = Some n -> In irb irbs ->
  provenance irbs entries st ->
  provenance irbs entries (view_reference e n st irb).
Proof.
  intros He Hn Hirb H. unfold view_reference.
  destruct (String.eqb n (Interface.interface_name irb)) eqn:E; [|exact H].
  apply fold_left_invariant.
  - intros s t Hs Ht. unfold view_subifs.
    destruct (index_matches (Interface.unit irb) s) eqn:Hidx; [|exact Ht].
    apply provenance_append; [|exact Ht].
    exists e, irb. rewrite (named_eqb irb e n Hn). auto.
  - destruct (has_key n (fst st)); [exact H | now apply provenance_bind].
Qed.

Lemma provenance_scan (e : json) (st : view) :
  In e entries -> provenance irbs entries st ->
  provenance irbs entries (view_scan irbs st e).
Proof.
  intros He H. unfold view_scan. destruct (name_of e) as [n|] eqn:Hn; [|exact H].
  apply fold_left_invariant.
  - intros irb t Hirb Ht. now apply provenance_reference.
  - destruct (str_contains "ethernet" n); [now apply provenance_bind | exact H].
Qed.

Lemma provenance_loop : provenance irbs entries (view_loop irbs entries).
Proof.
  unfold view_loop. apply fold_left_invariant.
  - intros e t He Ht. now apply provenance_scan.
  - intros k e l. discriminate.
Qed.

End Provenance.

Lemma in_concrete_records (a : list (string * trimmed)) (r : json) :
  In r (map snd (concrete a))
  <-> exists k e l, In (k, (e, l)) a /\ r = with_subinterfaces e l.
Proof.
  unfold concrete. rewrite map_map. cbn [snd]. rewrite in_map_iff. split.
  - intros ([k [e l]] & <- & Hin). now exists k, e, l.
  - intros (k & e & l & Hin & ->). now exists (k, (e, l)).
Qed.

Lemma in_assoc_nodup {V : Type} (k : string) (v : V) (a : list (string * V)) :
  NoDup (map fst a) -> In (k, v) a -> assoc k a = Some v.
Proof.
  induction a as [|[k' v'] a IH]; cbn [map fst assoc]; [now intros _ []|].
  intros Hnd [[= -> ->]|Hin].
  - now rewrite String.eqb_refl.
  - inversion Hnd as [|? ? Hk Hnd']; subst.
    destruct (String.eqb_spec k k') as [->|_]; [|now apply IH].
    exfalso. apply Hk. apply in_map_iff. now exists (k', v).
Qed.

Lemma assoc_in {V : Type} (k : string) (v : V) (a : list (string * V)) :
  assoc k a = Some v -> In (k, v) a.
Proof.
  induction a as [|[k' v'] a IH]; cbn [assoc]; [discriminate|].
  destruct (String.eqb_spec k k') as [->|_].
  - intros [= ->]. now left.
  - intros H. right. now apply IH.
Qed.

Lemma retained_members (irbs irbs' : list Interface.t) (e : json) :
  (forall irb, In irb irbs <-> In irb irbs') -> retained irbs e = retained irbs' e.
Proof.
  intros H. unfold retained. destruct (name_of e) as [n|]; [|reflexivity].
  f_equal. apply eq_true_iff_eq. rewrite !existsb_exists.
  split; intros (irb & Hin & E); exists irb; (split; [now apply H | exact E]).
Qed.

Lemma in_add_key (ks : list string) (k k' : string) :
  In k' (add_key ks k) <-> In k' ks \/ k' = k.
Proof.
  unfold add_key. destruct (existsb (String.eqb k) ks) eqn:E.
  - apply existsb_eqb_in in E. split; [auto | intros [H | ->]; assumption].
  - rewrite in_app_iff. cbn [In]. intuition congruence.
Qed.

Lemma in_first_seen (l : list string) (k : string) : In k (first_seen l) <-> In k l.
Proof.
  unfold first_seen.
  assert (H : forall ks, In k (fold_left add_key l ks) <-> In k ks \/ In k l).
  { induction l as [|x l IH]; intros ks; cbn [fold_left In]; [tauto|].
    rewrite IH, in_add_key. intuition congruence. }
  rewrite H. cbn [In]. tauto.
Qed.

Lemma in_names_of (l : list json) (n : string) :
  In n (names_of l) <-> exists e, In e l /\ name_of e = Some n.
Proof.
  unfold names_of. rewrite in_flat_map. split.
  - intros (e & He & Hn). exists e. split; [assumption|].
    destruct (name_of e); [|contradiction]. destruct Hn as [->|[]]. reflexivity.
  - intros (e & He & Hn). exists e. split; [assumption|]. rewrite Hn. now left.
Qed.

(** X17: on any list of interface records, names repeated or not, the
    consolidating pruner returns a list with one record per name at most; its
    names are the names of the retained records (name with ["ethernet"] in
    it, or named by an in-use reference) in the order in which the scan of
    the original list meets each first, whatever the order of the reference
    list; and for every original record named with ["ethernet"] in it the
    result holds a record of this name, a copy of an original record of this
    name but for its subinterface list. *)
Theorem consolidating_names_in_first_encounter_order (irbs : list Interface.t)
  (data : json) (entries : list json) :
  iface_list data entries ->
  exists out records,
    ConfigFilter.remove_interfaces irbs data = Ok out
    /\ getitem out "interface" = Ok (JArr records)
    /\ NoDup (map name_of records)
    /\ map name_of records
       = map Some (first_seen (names_of (List.filter (retained irbs) entries)))
    /\ (forall irbs', (forall irb, In irb irbs <-> In irb irbs') ->
          List.filter (retained irbs') entries = List.filter (retained irbs) entries)
    /\ (forall e n, In e entries -> name_of e = Some n ->
          str_contains "ethernet" n = true ->
          exists r e', In r records /\ name_of r = Some n
                       /\ In e' entries /\ name_of e' = Some n
                       /\ r = with_subinterfaces e' (subifs_of r)).
Proof.
  intros H. destruct (remove_interfaces_view irbs data entries H) as (o & -> & -> & Hok).
  pose proof (keys_view_loop irbs entries) as Hkeys.
  pose proof (provenance_loop irbs entries) as Hprov.
  set (a := fst (view_loop irbs entries)) in *.
  assert (Hnd : NoDup (map fst a)) by (rewrite Hkeys; apply first_seen_nodup).
  assert (Hnames : map name_of (map snd (concrete a)) = map Some (map fst a)).
  { unfold concrete. rewrite !map_map. apply map_ext_in.
    intros [k [e l]] Hin. cbn [fst snd]. unfold concrete_record. cbn [fst snd].
    rewrite name_of_with_subinterfaces.
    apply in_assoc_nodup in Hin; [|assumption]. now destruct (Hprov k e l Hin) as (_ & -> & _). }
  eexists. eexists. split; [reflexivity|]. split.
  { cbn [getitem]. now rewrite assoc_set_same. }
  split; [|split; [|split]].
  - rewrite Hnames. apply Finite.Injective_map_NoDup; [|assumption].
    intros x y E. now injection E.
  - now rewrite Hnames, Hkeys.
  - intros irbs' Hsame. apply filter_ext. intros e. symmetry.
    now apply retained_members.
  - intros e n He Hn Heth.
    assert (Hin : In n (map fst a)).
    { rewrite Hkeys. apply in_first_seen. apply in_names_of. exists e.
      split; [|assumption]. apply filter_In. split; [assumption|].
      unfold retained. now rewrite Hn, Heth. }
    apply existsb_eqb_in in Hin. rewrite <- has_key_keys in Hin.
    unfold has_key in Hin. destruct (assoc n a) as [[e' l]|] eqn:Ha; [|discriminate].
    destruct (Hprov n e' l Ha) as (He' & Hn' & Hl).
    destruct (proj1 Hok n (e', l) Ha) as [o' Ho']. cbn [fst] in Ho'.
    exists (with_subinterfaces e' l), e'.
    rewrite subifs_of_with_subinterfaces by (now exists o').
    rewrite name_of_with_subinterfaces.
    repeat split; try assumption.
    apply in_concrete_records. exists n, e', l. split; [now apply assoc_in | reflexivity].
Qed.

Lemma consolidating_names_in_first_encounter_order_witness :
  iface_list sample_data sample_interfaces
  /\ exists out records,
       ConfigFilter.remove_interfaces sample_in_use sample_data = Ok out
       /\ getitem out "interface" = Ok (JArr records)
       /\ map name_of records = [Some "ethernet-1/1"; Some "irb0"].
Proof.
  split; [exact sample_interfaces_ok|].
  destruct (consolidating_names_in_first_encounter_order sample_in_use sample_data
              sample_interfaces sample_interfaces_ok)
    as (out & records & Hrun & Hget & _ & Hnames & _).
  exists out, records. split; [exact Hrun|]. split; [exact Hget|].
  rewrite Hnames. reflexivity.
Defined.

(** X18: on interface records with pairwise distinct names the consolidating
    pruner returns exactly the retained records, in document order, each a
    copy whose subinterface list holds, reference by reference in the order
    of the reference list, the subinterfaces of the record itself whose index
    is the unit of a reference that names the record. *)
Theorem consolidating_output_on_distinct_names (irbs : list Interface.t)
  (data : json) (entries : list json) :
  iface_list data entries -> NoDup (names_of entries) ->
  exists out,
    ConfigFilter.remove_interfaces irbs data = Ok out
    /\ getitem out "interface"
       = Ok (JArr (map (fun e => with_subinterfaces e (selected_subifs irbs e))
                       (List.filter (retained irbs) entries))).
Proof.
  intros H Hnd.
  destruct (remove_interfaces_distinct irbs data entries H Hnd) as (o & -> & ->).
  eexists. split; [reflexivity|]. cbn [getitem]. now rewrite assoc_set_same.
Qed.

Lemma consolidating_output_on_distinct_names_witness :
  iface_list sample_data sample_interfaces
  /\ NoDup (names_of sample_interfaces)
  /\ exists out,
       ConfigFilter.remove_interfaces sample_in_use sample_data = Ok out
       /\ getitem out "interface"
          = Ok (JArr [record "ethernet-1/1" [subif 0];
                      record "irb0" [subif 2; subif 1]]).
Proof.
  split; [exact sample_interfaces_ok | split; [exact sample_interfaces_distinct|]].
  exact (consolidating_output_on_distinct_names sample_in_use sample_data
           sample_interfaces sample_interfaces_ok sample_interfaces_distinct).
Defined.

(** C6, the defect: where a record's name is already a key of [result], the
    consolidating loop appends to whatever record the variable [interf] was
    bound to last.  Here the second record named [irb0] is met after the
    record [ethernet-1/1]: its subinterface 7, in use for [irb0], is appended
    to the copy of [ethernet-1/1], which no reference names and which does
    not hold it in the original document.  The record kept for its
    ["ethernet"] name was to get, after the reset of its list, the in-use
    subinterfaces of this interface only: none. *)
Theorem C6_stale_interf_in_ethernet_record :
  let entries := [record "irb0" []; record "ethernet-1/1" [subif 0];
                  record "irb0" [subif 7]] in
  let irbs := [Interface.Build "irb0" 7] in
  ConfigFilter.remove_interfaces irbs (JObj [("interface", JArr entries)])
  = Ok (JObj [("interface",
               JArr [record "irb0" []; record "ethernet-1/1" [subif 7]])])
  /\ ~ In (subif 7) (subifs_of (record "ethernet-1/1" [subif 0]))
  /\ named (Interface.Build "irb0" 7) (record "ethernet-1/1" [subif 0]) = false
  /\ selected_subifs irbs (record "ethernet-1/1" [subif 0]) = [].
Proof.
  cbv zeta. split; [reflexivity|]. split; [|split; reflexivity].
  intros [H|[]]. discriminate.
Qed.

(** ** What the pipeline leaves alone *)

Lemma restrict_assoc_set (p : string -> bool) (k : string) (v : json) (o : dict) :
  p k = false -> restrict p (assoc_set k v o) = restrict p o.
Proof.
  intros Hk. unfold restrict.
  induction o as [|[k' v'] o IH]; cbn [assoc_set List.filter fst].
  - now rewrite Hk.
  - destruct (String.eqb_spec k k') as [<-|Hne]; cbn [List.filter fst].
    + now rewrite Hk.
    + now rewrite IH.
Qed.

Lemma restrict_assoc (p : string -> bool) (k : string) (o : dict) :
  p k = true -> assoc k (restrict p o) = assoc k o.
Proof.
  intros Hk. unfold restrict.
  induction o as [|[k' v'] o IH]; cbn [assoc List.filter fst]; [reflexivity|].
  destruct (String.eqb_spec k k') as [<-|Hne].
  - rewrite Hk. cbn [assoc]. now rewrite String.eqb_refl.
  - destruct (p k'); cbn [assoc]; [|exact IH].
    destruct (String.eqb_spec k k'); [contradiction | exact IH].
Qed.

Lemma setitem_ok (v : json) (k : string) (x out : json) :
  setitem v k x = Ok out -> exists o, v = JObj o /\ out = JObj (assoc_set k x o).
Proof. destruct v; try discriminate. intros [= <-]. now eexists. Qed.

Lemma drop_nis_ok (keep_nis : list string) (data out : json) :
  drop_nis keep_nis data = Ok out ->
  exists o v, data = JObj o /\ out = JObj (assoc_set "network-instance" v o).
Proof.
  unfold drop_nis. intros H.
  apply bind_ok in H as (nis & _ & H). apply bind_ok in H as (entries & _ & H).
  apply bind_ok in H as (result & _ & H).
  apply setitem_ok in H as (o & -> & ->). now eexists; eexists.
Qed.

Lemma remove_bfd_interfaces_ok (irbs : list Interface.t) (data out : json) :
  remove_bfd_interfaces irbs data = Ok out ->
  exists o b v, data = JObj o /\ assoc "bfd" o = Some (JObj b)
    /\ out = JObj (assoc_set "bfd" (JObj (assoc_set "subinterface" v b)) o).
Proof.
  unfold remove_bfd_interfaces. intros H.
  apply bind_ok in H as (bfd & Hbfd & H). apply bind_ok in H as (subs & _ & H).
  apply bind_ok in H as (entries & _ & H). apply bind_ok in H as (matched & _ & H).
  apply bind_ok in H as (bfd' & Hset & H).
  apply setitem_ok in Hset as (b & -> & ->).
  apply setitem_ok in H as (o & -> & ->).
  cbn [getitem] in Hbfd. destruct (assoc "bfd" o) eqn:E; [|discriminate].
  injection Hbfd as ->. now exists o, b, (JArr matched).
Qed.

Lemma strict_remove_interfaces_ok (irbs : list Interface.t) (data out : json) :
  Main.remove_interfaces irbs data = Ok out ->
  exists o v, data = JObj o /\ out = JObj (assoc_set "interface" v o).
Proof.
  unfold Main.remove_interfaces. intros H. apply bind_ok in H as (result & _ & H).
  apply setitem_ok in H as (o & -> & ->). now eexists; eexists.
Qed.

Lemma consolidating_remove_interfaces_ok (irbs : list Interface.t) (data out : json) :
  ConfigFilter.remove_interfaces irbs data = Ok out ->
  exists o v, data = JObj o /\ out = JObj (assoc_set "interface" v o).
Proof.
  unfold ConfigFilter.remove_interfaces. intros H.
  apply bind_ok in H as (ifs & _ & H). apply bind_ok in H as (entries & _ & H).
  apply bind_ok in H as (st & _ & H).
  apply setitem_ok in H as (o & -> & ->). now eexists; eexists.
Qed.

(** The three assignments of the pipeline, in a row. *)
Lemma frame_of_steps (o : dict) (b : dict) (v1 v2 v3 : json) :
  assoc "bfd" (assoc_set "network-instance" v1 o) = Some (JObj b) ->
  let o' := assoc_set "interface" v3
              (assoc_set "bfd" (JObj (assoc_set "subinterface" v2 b))
                 (assoc_set "network-instance" v1 o)) in
  restrict other_key o' = restrict other_key o
  /\ assoc "bfd" o = Some (JObj b)
  /\ assoc "bfd" o' = Some (JObj (assoc_set "subinterface" v2 b))
  /\ restrict not_subinterface (assoc_set "subinterface" v2 b)
     = restrict not_subinterface b.
Proof.
  intros Hb. cbv zeta. rewrite assoc_set_other in Hb by discriminate.
  split; [|split; [exact Hb | split]].
  - now rewrite !restrict_assoc_set by reflexivity.
  - rewrite assoc_set_other by discriminate. apply assoc_set_same.
  - now apply restrict_assoc_set.
Qed.

(** C8: when the pipeline of either variant returns, the output document
    holds, under every top-level key other than [network-instance],
    [interface] and [bfd], the value the input document holds, these keys in
    the order of the input; and [bfd] holds, under every key other than
    [subinterface], what it held. *)
Theorem C8_frame (set_iter : list json -> list json) (data out : json) :
  Main.prune set_iter data = Ok out \/ ConfigFilter.prune set_iter data = Ok out ->
  exists o o' b b',
    data = JObj o /\ out = JObj o'
    /\ restrict other_key o' = restrict other_key o
    /\ (forall k, other_key k = true -> getitem out k = getitem data k)
    /\ assoc "bfd" o = Some (JObj b) /\ assoc "bfd" o' = Some (JObj b')
    /\ restrict not_subinterface b' = restrict not_subinterface b
    /\ (forall k, k <> "subinterface" -> assoc k b' = assoc k b).
Proof.
  intros H.
  assert (Hsteps : exists o b v1 v2 v3,
             data = JObj o
             /\ assoc "bfd" (assoc_set "network-instance" v1 o) = Some (JObj b)
             /\ out = JObj (assoc_set "interface" v3
                              (assoc_set "bfd" (JObj (assoc_set "subinterface" v2 b))
                                 (assoc_set "network-instance" v1 o)))).
  { destruct H as [H|H].
    - unfold Main.prune in H.
      apply bind_ok in H as (data1 & H1 & H). apply bind_ok in H as (irbs & _ & H).
      apply bind_ok in H as (data2 & H2 & H3).
      apply drop_nis_ok in H1 as (o & v1 & -> & ->).
      apply remove_bfd_interfaces_ok in H2 as (o1 & b & v2 & [= <-] & Hb & ->).
      apply strict_remove_interfaces_ok in H3 as (o2 & v3 & [= <-] & ->).
      now exists o, b, v1, v2, v3.
    - unfold ConfigFilter.prune in H.
      apply bind_ok in H as (data1 & H1 & H). apply bind_ok in H as (irbs & _ & H).
      apply bind_ok in H as (data2 & H2 & H3).
      apply drop_nis_ok in H1 as (o & v1 & -> & ->).
      apply remove_bfd_interfaces_ok in H2 as (o1 & b & v2 & [= <-] & Hb & ->).
      apply consolidating_remove_interfaces_ok in H3 as (o2 & v3 & [= <-] & ->).
      now exists o, b, v1, v2, v3. }
  destruct Hsteps as (o & b & v1 & v2 & v3 & -> & Hb & ->).
  destruct (frame_of_steps o b v1 v2 v3 Hb) as (Htop & Hbfd & Hbfd' & Hin).
  eexists o, _, b, _. split; [reflexivity|]. split; [reflexivity|].
  split; [exact Htop|]. split; [|split; [exact Hbfd | split; [exact Hbfd' | split; [exact Hin|]]]].
  - intros k Hk. cbn [getitem].
    rewrite <- (restrict_assoc other_key k _ Hk), Htop.
    now rewrite (restrict_assoc other_key k o Hk).
  - intros k Hk. apply assoc_set_other. exact Hk.
Qed.

Lemma C8_frame_witness :
  exists out,
    (Main.prune (fun l => l) sample_data = Ok out
     \/ ConfigFilter.prune (fun l => l) sample_data = Ok out)
    /\ getitem out "system" = getitem sample_data "system".
Proof.
  eexists. assert (H : ConfigFilter.prune (fun l => l) sample_data = Ok _)
    by (vm_compute; reflexivity).
  split; [right; exact H|].
  destruct (C8_frame (fun l => l) sample_data _ (or_intror H))
    as (o & o' & b & b' & _ & _ & _ & Hother & _).
  now apply Hother.
Defined.

(** ** The pipeline in closed form *)

Lemma strict_remove_interfaces_listed (irbs : list Interface.t) (o : dict)
  (ifs : list json) :
  assoc "interface" o = Some (JArr ifs) -> Forall iface_record ifs ->
  Main.remove_interfaces irbs (JObj o)
  = Ok (JObj (assoc_set "interface" (JArr (flat_map (strict_records ifs) irbs)) o)).
Proof.
  intros Hget Hall. unfold Main.remove_interfaces.
  rewrite (for_each_append irbs _ (strict_records ifs) []); [reflexivity|].
  intros irb acc _. cbn [getitem]. rewrite Hget. cbn [bind iter].
  now apply strict_inner.
Qed.

Lemma consolidating_remove_interfaces_listed (irbs : list Interface.t) (o : dict)
  (ifs : list json) :
  assoc "interface" o = Some (JArr ifs) -> Forall iface_record ifs ->
  NoDup (names_of ifs) ->
  ConfigFilter.remove_interfaces irbs (JObj o)
  = Ok (JObj (assoc_set "interface" (JArr (consolidated_records irbs ifs)) o)).
Proof.
  intros Hget Hall Hnd.
  destruct (remove_interfaces_distinct irbs (JObj o) ifs) as (o' & [= <-] & E).
  - split; [|assumption]. cbn [getitem]. now rewrite Hget.
  - assumption.
  - exact E.
Qed.

Lemma remove_interfaces_listed (v : variant) (irbs : list Interface.t) (o : dict)
  (ifs : list json) :
  assoc "interface" o = Some (JArr ifs) -> Forall iface_record ifs ->
  match v with Strict => True | Consolidating => NoDup (names_of ifs) end ->
  match v with
  | Strict => Main.remove_interfaces
  | Consolidating => ConfigFilter.remove_interfaces
  end irbs (JObj o)
  = Ok (JObj (assoc_set "interface" (JArr (pruned_records v irbs ifs)) o)).
Proof.
  destruct v; intros Hget Hall Hnd.
  - now apply strict_remove_interfaces_listed.
  - now apply consolidating_remove_interfaces_listed.
Qed.

(** The pipeline on a document of the expected shape: the deduction, on the
    document with its network instances filtered, is its only step that can
    raise. *)
Lemma prune_closed_form (v : variant) (set_iter : list json -> list json)
  (d : json) (o : dict) (nis : list json) (b : dict) (bfds ifs : list json) :
  doc_shape d o nis b bfds ifs ->
  match v with Strict => True | Consolidating => NoDup (names_of ifs) end ->
  prune_of v set_iter d
  = (irbs <- deduce_of v set_iter
               (JObj (assoc_set "network-instance"
                        (JArr (kept_instances (keep_nis_of v) nis)) o)) ;;
     Ok (JObj (with_sections o (kept_instances (keep_nis_of v) nis) b
                 (kept_bindings irbs bfds) (pruned_records v irbs ifs)))).
Proof.
  intros (-> & Hnis & Hnamed & Hbfd & Hsub & Hids & Hifs & Hrecs) Hnd.
  assert (Hdrop : drop_nis (keep_nis_of v) (JObj o)
                  = Ok (JObj (assoc_set "network-instance"
                                (JArr (kept_instances (keep_nis_of v) nis)) o))).
  { destruct (drop_nis_named (keep_nis_of v) (JObj o) nis) as (o' & [= <-] & E);
      [|exact E].
    split; [|assumption]. cbn [getitem]. now rewrite Hnis. }
  set (o1 := assoc_set "network-instance"
               (JArr (kept_instances (keep_nis_of v) nis)) o) in *.
  assert (Hrest : forall irbs,
             (data2 <- remove_bfd_interfaces irbs (JObj o1) ;;
              match v with
              | Strict => Main.remove_interfaces
              | Consolidating => ConfigFilter.remove_interfaces
              end irbs data2)
             = Ok (JObj (with_sections o (kept_instances (keep_nis_of v) nis) b
                           (kept_bindings irbs bfds) (pruned_records v irbs ifs)))).
  { intros irbs.
    destruct (remove_bfd_interfaces_listed irbs (JObj o1) b bfds) as (o' & [= <-] & ->).
    - split; [|split; assumption]. cbn [getitem]. subst o1.
      rewrite assoc_set_other by discriminate. now rewrite Hbfd.
    - cbn [bind]. apply remove_interfaces_listed; [|assumption|assumption].
      subst o1. now rewrite !assoc_set_other by discriminate. }
  destruct v; cbn [prune_of deduce_of keep_nis_of pruned_records] in *;
    unfold Main.prune, ConfigFilter.prune;
    rewrite Hdrop; cbn [bind];
    match goal with
    | |- bind ?m _ = _ => destruct m as [irbs|e]; [|reflexivity]
    end; cbn [bind]; apply Hrest.
Qed.

Lemma deduce_same_instances (v : variant) (set_iter : list json -> list json)
  (d d' : json) :
  getitem d "network-instance" = getitem d' "network-instance" ->
  deduce_of v set_iter d = deduce_of v set_iter d'.
Proof.
  intros H.
  assert (E : collect_interface_names d = collect_interface_names d')
    by (unfold collect_interface_names; now rewrite H).
  destruct v; cbn [deduce_of];
    unfold Main.deduce_base_irb_interfaces, ConfigFilter.deduce_in_use_interfaces;
    now rewrite E.
Qed.

(** ** What a second run finds *)

Lemma flat_map_repeat_stable {A : Type} (copies : A -> nat) (l : list A) :
  Forall (fun x => (copies x <= 1)%nat) l ->
  flat_map (fun x => repeat x (copies x)) (flat_map (fun x => repeat x (copies x)) l)
  = flat_map (fun x => repeat x (copies x)) l.
Proof.
  induction 1 as [|x l Hx _ IH]; [reflexivity|].
  cbn [flat_map]. rewrite flat_map_app, IH. f_equal.
  destruct (copies x) as [|[|k]] eqn:E; [reflexivity | | lia].
  cbn [repeat flat_map]. rewrite E. reflexivity.
Qed.

Lemma nodup_map_injective {A B : Type} (f : A -> B) (l : list A) (x y : A) :
  NoDup (map f l) -> In x l -> In y l -> f x = f y -> x = y.
Proof.
  induction l as [|a l IH]; cbn [map]; [now intros _ []|].
  intros Hnd Hx Hy E. inversion Hnd as [|? ? Ha Hnd']; subst.
  destruct Hx as [->|Hx], Hy as [->|Hy]; [reflexivity | | | now apply IH].
  - exfalso. apply Ha. rewrite E. now apply in_map.
  - exfalso. apply Ha. rewrite <- E. now apply in_map.
Qed.

(** Exactly one item of a list without repetition passes a test that singles
    it out. *)
Lemma flat_map_single {A B : Type} (p : A -> bool) (X : A -> list B) (l : list A)
  (x : A) :
  NoDup l -> In x l -> (forall y, In y l -> p y = true -> y = x) -> p x = true ->
  flat_map (fun y => if p y then X y else []) l = X x.
Proof.
  intros Hnd Hx Huniq Hpx.
  assert (Hnone : forall l', ~ In x l' -> (forall y, In y l' -> p y = true -> y = x) ->
             flat_map (fun y => if p y then X y else []) l' = []).
  { induction l' as [|a l' IH]; intros Hnot Hu; [reflexivity|]. cbn [flat_map].
    rewrite IH; [| intros Hin; apply Hnot; now right | intros y Hy; apply Hu; now right].
    destruct (p a) eqn:Hpa; [|reflexivity].
    exfalso. apply Hnot. left. apply (Hu a); [now left | assumption]. }
  induction l as [|a l IH]; [contradiction|].
  inversion Hnd as [|? ? Ha Hnd']; subst. cbn [flat_map].
  destruct Hx as [->|Hx].
  - rewrite Hpx, Hnone; [apply app_nil_r | assumption |].
    intros y Hy. apply Huniq. now right.
  - rewrite IH; [| assumption | assumption | intros y Hy; apply Huniq; now right].
    destruct (p a) eqn:Hpa; [|reflexivity].
    exfalso. apply Ha. rewrite (Huniq a (or_introl eq_refl) Hpa). exact Hx.
Qed.

Lemma bfd_copies_at_most_one (irbs : list Interface.t) (e : json) :
  NoDup (map Interface.config_rep irbs) -> (bfd_copies irbs e <= 1)%nat.
Proof.
  intros Hnd. unfold bfd_copies. destruct (getitem e "id") as [id|]; [|lia].
  induction irbs as [|irb irbs IH]; cbn [List.filter List.length]; [lia|].
  cbn [map] in Hnd. inversion Hnd as [|? ? Hnot Hnd']; subst.
  destruct (eq_str id (Interface.config_rep irb)) eqn:E; [|now apply IH].
  cbn [List.length].
  assert (Hnone : List.filter (fun irb0 => eq_str id (Interface.config_rep irb0)) irbs = []).
  { destruct (List.filter _ irbs) as [|x l] eqn:F; [reflexivity|]. exfalso.
    assert (Hx : In x (List.filter (fun irb0 => eq_str id (Interface.config_rep irb0)) irbs))
      by (rewrite F; now left).
    apply filter_In in Hx as [Hx Ex]. apply Hnot.
    destruct id; try discriminate. cbn [eq_str] in E, Ex.
    apply String.eqb_eq in E, Ex. rewrite <- E, Ex. now apply in_map. }
  rewrite Hnone. cbn. lia.
Qed.

Lemma kept_bindings_stable (irbs : list Interface.t) (bfds : list json) :
  NoDup (map Interface.config_rep irbs) ->
  kept_bindings irbs (kept_bindings irbs bfds) = kept_bindings irbs bfds.
Proof.
  intros Hnd. apply flat_map_repeat_stable. apply Forall_forall.
  intros e _. now apply bfd_copies_at_most_one.
Qed.

Lemma index_matches_unique (u u' : Z) (s : json) :
  index_matches u s = true -> index_matches u' s = true -> u = u'.
Proof.
  unfold index_matches. destruct (getitem s "index") as [idx|]; [|discriminate].
  destruct idx; cbn [eq_int]; try discriminate; intros H H';
    apply Z.eqb_eq in H, H'; congruence.
Qed.

Lemma filter_filter_index (u u' : Z) (l : list json) :
  List.filter (index_matches u) (List.filter (index_matches u') l)
  = if u' =? u then List.filter (index_matches u) l else [].
Proof.
  induction l as [|s l IH]; cbn [List.filter]; [now destruct (u' =? u)|].
  destruct (index_matches u' s) eqn:H'; cbn [List.filter]; rewrite IH.
  - destruct (Z.eqb_spec u' u) as [->|Hne].
    + rewrite H'. reflexivity.
    + destruct (index_matches u s) eqn:H; [|reflexivity].
      destruct Hne. symmetry. now apply (index_matches_unique u u' s).
  - destruct (Z.eqb_spec u' u) as [->|Hne]; [|reflexivity].
    now rewrite H'.
Qed.

Lemma filter_flat_map {A B : Type} (p : B -> bool) (g : A -> list B) (l : list A) :
  List.filter p (flat_map g l) = flat_map (fun x => List.filter p (g x)) l.
Proof.
  induction l as [|x l IH]; [reflexivity|]. cbn [flat_map].
  now rewrite filter_app, IH.
Qed.

Lemma filter_idempotent {A : Type} (p : A -> bool) (l : list A) :
  List.filter p (List.filter p l) = List.filter p l.
Proof.
  induction l as [|x l IH]; [reflexivity|]. cbn [List.filter].
  destruct (p x) eqn:E; cbn [List.filter]; rewrite ?E, IH; reflexivity.
Qed.

Lemma flat_map_ext_members {A B : Type} (f g : A -> list B) (l : list A) :
  (forall x, In x l -> f x = g x) -> flat_map f l = flat_map g l.
Proof.
  induction l as [|x l IH]; intros H; [reflexivity|]. cbn [flat_map].
  rewrite (H x (or_introl eq_refl)), IH; [reflexivity|].
  intros y Hy. apply H. now right.
Qed.

Lemma filter_map_all {A B : Type} (p : B -> bool) (g : A -> B) (l : list A) :
  (forall x, In x l -> p (g x) = true) -> List.filter p (map g l) = map g l.
Proof.
  induction l as [|x l IH]; intros H; [reflexivity|]. cbn [map List.filter].
  rewrite (H x (or_introl eq_refl)), IH; [reflexivity|].
  intros y Hy. apply H. now right.
Qed.

Lemma filter_map_none {A B : Type} (p : B -> bool) (g : A -> B) (l : list A) :
  (forall x, In x l -> p (g x) = false) -> List.filter p (map g l) = [].
Proof.
  induction l as [|x l IH]; intros H; [reflexivity|]. cbn [map List.filter].
  rewrite (H x (or_introl eq_refl)). apply IH.
  intros y Hy. apply H. now right.
Qed.

Lemma with_subinterfaces_twice (e : json) (l l' : list json) :
  with_subinterfaces (with_subinterfaces e l) l' = with_subinterfaces e l'.
Proof.
  destruct e as [| | | | |o]; try reflexivity.
  cbn [with_subinterfaces]. now rewrite assoc_set_twice.
Qed.

Lemma named_with_subinterfaces (irb : Interface.t) (e : json) (l : list json) :
  named irb (with_subinterfaces e l) = named irb e.
Proof. unfold named. now rewrite name_of_with_subinterfaces. Qed.

Lemma retained_with_subinterfaces (irbs : list Interface.t) (e : json) (l : list json) :
  retained irbs (with_subinterfaces e l) = retained irbs e.
Proof. unfold retained. now rewrite name_of_with_subinterfaces. Qed.

Lemma iface_record_with_subinterfaces (e : json) (l : list json) :
  iface_record e -> (forall s, In s l -> In s (subifs_of e)) ->
  iface_record (with_subinterfaces e l).
Proof.
  intros Hrec Hsub. pose proof (iface_record_dict e Hrec) as [o ->].
  destruct Hrec as (Hn & l0 & Hl0 & Hall). split.
  - now rewrite name_of_with_subinterfaces.
  - exists l. split.
    + cbn [with_subinterfaces getitem]. now rewrite assoc_set_same.
    + apply Forall_forall. intros s Hs. rewrite Forall_forall in Hall.
      apply Hall. specialize (Hsub s Hs). unfold subifs_of in Hsub.
      now rewrite Hl0 in Hsub.
Qed.

(** What one reference selects from what all references selected is what it
    selects from the record. *)
Lemma filter_selected_subifs (irbs : list Interface.t) (e : json) (irb : Interface.t) :
  NoDup irbs -> In irb irbs -> named irb e = true ->
  List.filter (index_matches (Interface.unit irb)) (selected_subifs irbs e)
  = List.filter (index_matches (Interface.unit irb)) (subifs_of e).
Proof.
  intros Hnd Hin Hnamed. unfold selected_subifs. rewrite filter_flat_map.
  rewrite (flat_map_ext_members _
             (fun irb' => if named irb' e && (Interface.unit irb' =? Interface.unit irb)
                          then List.filter (index_matches (Interface.unit irb)) (subifs_of e)
                          else [])).
  - apply (flat_map_single
             (fun irb' => named irb' e && (Interface.unit irb' =? Interface.unit irb))
             (fun _ => List.filter (index_matches (Interface.unit irb)) (subifs_of e))
             irbs irb Hnd Hin).
    + intros y _ Hy. apply andb_prop in Hy as [Hy Hu]. apply Z.eqb_eq in Hu.
      unfold named in Hy, Hnamed. destruct (name_of e) as [n|]; [|discriminate].
      apply String.eqb_eq in Hy, Hnamed. destruct y, irb. cbn in *. congruence.
    + now rewrite Hnamed, Z.eqb_refl.
  - intros irb' _. destruct (named irb' e); cbn [andb List.filter]; [|reflexivity].
    apply filter_filter_index.
Qed.

Lemma selected_subifs_stable (irbs : list Interface.t) (e : json) :
  iface_record e -> NoDup irbs ->
  selected_subifs irbs (with_subinterfaces e (selected_subifs irbs e))
  = selected_subifs irbs e.
Proof.
  intros Hrec Hnd. unfold selected_subifs at 1.
  rewrite subifs_of_with_subinterfaces by now apply iface_record_dict.
  unfold selected_subifs at 2. apply flat_map_ext_members. intros irb Hin.
  rewrite named_with_subinterfaces. destruct (named irb e) eqn:Hn; [|reflexivity].
  now apply filter_selected_subifs.
Qed.

Lemma consolidated_records_stable (irbs : list Interface.t) (ifs : list json) :
  Forall iface_record ifs -> NoDup irbs ->
  consolidated_records irbs (consolidated_records irbs ifs)
  = consolidated_records irbs ifs.
Proof.
  intros Hall Hnd. unfold consolidated_records.
  rewrite filter_map_all.
  - rewrite map_map. apply map_ext_in. intros e He.
    apply filter_In in He as [He _]. rewrite Forall_forall in Hall.
    rewrite with_subinterfaces_twice.
    now rewrite selected_subifs_stable by auto.
  - intros e He. rewrite retained_with_subinterfaces.
    now apply filter_In in He.
Qed.

Lemma strict_records_of_strict (ifs : list json) (irbs : list Interface.t)
  (irb : Interface.t) :
  Forall iface_record ifs ->
  NoDup (map Interface.interface_name irbs) -> In irb irbs ->
  strict_records (flat_map (strict_records ifs) irbs) irb = strict_records ifs irb.
Proof.
  intros Hall Hnd Hin.
  assert (Hnd' : NoDup irbs) by (now apply NoDup_map_inv in Hnd).
  unfold strict_records at 1. rewrite filter_flat_map.
  rewrite (flat_map_ext_members _
             (fun irb' => if String.eqb (Interface.interface_name irb')
                                        (Interface.interface_name irb)
                          then strict_records ifs irb' else [])).
  - rewrite (flat_map_single _ (strict_records ifs) irbs irb Hnd' Hin).
    + unfold strict_records. rewrite map_map. apply map_ext_in. intros e He.
      apply filter_In in He as [He _]. rewrite Forall_forall in Hall.
      rewrite with_subinterfaces_twice.
      rewrite subifs_of_with_subinterfaces by (apply iface_record_dict; auto).
      now rewrite filter_idempotent.
    + intros y Hy E. apply String.eqb_eq in E.
      now apply (nodup_map_injective Interface.interface_name irbs).
    + apply String.eqb_refl.
  - intros irb' _. unfold strict_records.
    destruct (String.eqb_spec (Interface.interface_name irb')
                (Interface.interface_name irb)) as [E|Hne].
    + apply filter_map_all. intros e He. apply filter_In in He as [_ He].
      rewrite named_with_subinterfaces. unfold named in *.
      destruct (name_of e); [|discriminate]. now rewrite <- E.
    + apply filter_map_none. intros e He. apply filter_In in He as [_ He].
      rewrite named_with_subinterfaces. unfold named in *.
      destruct (name_of e) as [n|]; [|reflexivity].
      apply String.eqb_eq in He. subst n. now apply String.eqb_neq.
Qed.

Lemma names_of_map_with_subinterfaces (g : json -> list json) (l : list json) :
  names_of (map (fun e => with_subinterfaces e (g e)) l) = names_of l.
Proof.
  unfold names_of. induction l as [|e l IH]; [reflexivity|].
  cbn [map flat_map]. now rewrite name_of_with_subinterfaces, IH.
Qed.

Lemma names_of_filter_nodup (p : json -> bool) (l : list json) :
  NoDup (names_of l) -> NoDup (names_of (List.filter p l)).
Proof.
  induction l as [|e l IH]; [auto|].
  assert (Hsub : forall n, In n (names_of (List.filter p l)) -> In n (names_of l)).
  { intros n Hin. apply in_names_of in Hin as (x & Hx & Hname).
    apply in_names_of. exists x. split; [|assumption]. now apply filter_In in Hx. }
  unfold names_of in *. cbn [List.filter flat_map].
  destruct (p e); cbn [flat_map]; destruct (name_of e) as [n|]; cbn [app];
    intros Hnd; try (inversion Hnd as [|? ? Hn Hnd']; subst); auto.
  constructor; auto.
Qed.

Lemma pruned_records_ok (v : variant) (irbs : list Interface.t) (ifs : list json) :
  Forall iface_record ifs -> Forall iface_record (pruned_records v irbs ifs).
Proof.
  intros Hall. rewrite Forall_forall in Hall. apply Forall_forall. intros r Hr.
  destruct v; cbn [pruned_records] in Hr.
  - apply in_flat_map in Hr as (irb & _ & Hr). unfold strict_records in Hr.
    apply in_map_iff in Hr as (e & <- & He). apply filter_In in He as [He _].
    apply iface_record_with_subinterfaces; [auto|].
    intros s Hs. now apply filter_In in Hs.
  - unfold consolidated_records in Hr.
    apply in_map_iff in Hr as (e & <- & He). apply filter_In in He as [He _].
    apply iface_record_with_subinterfaces; [auto|].
    intros s Hs. apply in_selected_subifs in Hs as (irb & _ & _ & Hs & _). exact Hs.
Qed.

Lemma pruned_records_stable (v : variant) (irbs : list Interface.t)
  (nis ifs : list json) :
  Forall iface_record ifs -> repeatable v irbs nis ifs ->
  pruned_records v irbs (pruned_records v irbs ifs) = pruned_records v irbs ifs.
Proof.
  intros Hall (_ & Hrep & Hv). destruct v; cbn [pruned_records].
  - apply flat_map_ext_members. intros irb Hin.
    now apply strict_records_of_strict.
  - apply consolidated_records_stable; [assumption|].
    now apply NoDup_map_inv in Hrep.
Qed.

Lemma pruned_records_distinct (irbs : list Interface.t) (ifs : list json) :
  NoDup (names_of ifs) -> NoDup (names_of (consolidated_records irbs ifs)).
Proof.
  intros H. unfold consolidated_records.
  rewrite names_of_map_with_subinterfaces. now apply names_of_filter_nodup.
Qed.

Lemma in_kept_instances (keep_nis : list string) (nis : list json) (e : json) :
  In e (kept_instances keep_nis nis) -> In e nis.
Proof. unfold kept_instances. rewrite in_flat_map_repeat. tauto. Qed.

Lemma in_kept_bindings (irbs : list Interface.t) (bfds : list json) (e : json) :
  In e (kept_bindings irbs bfds) -> In e bfds.
Proof. unfold kept_bindings. rewrite in_flat_map_repeat. tauto. Qed.

(** The output of a run has the shape of its input. *)
Lemma with_sections_shape (o : dict) (nis : list json) (b : dict)
  (bfds ifs : list json) :
  Forall (fun e => name_of e <> None) nis ->
  Forall (fun e => exists id, getitem e "id" = Ok id) bfds ->
  Forall iface_record ifs ->
  doc_shape (JObj (with_sections o nis b bfds ifs)) (with_sections o nis b bfds ifs)
    nis (assoc_set "subinterface" (JArr bfds) b) bfds ifs.
Proof.
  intros Hnis Hbfds Hifs. unfold doc_shape, with_sections.
  split; [reflexivity|]. split.
  { rewrite !assoc_set_other by discriminate. apply assoc_set_same. }
  split; [assumption|]. split.
  { rewrite assoc_set_other by discriminate. apply assoc_set_same. }
  split; [apply assoc_set_same|]. split; [assumption|].
  split; [apply assoc_set_same | assumption].
Qed.

(** Assigning to a document the sections it holds changes nothing. *)
Lemma with_sections_same (o : dict) (nis : list json) (b : dict)
  (bfds ifs : list json) :
  assoc "network-instance" o = Some (JArr nis) ->
  assoc "bfd" o = Some (JObj b) ->
  assoc "subinterface" b = Some (JArr bfds) ->
  assoc "interface" o = Some (JArr ifs) ->
  with_sections o nis b bfds ifs = o.
Proof.
  intros Hnis Hbfd Hsub Hifs. unfold with_sections.
  rewrite (assoc_set_id "network-instance" _ o Hnis).
  rewrite (assoc_set_id "subinterface" _ b Hsub).
  rewrite (assoc_set_id "bfd" _ o Hbfd).
  now apply assoc_set_id.
Qed.

(** ** Running the pipeline twice *)

(** C4, as stated, fails.  In strict mode a run makes one record per
    reference: the interface [irb0], in use with the units 1 and 2, comes out
    as two records named [irb0], and a second run makes four of them. *)
Lemma C4_counterexample :
  exists d1 d2,
    Main.prune (fun l => l) twice_referenced = Ok d1
    /\ Main.prune (fun l => l) d1 = Ok d2
    /\ d2 <> d1.
Proof.
  eexists. eexists. split; [vm_compute; reflexivity|].
  split; [vm_compute; reflexivity | discriminate].
Qed.

(** The defect of [drop_nis] breaks it too, in both variants: the network
    instance kept twice by the first run is kept four times by the second. *)
Example doubling_breaks_idempotence :
  exists d1 d2,
    ConfigFilter.prune (fun l => l) twice_kept = Ok d1
    /\ ConfigFilter.prune (fun l => l) d1 = Ok d2
    /\ d2 <> d1.
Proof.
  eexists. eexists. split; [vm_compute; reflexivity|].
  split; [vm_compute; reflexivity | discriminate].
Qed.

(** C4, amended: let a run of either variant on a document of the expected
    shape return [d'], with the references [irbs] in use in [d'].  When no
    network instance of the input has a name with two of the kept substrings
    in it, the canonical forms of [irbs] are pairwise distinct and, in strict
    mode, no two references of [irbs] name one interface, in consolidating
    mode, no two interface records of the input have one name, then a second
    run on [d'], with the same substrings and the same iteration order of the
    set, returns [d']. *)
Theorem C4_idempotent_when_repeatable (v : variant)
  (set_iter : list json -> list json) (d d' : json) (o : dict)
  (nis : list json) (b : dict) (bfds ifs : list json) (irbs : list Interface.t) :
  doc_shape d o nis b bfds ifs ->
  prune_of v set_iter d = Ok d' ->
  deduce_of v set_iter d' = Ok irbs ->
  repeatable v irbs nis ifs ->
  prune_of v set_iter d' = Ok d'.
Proof.
  intros Hshape Hrun Hded Hrep.
  pose proof Hshape as (_ & _ & Hnamed & _ & _ & Hids & _ & Hrecs).
  pose proof Hrep as (Hone & Hcanon & Hv).
  assert (Hnd : match v with Strict => True | Consolidating => NoDup (names_of ifs) end)
    by (destruct v; [exact I | exact Hv]).
  rewrite (prune_closed_form v set_iter d o nis b bfds ifs Hshape Hnd) in Hrun.
  apply bind_ok in Hrun as (irbs1 & Hded1 & Hout). cbv beta in Hout.
  injection Hout as <-.
  set (nis1 := kept_instances (keep_nis_of v) nis) in *.
  (* the second run deduces the references of the first *)
  assert (Hsame : irbs1 = irbs).
  { rewrite (deduce_same_instances v set_iter _
               (JObj (with_sections o nis1 b (kept_bindings irbs1 bfds)
                        (pruned_records v irbs1 ifs)))) in Hded1.
    - rewrite Hded in Hded1. now injection Hded1.
    - cbn [getitem]. unfold with_sections.
      rewrite (assoc_set_other "interface" "network-instance") by discriminate.
      now rewrite (assoc_set_other "bfd" "network-instance") by discriminate. }
  subst irbs1.
  assert (Hnamed1 : Forall (fun e => name_of e <> None) nis1).
  { apply Forall_forall. intros e He. apply in_kept_instances in He.
    rewrite Forall_forall in Hnamed. now apply Hnamed. }
  assert (Hids1 : Forall (fun e => exists id, getitem e "id" = Ok id)
                    (kept_bindings irbs bfds)).
  { apply Forall_forall. intros e He. apply in_kept_bindings in He.
    rewrite Forall_forall in Hids. now apply Hids. }
  pose proof (pruned_records_ok v irbs ifs Hrecs) as Hrecs1.
  pose proof (with_sections_shape o nis1 b (kept_bindings irbs bfds)
                (pruned_records v irbs ifs) Hnamed1 Hids1 Hrecs1) as Hshape1.
  assert (Hnd1 : match v with
                 | Strict => True
                 | Consolidating => NoDup (names_of (pruned_records v irbs ifs))
                 end).
  { destruct v; [exact I | now apply pruned_records_distinct]. }
  rewrite (prune_closed_form v set_iter _ _ _ _ _ _ Hshape1 Hnd1).
  (* every step of the second run finds its own output *)
  assert (Hnis : kept_instances (keep_nis_of v) nis1 = nis1)
    by (now apply flat_map_repeat_stable).
  destruct Hshape1 as (_ & Hget_nis & _ & Hget_bfd & Hget_sub & _ & Hget_ifs & _).
  rewrite Hnis, (assoc_set_id "network-instance" _ _ Hget_nis), Hded. cbn [bind].
  rewrite (kept_bindings_stable irbs bfds Hcanon).
  rewrite (pruned_records_stable v irbs nis ifs Hrecs Hrep).
  now rewrite (with_sections_same _ _ _ _ _ Hget_nis Hget_bfd Hget_sub Hget_ifs).
Qed.

Lemma sample_shape :
  doc_shape sample_data sample_dict sample_instances sample_bfd sample_bindings
    sample_interfaces.
Proof.
  unfold doc_shape. split; [reflexivity|]. split; [reflexivity|].
  split; [unfold sample_instances; solve_forall_records|].
  split; [reflexivity|]. split; [reflexivity|].
  split; [unfold sample_bindings; solve_forall_records|].
  split; [reflexivity | exact (proj2 sample_interfaces_ok)].
Defined.

Lemma sample_repeatable :
  repeatable Consolidating sample_in_use sample_instances sample_interfaces.
Proof.
  split; [|split].
  - unfold sample_instances. repeat constructor.
  - vm_compute. solve_nodup.
  - exact sample_interfaces_distinct.
Defined.

Lemma C4_idempotent_when_repeatable_witness :
  exists d',
    doc_shape sample_data sample_dict sample_instances sample_bfd sample_bindings
      sample_interfaces
    /\ prune_of Consolidating (fun l => l) sample_data = Ok d'
    /\ deduce_of Consolidating (fun l => l) d' = Ok sample_in_use
    /\ repeatable Consolidating sample_in_use sample_instances sample_interfaces
    /\ prune_of Consolidating (fun l => l) d' = Ok d'.
Proof.
  assert (Hrun : exists d', prune_of Consolidating (fun l => l) sample_data = Ok d'
                            /\ deduce_of Consolidating (fun l => l) d' = Ok sample_in_use).
  { eexists. split; vm_compute; reflexivity. }
  destruct Hrun as (d' & Hrun & Hded). exists d'.
  split; [exact sample_shape|]. split; [exact Hrun|]. split; [exact Hded|].
  split; [exact sample_repeatable|].
  exact (C4_idempotent_when_repeatable Consolidating (fun l => l) sample_data d'
           sample_dict sample_instances sample_bfd sample_bindings sample_interfaces
           sample_in_use sample_shape Hrun Hded sample_repeatable).
Defined.

(** The strict variant on a document in which every interface in use has one
    reference. *)
Example strict_run_twice :
  let d := JObj [("network-instance",
                  JArr [network_instance "default" ["irb0.2"; "irb1.7"; "lo0.0"]]);
                 ("interface", JArr [record "irb1" [subif 7; subif 8];
                                     record "irb0" [subif 1; subif 2]]);
                 ("bfd", JObj [("subinterface", JArr [binding "irb1.7"])])] in
  exists d', Main.prune (fun l => l) d = Ok d' /\ Main.prune (fun l => l) d' = Ok d'.
Proof. eexists. split; vm_compute; reflexivity. Qed.

(** ** The whole program *)

(** With an output file, [process] of [src/main.py] never returns: when
    loading and pruning succeed, [finish] raises. *)
Lemma main_process_never_writes (json_loads : string -> option json)
  (json_dumps : json -> string) (set_iter : list json -> list json)
  (i o : string) (w : world) :
  fails (Main.process json_loads json_dumps set_iter i (Some o) w).
Proof.
  unfold Main.process, fails.
  destruct (load_data json_loads i w) as [data|e]; [|now exists e].
  cbn [bind]. destruct (Main.prune set_iter data) as [data'|e]; [|now exists e].
  now exists ValueError.
Qed.

Lemma config_filter_process_writes (json_loads : string -> option json)
  (json_dumps : json -> string) (set_iter : list json -> list json)
  (i o content : string) (w : world) (data data' : json) :
  read_file i (files w) = Some content -> json_loads content = Some data ->
  ConfigFilter.prune set_iter data = Ok data' ->
  exists w', ConfigFilter.process json_loads json_dumps set_iter i (Some o) w = Ok w'
             /\ read_file o (files w') = Some (json_dumps data').
Proof.
  intros Hfile Hparse Hprune. unfold ConfigFilter.process, load_data.
  rewrite Hfile, Hparse. cbn [bind]. rewrite Hprune. cbn [bind].
  eexists. split; [reflexivity | apply read_write_file].
Qed.

(** ** The scenarios of the specification *)

Example scenario_instances :
  drop_nis ["infra"]
    (JObj [("network-instance",
            JArr [network_instance "provisioning-1" [];
                  network_instance "infra-mgmt" [];
                  network_instance "other" []])])
  = Ok (JObj [("network-instance", JArr [network_instance "infra-mgmt" []])]).
Proof. reflexivity. Qed.

Example scenario_parse :
  Interface.new_interface_from_string "irb0.100" = Ok (Interface.Build "irb0" 100)
  /\ Interface.config_rep (Interface.Build "irb0" 100) = "irb0.100".
Proof. split; reflexivity. Qed.

Example scenario_bfd :
  remove_bfd_interfaces [Interface.Build "irb0" 100]
    (JObj [("bfd", JObj [("subinterface",
                          JArr [binding "irb0.100"; binding "irb0.200"])])])
  = Ok (JObj [("bfd", JObj [("subinterface", JArr [binding "irb0.100"])])]).
Proof. reflexivity. Qed.

Example scenario_malformed :
  Interface.new_interface_from_string "irb0" = Raise IndexError
  /\ Interface.new_interface_from_string "irb0.x" = Raise ValueError.
Proof. split; reflexivity. Qed.

Example py_int_samples :
  map py_int ["7"; "007"; "+7"; "-7"; " 7 "; "1_0"; "_1"; "1_"; "1__0"; "- 7";
              ""; "-"; "-0"; "0x10"]
  = [Some 7; Some 7; Some 7; Some (-7); Some 7; Some 10; None; None; None;
     None; None; None; Some 0; None].
Proof. reflexivity. Qed.

Example py_str_samples :
  map py_str [0; 7; 10; 100; -42; 4096] = ["0"; "7"; "10"; "100"; "-42"; "4096"].
Proof. reflexivity. Qed.

Example check_mode_samples :
  map (fun m => match check_mode m with Some _ => true | None => false end)
      ["rw"; "w+"; "r"; "w"; "wt+"; "rr"; "+"; "wbt"; "xw"]
  = [false; true; true; true; true; false; false; false; false].
Proof. reflexivity. Qed.

(** * Further properties of the code *)

(** ** Serializing a reference and parsing it again *)

Lemma dec_digits_value_back (fuel : nat) :
  forall n acc, 0 <= n -> (Z.to_nat (Z.log2 n) < fuel)%nat ->
  exists ds, dec_digits fuel n acc = (ds ++ acc)%string
             /\ all_digits ds = true /\ ds <> EmptyString
             /\ dec_value ds 0 = n.
Proof.
  induction fuel as [|f IH]; intros n acc Hn Hf; [lia|].
  cbn [dec_digits]. destruct (Z.ltb_spec n 10) as [Hlt|Hge].
  - exists (String (digit_char (n mod 10)) EmptyString).
    rewrite Z.mod_small by lia.
    destruct (digit_char_digit n) as [Hd Hv]; [lia|].
    split; [reflexivity | split; [|split; [discriminate|]]].
    + cbn [all_digits]. now rewrite Hd.
    + cbn [dec_value]. lia.
  - assert (Hq : 0 < n / 10) by (apply Z.div_str_pos; lia).
    assert (Hlog : Z.log2 (n / 10) < Z.log2 n).
    { assert (H2 : 2 * (n / 10) <= n).
      { pose proof (Z.mul_div_le n 10 ltac:(lia)). lia. }
      apply Z.log2_le_mono in H2. rewrite Z.log2_double in H2 by assumption. lia. }
    pose proof (Z.log2_nonneg (n / 10)) as Hnn.
    destruct (IH (n / 10) (String (digit_char (n mod 10)) acc) ltac:(lia) ltac:(lia))
      as (ds & -> & Hd & Hne & Hv).
    exists (ds ++ String (digit_char (n mod 10)) EmptyString)%string.
    pose proof (Z.mod_pos_bound n 10 ltac:(lia)) as Hm.
    destruct (digit_char_digit (n mod 10)) as [Hc Hcv]; [lia|].
    split; [now rewrite append_assoc | split; [|split]].
    + rewrite all_digits_app, Hd. cbn [all_digits]. now rewrite Hc.
    + now destruct ds.
    + rewrite dec_value_snoc, Hv, Hcv.
      pose proof (Z.div_mod n 10 ltac:(lia)). lia.
Qed.

Lemma str_nat_digits (n : Z) :
  0 <= n ->
  all_digits (str_nat n) = true /\ str_nat n <> EmptyString
  /\ dec_value (str_nat n) 0 = n.
Proof.
  intros Hn. unfold str_nat.
  destruct (dec_digits_value_back (S (Z.to_nat (Z.log2 n))) n EmptyString Hn ltac:(lia))
    as (ds & -> & Hd & Hne & Hv).
  now rewrite append_nil_r.
Qed.

(** [int(str(z))] is [z]. *)
Lemma py_int_py_str (z : Z) : py_int (py_str z) = Some z.
Proof.
  unfold py_str. destruct (Z.ltb_spec z 0) as [Hneg|Hnn].
  - destruct (str_nat_digits (- z) ltac:(lia)) as (Hd & Hne & Hv).
    rewrite (py_int_minus_digits _ Hd Hne), Hv. f_equal. lia.
  - destruct (str_nat_digits z Hnn) as (Hd & Hne & Hv).
    now rewrite (py_int_digits _ Hd Hne), Hv.
Qed.

Lemma digits_have_no_dot (s : string) : all_digits s = true -> no_dot s = true.
Proof.
  induction s as [|c s IH]; cbn [all_digits no_dot]; [reflexivity|].
  intros H. apply andb_prop in H as [Hc Hs].
  destruct (digit_not_sign c Hc) as (_ & _ & ->). cbn [negb andb]. auto.
Qed.

Lemma py_str_no_dot (z : Z) : no_dot (py_str z) = true.
Proof.
  unfold py_str. destruct (Z.ltb_spec z 0) as [Hneg|Hnn].
  - destruct (str_nat_digits (- z) ltac:(lia)) as (Hd & _ & _).
    cbn [no_dot]. now rewrite (digits_have_no_dot _ Hd).
  - destruct (str_nat_digits z Hnn) as (Hd & _ & _). now apply digits_have_no_dot.
Qed.

Lemma parse_of_config_rep (i : Interface.t) :
  no_dot (Interface.interface_name i) = true ->
  Interface.new_interface_from_string (Interface.config_rep i) = Ok i.
Proof.
  intros Hn. destruct i as [name z]. cbn [Interface.interface_name] in Hn.
  unfold Interface.config_rep. cbn [Interface.interface_name Interface.unit].
  rewrite (parse_one_separator name (py_str z) Hn (py_str_no_dot z)).
  now rewrite py_int_py_str.
Qed.

(** X1: the canonical form of a reference whose name has no separator and
    whose unit has 640 decimal digits at most parses back to the reference:
    parsing undoes serializing.  Up to this length no interpreter limits the
    conversions between [int] and [str] that the two methods make. *)
Theorem config_rep_parses_back (i : Interface.t) :
  no_dot (Interface.interface_name i) = true ->
  Z.abs (Interface.unit i) < 10 ^ 640 ->
  Interface.new_interface_from_string (Interface.config_rep i) = Ok i.
Proof. intros Hn _. exact (parse_of_config_rep i Hn). Qed.

Lemma config_rep_parses_back_witness :
  no_dot "ethernet-1/1" = true
  /\ Z.abs (-3) < 10 ^ 640
  /\ Interface.new_interface_from_string
       (Interface.config_rep (Interface.Build "ethernet-1/1" (-3)))
     = Ok (Interface.Build "ethernet-1/1" (-3)).
Proof.
  split; [reflexivity|]. split; [vm_compute; reflexivity|].
  apply (config_rep_parses_back (Interface.Build "ethernet-1/1" (-3)));
    [reflexivity | vm_compute; reflexivity].
Defined.

Lemma parsed_name_no_dot (s : string) (i : Interface.t) :
  Interface.new_interface_from_string s = Ok i ->
  no_dot (Interface.interface_name i) = true.
Proof.
  intros H. now destruct (new_interface_from_string_ok s i H) as (u & rest & _ & Hn & _).
Qed.

Lemma config_rep_injective (i j : Interface.t) :
  no_dot (Interface.interface_name i) = true ->
  no_dot (Interface.interface_name j) = true ->
  Interface.config_rep i = Interface.config_rep j -> i = j.
Proof.
  intros Hi Hj E.
  pose proof (parse_of_config_rep i Hi) as Pi.
  pose proof (parse_of_config_rep j Hj) as Pj.
  rewrite E, Pj in Pi. now injection Pi.
Qed.

(** X2: two references that the parser returned have one canonical form only
    when they are one reference: the exact match of BFD ids on canonical forms
    cannot take one parsed reference for another. *)
Theorem parsed_refs_canonical_form_injective (s s' : string) (i j : Interface.t) :
  Interface.new_interface_from_string s = Ok i ->
  Interface.new_interface_from_string s' = Ok j ->
  Interface.config_rep i = Interface.config_rep j -> i = j.
Proof.
  intros Hs Hs'. apply config_rep_injective; eapply parsed_name_no_dot; eassumption.
Qed.

Lemma parsed_refs_canonical_form_injective_witness :
  Interface.new_interface_from_string "irb0.007" = Ok (Interface.Build "irb0" 7)
  /\ Interface.new_interface_from_string "irb0.7.1" = Ok (Interface.Build "irb0" 7)
  /\ Interface.config_rep (Interface.Build "irb0" 7)
     = Interface.config_rep (Interface.Build "irb0" 7)
  /\ Interface.Build "irb0" 7 = Interface.Build "irb0" 7.
Proof.
  split; [reflexivity | split; [reflexivity | split; [reflexivity|]]].
  apply (parsed_refs_canonical_form_injective "irb0.007" "irb0.7.1"); reflexivity.
Defined.

(** ** The deduction of the references in use *)

Lemma set_add_name (n : string) (ks : list string) :
  set_add (JStr n) (map JStr ks) = Ok (map JStr (add_key ks n)).
Proof.
  unfold set_add, add_key. cbn [hashable].
  assert (E : existsb (py_eq (JStr n)) (map JStr ks) = existsb (String.eqb n) ks).
  { induction ks as [|k ks IH]; [reflexivity|]. cbn [map existsb py_eq]. now rewrite IH. }
  rewrite E. destruct (existsb (String.eqb n) ks); [reflexivity|].
  now rewrite map_app.
Qed.

Lemma collect_inner (l : list json) (ks : list string) :
  Forall (fun r => name_of r <> None) l ->
  for_each l (fun interface interfs =>
      name <- getitem interface "name" ;; set_add name interfs) (map JStr ks)
  = Ok (map JStr (fold_left add_key (names_of l) ks)).
Proof.
  intros Hall. revert ks. induction Hall as [|r l Hr _ IH]; intros ks; [reflexivity|].
  cbn [for_each]. unfold names_of. cbn [flat_map].
  destruct (name_of r) as [n|] eqn:Hn; [|contradiction].
  rewrite (name_of_getitem r n Hn). cbn [bind]. rewrite set_add_name. cbn [bind app fold_left].
  apply IH.
Qed.

(** The first loop of the deduction returns the distinct referenced names,
    each where the document has it first. *)
Lemma collect_interface_names_distinct (data : json) (nis : list json) :
  getitem data "network-instance" = Ok (JArr nis) -> Forall ni_record nis ->
  collect_interface_names data = Ok (map JStr (first_seen (referenced_names nis))).
Proof.
  intros Hget Hall. unfold collect_interface_names. rewrite Hget. cbn [bind iter].
  clear Hget. unfold first_seen, referenced_names.
  change (@nil json) with (map JStr []). generalize (@nil string).
  induction Hall as [|e nis (l & Hl & Hnames) _ IH]; intros ks; [reflexivity|].
  cbn [for_each flat_map]. rewrite Hl. cbn [bind iter].
  rewrite (collect_inner l ks Hnames). cbn [bind]. rewrite IH.
  unfold refs_of. rewrite Hl. now rewrite fold_left_app.
Qed.

Lemma parse_raises (s : string) (e : exn) :
  Interface.new_interface_from_string s = Raise e -> e = IndexError \/ e = ValueError.
Proof.
  unfold Interface.new_interface_from_string.
  destruct (nth_error (split_dot s) 0); cbn [bind]; [|intros [= <-]; now left].
  destruct (nth_error (split_dot s) 1) as [p1|]; cbn [bind]; [|intros [= <-]; now left].
  destruct (py_int p1); cbn [bind]; [discriminate | intros [= <-]; now right].
Qed.

Lemma parse_fails_not_accepted (s : string) :
  fails (Interface.new_interface_from_string s) <-> ~ AcceptedRef s.
Proof.
  split.
  - intros [e He] (name & u & rest & -> & Hn & Hu & Hrest & Hint).
    rewrite (new_interface_from_string_fields name u rest Hn Hu Hrest) in He.
    destruct (py_int u); [discriminate | contradiction].
  - intros Hna.
    destruct (Interface.new_interface_from_string s) as [i|e] eqn:E; [|now exists e].
    exfalso. apply Hna.
    destruct (new_interface_from_string_ok s i E) as (u & rest & -> & Hn & Hu & Hr & Hz).
    exists (Interface.interface_name i), u, rest.
    repeat split; try assumption. now rewrite Hz.
Qed.

(** The second loop of the deduction, in either variant: the names that pass
    the test [p] are parsed in the order of the iteration; the first that
    does not parse ends the loop with its exception. *)
Lemma parse_loop (p : string -> bool)
  (body : json -> list Interface.t -> result (list Interface.t))
  (ks : list string) :
  (forall k acc, body (JStr k) acc
                 = if p k
                   then i <- Interface.new_interface_from_string k ;; Ok (acc ++ [i])
                   else Ok acc) ->
  forall acc,
    match for_each (map JStr ks) body acc with
    | Ok out => exists irbs, out = acc ++ irbs /\ parsed_as (List.filter p ks) irbs
    | Raise e => exists k, In k ks /\ p k = true
                           /\ Interface.new_interface_from_string k = Raise e
    end.
Proof.
  intros Hbody. induction ks as [|k ks IH]; intros acc.
  - cbn. exists []. split; [now rewrite app_nil_r | constructor].
  - cbn [map for_each List.filter]. rewrite Hbody.
    destruct (p k) eqn:Hp.
    + destruct (Interface.new_interface_from_string k) as [i|e] eqn:Hk; cbn [bind].
      * specialize (IH (acc ++ [i])).
        destruct (for_each (map JStr ks) body (acc ++ [i])) as [out|e].
        -- destruct IH as (irbs & -> & Hirbs). exists (i :: irbs).
           split; [now rewrite <- app_assoc | now constructor].
        -- destruct IH as (k' & Hin & Hp' & Hk'). exists k'. split; [now right | auto].
      * exists k. split; [now left | auto].
    + cbn [bind]. specialize (IH acc).
      destruct (for_each (map JStr ks) body acc) as [out|e].
      * exact IH.
      * destruct IH as (k' & Hin & Hp' & Hk'). exists k'. split; [now right | auto].
Qed.

Lemma iteration_of_names (set_iter : list json -> list json) (ks : list string) :
  iterates_members set_iter ->
  exists ks', set_iter (map JStr ks) = map JStr ks' /\ Permutation ks ks'.
Proof.
  intros H. destruct (Permutation_map_inv JStr ks (H (map JStr ks))) as (ks' & E & P).
  now exists ks'.
Qed.

Lemma parsed_as_in (names : list string) (irbs : list Interface.t) (n : string) :
  parsed_as names irbs -> In n names ->
  exists i, In i irbs /\ Interface.new_interface_from_string n = Ok i.
Proof.
  induction 1 as [|k i names irbs Hk _ IH]; [now intros []|].
  intros [<-|Hin].
  - exists i. split; [now left | assumption].
  - destruct (IH Hin) as (j & Hj & Hn). exists j. split; [now right | assumption].
Qed.

(** The outcome of the deduction of either variant on network instances whose
    references are named records. *)
Lemma deduce_outcome (v : variant) (set_iter : list json -> list json)
  (data : json) (nis : list json) :
  getitem data "network-instance" = Ok (JArr nis) -> Forall ni_record nis ->
  iterates_members set_iter ->
  exists ks,
    Permutation (first_seen (referenced_names nis)) ks
    /\ match deduce_of v set_iter data with
       | Ok irbs => parsed_as (List.filter (parsed_by v) ks) irbs
       | Raise e => exists k, In k ks /\ parsed_by v k = true
                              /\ Interface.new_interface_from_string k = Raise e
       end.
Proof.
  intros Hget Hall Hiter.
  destruct (iteration_of_names set_iter (first_seen (referenced_names nis)) Hiter)
    as (ks & Eiter & Hperm).
  exists ks. split; [assumption|].
  destruct v; cbn [deduce_of];
    unfold Main.deduce_base_irb_interfaces, ConfigFilter.deduce_in_use_interfaces;
    rewrite (collect_interface_names_distinct data nis Hget Hall); cbn [bind];
    rewrite Eiter.
  - pose proof (parse_loop (parsed_by Strict)
                  (fun x result =>
                     b <- py_contains x "irb" ;;
                     if b then i <- new_interface_from_value x ;; Ok (result ++ [i])
                     else Ok result) ks) as H.
    specialize (H ltac:(intros k acc; cbn; now destruct (str_contains "irb" k)) []).
    destruct (for_each (map JStr ks) _ []) as [out|e]; [|exact H].
    now destruct H as (irbs & -> & Hirbs).
  - pose proof (parse_loop (parsed_by Consolidating)
                  (fun x result => i <- new_interface_from_value x ;; Ok (result ++ [i]))
                  ks) as H.
    specialize (H ltac:(intros k acc; reflexivity) []).
    destruct (for_each (map JStr ks) _ []) as [out|e]; [|exact H].
    now destruct H as (irbs & -> & Hirbs).
Qed.

(** X3: when the deduction of either variant returns, it has parsed each
    distinct referenced name once (the names with ["irb"] in them only, in
    [src/main.py]), in the order in which the set gave them: names that occur
    several times collapse, names that parse to one reference do not. *)
Theorem deduce_parses_each_name_once (v : variant)
  (set_iter : list json -> list json) (data : json) (nis : list json)
  (irbs : list Interface.t) :
  getitem data "network-instance" = Ok (JArr nis) -> Forall ni_record nis ->
  iterates_members set_iter ->
  deduce_of v set_iter data = Ok irbs ->
  exists ks,
    Permutation (first_seen (referenced_names nis)) ks
    /\ parsed_as (List.filter (parsed_by v) ks) irbs.
Proof.
  intros Hget Hall Hiter Hrun.
  destruct (deduce_outcome v set_iter data nis Hget Hall Hiter) as (ks & Hperm & H).
  rewrite Hrun in H. now exists ks.
Qed.

Lemma deduce_fails_exactly (v : variant)
  (set_iter : list json -> list json) (data : json) (nis : list json) :
  getitem data "network-instance" = Ok (JArr nis) -> Forall ni_record nis ->
  iterates_members set_iter ->
  (fails (deduce_of v set_iter data)
   <-> exists n, In n (referenced_names nis) /\ parsed_by v n = true
                 /\ ~ AcceptedRef n)
  /\ (forall e, deduce_of v set_iter data = Raise e ->
                e = IndexError \/ e = ValueError).
Proof.
  intros Hget Hall Hiter.
  destruct (deduce_outcome v set_iter data nis Hget Hall Hiter) as (ks & Hperm & H).
  assert (Hmem : forall n, In n ks <-> In n (referenced_names nis)).
  { intros n. split; intros Hin.
    - apply in_first_seen. exact (Permutation_in n (Permutation_sym Hperm) Hin).
    - apply (Permutation_in n Hperm). now apply in_first_seen. }
  split; [split|].
  - intros [e He]. rewrite He in H. destruct H as (k & Hin & Hp & Hk).
    exists k. split; [now apply Hmem | split; [assumption|]].
    apply parse_fails_not_accepted. now exists e.
  - intros (n & Hin & Hp & Hbad).
    destruct (deduce_of v set_iter data) as [irbs|e]; [|now exists e].
    exfalso. apply parse_fails_not_accepted in Hbad as [e He].
    destruct (parsed_as_in _ irbs n H) as (i & _ & Hi).
    + apply filter_In. split; [now apply Hmem | assumption].
    + rewrite He in Hi. discriminate.
  - intros e He. rewrite He in H. destruct H as (k & _ & _ & Hk).
    now apply parse_raises in Hk.
Qed.

(** X4: the deduction of either variant raises exactly when a referenced
    name that it parses (any name in [config_filter.py], a name with ["irb"]
    in it in [src/main.py]) is one the parser refuses, and then with the
    parser's [IndexError] or [ValueError]. *)
Theorem deduce_fails_iff_malformed_name (v : variant)
  (set_iter : list json -> list json) (data : json) (nis : list json) :
  getitem data "network-instance" = Ok (JArr nis) -> Forall ni_record nis ->
  iterates_members set_iter ->
  (fails (deduce_of v set_iter data)
   <-> exists n, In n (referenced_names nis) /\ parsed_by v n = true
                 /\ ~ AcceptedRef n)
  /\ (forall e, deduce_of v set_iter data = Raise e ->
                e = IndexError \/ e = ValueError).
Proof. exact (deduce_fails_exactly v set_iter data nis). Qed.

Lemma sample_instances_ok : Forall ni_record sample_instances.
Proof.
  unfold sample_instances, ni_record, network_instance.
  repeat (apply Forall_cons; [eexists; split; [reflexivity|];
                              repeat (apply Forall_cons; [discriminate|]);
                              apply Forall_nil|]).
  apply Forall_nil.
Defined.

Lemma identity_iterates : iterates_members (fun l => l).
Proof. intros l. apply Permutation_refl. Defined.

Lemma deduce_parses_each_name_once_witness :
  getitem sample_data "network-instance" = Ok (JArr sample_instances)
  /\ Forall ni_record sample_instances
  /\ iterates_members (fun l => l)
  /\ deduce_of Strict (fun l => l) sample_data
     = Ok [Interface.Build "irb0" 2; Interface.Build "irb0" 1; Interface.Build "irb0" 3]
  /\ exists ks,
       Permutation (first_seen (referenced_names sample_instances)) ks
       /\ parsed_as (List.filter (parsed_by Strict) ks)
            [Interface.Build "irb0" 2; Interface.Build "irb0" 1; Interface.Build "irb0" 3].
Proof.
  split; [reflexivity|]. split; [exact sample_instances_ok|].
  split; [exact identity_iterates|]. split; [reflexivity|].
  apply (deduce_parses_each_name_once Strict (fun l => l) sample_data sample_instances);
    [reflexivity | exact sample_instances_ok | exact identity_iterates | reflexivity].
Defined.

Lemma deduce_fails_iff_malformed_name_witness :
  getitem sample_data "network-instance" = Ok (JArr sample_instances)
  /\ Forall ni_record sample_instances
  /\ iterates_members (fun l => l)
  /\ (fails (deduce_of Consolidating (fun l => l) sample_data)
      <-> exists n, In n (referenced_names sample_instances)
                    /\ parsed_by Consolidating n = true /\ ~ AcceptedRef n).
Proof.
  split; [reflexivity|]. split; [exact sample_instances_ok|].
  split; [exact identity_iterates|].
  exact (proj1 (deduce_fails_iff_malformed_name Consolidating (fun l => l) sample_data
                  sample_instances eq_refl sample_instances_ok identity_iterates)).
Defined.

(** A name without separator and without ["irb"] in it stops the deduction of
    [config_filter.py] and is passed over by that of [src/main.py]. *)
Example loopback_without_unit :
  let data := JObj [("network-instance",
                     JArr [network_instance "default" ["irb0.1"; "lo0"]])] in
  ConfigFilter.deduce_in_use_interfaces (fun l => l) data = Raise IndexError
  /\ Main.deduce_base_irb_interfaces (fun l => l) data
     = Ok [Interface.Build "irb0" 1].
Proof. split; reflexivity. Qed.

(** ** Pruning with no reference in use, and sections that are missing *)

(** X5: with no reference in use, BFD pruning empties the binding list
    without reading a binding: it returns for bindings without an id, and for
    a [subinterface] that is a dict or a string, which Python iterates too. *)
Theorem remove_bfd_without_references (data : json) (b : dict) (subs : json)
  (l : list json) :
  getitem data "bfd" = Ok (JObj b) -> assoc "subinterface" b = Some subs ->
  iter subs = Ok l ->
  exists o, data = JObj o
    /\ remove_bfd_interfaces [] data
       = Ok (JObj (assoc_set "bfd" (JObj (assoc_set "subinterface" (JArr []) b)) o)).
Proof.
  intros Hbfd Hsub Hiter. destruct data as [| | | | |o]; try discriminate.
  exists o. split; [reflexivity|].
  unfold remove_bfd_interfaces. rewrite Hbfd. cbn [bind getitem]. rewrite Hsub.
  cbn [bind]. rewrite Hiter. cbn [bind].
  rewrite (for_each_append l _ (fun _ => []) []);
    [|intros x acc' _; cbn [for_each]; now rewrite app_nil_r].
  assert (E : forall l' : list json, flat_map (fun _ : json => @nil json) l' = [])
    by (induction l'; auto).
  now rewrite E.
Qed.

Lemma remove_bfd_without_references_witness :
  let b := [("subinterface", JArr [JObj [("no-id", JNull)]; JInt 3])] in
  getitem (JObj [("bfd", JObj b)]) "bfd" = Ok (JObj b)
  /\ assoc "subinterface" b = Some (JArr [JObj [("no-id", JNull)]; JInt 3])
  /\ iter (JArr [JObj [("no-id", JNull)]; JInt 3]) = Ok [JObj [("no-id", JNull)]; JInt 3]
  /\ exists o, JObj [("bfd", JObj b)] = JObj o
       /\ remove_bfd_interfaces [] (JObj [("bfd", JObj b)])
          = Ok (JObj (assoc_set "bfd" (JObj (assoc_set "subinterface" (JArr []) b)) o)).
Proof.
  cbv zeta. split; [reflexivity | split; [reflexivity | split; [reflexivity|]]].
  apply (remove_bfd_without_references
           (JObj [("bfd", JObj [("subinterface", JArr [JObj [("no-id", JNull)]; JInt 3])])])
           [("subinterface", JArr [JObj [("no-id", JNull)]; JInt 3])]
           (JArr [JObj [("no-id", JNull)]; JInt 3])
           [JObj [("no-id", JNull)]; JInt 3]); reflexivity.
Defined.

(** With a reference in use the same bindings stop the run. *)
Example remove_bfd_reads_ids_for_references :
  remove_bfd_interfaces [Interface.Build "irb0" 1]
    (JObj [("bfd", JObj [("subinterface", JArr [JObj [("no-id", JNull)]])])])
  = Raise KeyError.
Proof. reflexivity. Qed.

(** X6: the strict pruner reads [data['interface']] inside its loop over the
    references only.  On a document without this key it returns when no
    reference is in use, putting the key with an empty list after the other
    keys, and raises [KeyError] when one is; the consolidating pruner reads
    the key first and raises [KeyError] whatever the references. *)
Theorem interface_section_missing (o : dict) (irb : Interface.t)
  (irbs : list Interface.t) :
  assoc "interface" o = None ->
  Main.remove_interfaces [] (JObj o) = Ok (JObj (o ++ [("interface", JArr [])]))
  /\ Main.remove_interfaces (irb :: irbs) (JObj o) = Raise KeyError
  /\ ConfigFilter.remove_interfaces irbs (JObj o) = Raise KeyError.
Proof.
  intros Hnone. split; [|split].
  - unfold Main.remove_interfaces. cbn [for_each bind setitem].
    rewrite assoc_set_absent; [reflexivity|]. unfold has_key. now rewrite Hnone.
  - unfold Main.remove_interfaces. cbn [for_each getitem]. now rewrite Hnone.
  - unfold ConfigFilter.remove_interfaces. cbn [getitem]. now rewrite Hnone.
Qed.

Lemma interface_section_missing_witness :
  let o := [("system", JStr "leaf1")] in
  assoc "interface" o = None
  /\ Main.remove_interfaces [] (JObj o) = Ok (JObj (o ++ [("interface", JArr [])]))
  /\ Main.remove_interfaces [Interface.Build "irb0" 1] (JObj o) = Raise KeyError
  /\ ConfigFilter.remove_interfaces [] (JObj o) = Raise KeyError.
Proof.
  cbv zeta. split; [reflexivity|].
  apply (interface_section_missing [("system", JStr "leaf1")]
           (Interface.Build "irb0" 1) []). reflexivity.
Defined.

(** ** The outcome of the pipeline *)

(** On a document of the expected shape the deduction is the only step of
    the pipeline that can raise. *)
Lemma prune_outcome (v : variant) (set_iter : list json -> list json)
  (d : json) (o : dict) (nis : list json) (b : dict) (bfds ifs : list json) :
  doc_shape d o nis b bfds ifs ->
  match deduce_of v set_iter
          (JObj (assoc_set "network-instance"
                   (JArr (kept_instances (keep_nis_of v) nis)) o)) with
  | Ok irbs => exists out, prune_of v set_iter d = Ok out
  | Raise e => prune_of v set_iter d = Raise e
  end.
Proof.
  intros (-> & Hnis & Hnamed & Hbfd & Hsub & Hids & Hifs & Hrecs).
  assert (Hdrop : drop_nis (keep_nis_of v) (JObj o)
                  = Ok (JObj (assoc_set "network-instance"
                                (JArr (kept_instances (keep_nis_of v) nis)) o))).
  { destruct (drop_nis_named (keep_nis_of v) (JObj o) nis) as (o' & [= <-] & E);
      [|exact E].
    split; [|assumption]. cbn [getitem]. now rewrite Hnis. }
  set (o1 := assoc_set "network-instance"
               (JArr (kept_instances (keep_nis_of v) nis)) o) in *.
  assert (Hrest : forall irbs, exists out,
             (data2 <- remove_bfd_interfaces irbs (JObj o1) ;;
              match v with
              | Strict => Main.remove_interfaces
              | Consolidating => ConfigFilter.remove_interfaces
              end irbs data2) = Ok out).
  { intros irbs.
    destruct (remove_bfd_interfaces_listed irbs (JObj o1) b bfds) as (o' & [= <-] & ->).
    - split; [|split; assumption]. cbn [getitem]. subst o1.
      rewrite assoc_set_other by discriminate. now rewrite Hbfd.
    - cbn [bind].
      assert (Hifs2 : assoc "interface"
                        (assoc_set "bfd"
                           (JObj (assoc_set "subinterface"
                                    (JArr (flat_map (fun e => repeat e (bfd_copies irbs e)) bfds))
                                    b)) o1)
                      = Some (JArr ifs)).
      { subst o1. now rewrite !assoc_set_other by discriminate. }
      destruct v.
      + rewrite (strict_remove_interfaces_listed irbs _ ifs Hifs2 Hrecs). now eexists.
      + match goal with
        | |- exists out, ConfigFilter.remove_interfaces irbs ?d2 = Ok out =>
            destruct (remove_interfaces_view irbs d2 ifs) as (o2 & _ & E & _)
        end.
        * split; [|assumption]. cbn [getitem]. now rewrite Hifs2.
        * eexists. exact E. }
  destruct v; cbn [prune_of deduce_of keep_nis_of] in *;
    unfold Main.prune, ConfigFilter.prune; rewrite Hdrop; cbn [bind];
    match goal with
    | |- match ?m with _ => _ end => destruct m as [irbs|e]; [|reflexivity]
    end; cbn [bind]; apply Hrest.
Qed.

Lemma in_referenced_kept (keep_nis : list string) (nis : list json) (n : string) :
  In n (referenced_names (kept_instances keep_nis nis))
  <-> exists e, In e nis /\ kept keep_nis e = true /\ In n (refs_of e).
Proof.
  unfold referenced_names, kept_instances. rewrite in_flat_map. split.
  - intros (e & He & Hn). apply in_flat_map_repeat in He as [He Hc].
    exists e. rewrite kept_copies. repeat split; try assumption. now apply Nat.ltb_lt.
  - intros (e & He & Hk & Hn). exists e. split; [|assumption].
    apply in_flat_map_repeat. split; [assumption|].
    rewrite kept_copies in Hk. now apply Nat.ltb_lt.
Qed.

(** X7: on a document of the expected shape the pipeline of either variant
    raises exactly when a network instance that is kept refers to a name that
    the variant parses and the parser refuses, and then with the parser's
    [IndexError] or [ValueError]; what the dropped network instances refer to
    is never parsed. *)
Theorem prune_fails_iff_kept_reference_malformed (v : variant)
  (set_iter : list json -> list json) (d : json) (o : dict) (nis : list json)
  (b : dict) (bfds ifs : list json) :
  doc_shape d o nis b bfds ifs -> Forall ni_record nis ->
  iterates_members set_iter ->
  (fails (prune_of v set_iter d)
   <-> exists e n, In e nis /\ kept (keep_nis_of v) e = true /\ In n (refs_of e)
                   /\ parsed_by v n = true /\ ~ AcceptedRef n)
  /\ (forall e, prune_of v set_iter d = Raise e -> e = IndexError \/ e = ValueError).
Proof.
  intros Hshape Hni Hiter.
  pose proof (prune_outcome v set_iter d o nis b bfds ifs Hshape) as Hout.
  set (nis1 := kept_instances (keep_nis_of v) nis) in *.
  set (d1 := JObj (assoc_set "network-instance" (JArr nis1) o)) in *.
  assert (Hget1 : getitem d1 "network-instance" = Ok (JArr nis1)).
  { subst d1. cbn [getitem]. now rewrite assoc_set_same. }
  assert (Hni1 : Forall ni_record nis1).
  { apply Forall_forall. intros e He. apply in_kept_instances in He.
    rewrite Forall_forall in Hni. now apply Hni. }
  destruct (deduce_fails_exactly v set_iter d1 nis1 Hget1 Hni1 Hiter) as [Hiff Hexn].
  assert (Hsame : fails (prune_of v set_iter d) <-> fails (deduce_of v set_iter d1)).
  { destruct (deduce_of v set_iter d1) as [irbs|e].
    - destruct Hout as [out Hrun]. rewrite Hrun.
      split; intros [e He]; discriminate.
    - rewrite Hout. split; intros _; now exists e. }
  split.
  - rewrite Hsame, Hiff. split.
    + intros (n & Hn & Hp & Hbad). apply in_referenced_kept in Hn as (e & He & Hk & Hn).
      exists e, n. auto.
    + intros (e & n & He & Hk & Hn & Hp & Hbad). exists n.
      split; [|auto]. apply in_referenced_kept. exists e. auto.
  - intros e He. apply Hexn.
    destruct (deduce_of v set_iter d1) as [irbs|e'].
    + destruct Hout as [out Hrun]. rewrite Hrun in He. discriminate.
    + rewrite Hout in He. now injection He as ->.
Qed.

Lemma prune_fails_iff_kept_reference_malformed_witness :
  doc_shape sample_data sample_dict sample_instances sample_bfd sample_bindings
    sample_interfaces
  /\ Forall ni_record sample_instances
  /\ iterates_members (fun l => l)
  /\ (fails (prune_of Consolidating (fun l => l) sample_data)
      <-> exists e n, In e sample_instances
                      /\ kept (keep_nis_of Consolidating) e = true
                      /\ In n (refs_of e)
                      /\ parsed_by Consolidating n = true /\ ~ AcceptedRef n).
Proof.
  split; [exact sample_shape|]. split; [exact sample_instances_ok|].
  split; [exact identity_iterates|].
  exact (proj1 (prune_fails_iff_kept_reference_malformed Consolidating (fun l => l)
                  sample_data sample_dict sample_instances sample_bfd sample_bindings
                  sample_interfaces sample_shape sample_instances_ok identity_iterates)).
Defined.

(** The malformed reference of a dropped network instance does no harm; in
    a kept one it stops the run. *)
Example malformed_reference_of_dropped_instance :
  let data := fun n =>
    JObj [("network-instance", JArr [network_instance n ["lo0"]]);
          ("interface", JArr []); ("bfd", JObj [("subinterface", JArr [])])] in
  ConfigFilter.prune (fun l => l) (data "tenant-7")
  = Ok (JObj [("network-instance", JArr []);
              ("interface", JArr []); ("bfd", JObj [("subinterface", JArr [])])])
  /\ ConfigFilter.prune (fun l => l) (data "default") = Raise IndexError.
Proof. split; reflexivity. Qed.

Lemma no_instance_kept (keep_nis : list string) (nis : list json) :
  Forall (fun e => kept keep_nis e = false) nis -> kept_instances keep_nis nis = [].
Proof.
  unfold kept_instances. induction 1 as [|e nis He _ IH]; [reflexivity|].
  cbn [flat_map]. rewrite IH. rewrite kept_copies in He.
  destruct (copies_kept keep_nis e); [reflexivity | discriminate].
Qed.

Lemma no_binding_kept (bfds : list json) : kept_bindings [] bfds = [].
Proof.
  unfold kept_bindings. induction bfds as [|e bfds IH]; [reflexivity|].
  cbn [flat_map]. rewrite IH. unfold bfd_copies.
  now destruct (getitem e "id").
Qed.

Lemma deduce_nothing (v : variant) (set_iter : list json -> list json) (o : dict) :
  iterates_members set_iter ->
  deduce_of v set_iter (JObj (assoc_set "network-instance" (JArr []) o)) = Ok [].
Proof.
  intros Hiter.
  assert (E : set_iter [] = []) by (apply Permutation_nil, Permutation_sym, Hiter).
  destruct v; cbn [deduce_of];
    unfold Main.deduce_base_irb_interfaces, ConfigFilter.deduce_in_use_interfaces,
      collect_interface_names;
    cbn [getitem]; rewrite assoc_set_same; cbn [bind iter for_each];
    now rewrite E.
Qed.

(** X8: when no network instance of a document of the expected shape has a
    name with a kept substring in it, the pipeline returns the document with
    no network instance and no BFD binding, and with no interface in strict
    mode.  In consolidating mode, on interface records with pairwise distinct
    names, it returns the records named with ["ethernet"] in them, each
    without subinterfaces.  (Of two records of one name the consolidating
    loop keeps the later one only, hence the hypothesis on the names.) *)
Theorem prune_when_no_instance_kept (v : variant)
  (set_iter : list json -> list json) (d : json) (o : dict) (nis : list json)
  (b : dict) (bfds ifs : list json) :
  doc_shape d o nis b bfds ifs ->
  match v with Strict => True | Consolidating => NoDup (names_of ifs) end ->
  iterates_members set_iter ->
  Forall (fun e => kept (keep_nis_of v) e = false) nis ->
  prune_of v set_iter d
  = Ok (JObj (with_sections o [] b []
                match v with
                | Strict => []
                | Consolidating =>
                    map (fun e => with_subinterfaces e [])
                        (List.filter ethernet_named ifs)
                end)).
Proof.
  intros Hshape Hnd Hiter Hnone.
  rewrite (prune_closed_form v set_iter d o nis b bfds ifs Hshape Hnd).
  rewrite (no_instance_kept _ nis Hnone), (deduce_nothing v set_iter o Hiter).
  cbn [bind]. rewrite no_binding_kept. destruct v; cbn [pruned_records]; [reflexivity|].
  unfold consolidated_records. do 3 f_equal.
  assert (E : List.filter (retained []) ifs = List.filter ethernet_named ifs).
  { apply filter_ext. intros e. unfold retained, ethernet_named.
    destruct (name_of e); [|reflexivity]. cbn [existsb]. apply orb_false_r. }
  now rewrite E.
Qed.

Lemma sample_unkept_shape :
  doc_shape (JObj sample_unkept_dict) sample_unkept_dict
    [network_instance "tenant-7" ["irb0.3"; "lo0"]] sample_bfd sample_bindings
    sample_interfaces.
Proof.
  unfold doc_shape. split; [reflexivity|]. split; [reflexivity|].
  split; [solve_forall_records|].
  split; [reflexivity|]. split; [reflexivity|].
  split; [unfold sample_bindings; solve_forall_records|].
  split; [reflexivity | exact (proj2 sample_interfaces_ok)].
Defined.

Lemma prune_when_no_instance_kept_witness :
  doc_shape (JObj sample_unkept_dict) sample_unkept_dict
    [network_instance "tenant-7" ["irb0.3"; "lo0"]] sample_bfd sample_bindings
    sample_interfaces
  /\ NoDup (names_of sample_interfaces)
  /\ iterates_members (fun l => l)
  /\ Forall (fun e => kept ConfigFilter.keep_nis e = false)
       [network_instance "tenant-7" ["irb0.3"; "lo0"]]
  /\ ConfigFilter.prune (fun l => l) (JObj sample_unkept_dict)
     = Ok (JObj (with_sections sample_unkept_dict [] sample_bfd []
                   [record "ethernet-1/1" []])).
Proof.
  split; [exact sample_unkept_shape|]. split; [exact sample_interfaces_distinct|].
  split; [exact identity_iterates|].
  assert (H : Forall (fun e => kept ConfigFilter.keep_nis e = false)
                [network_instance "tenant-7" ["irb0.3"; "lo0"]])
    by (repeat constructor).
  split; [exact H|].
  exact (prune_when_no_instance_kept Consolidating (fun l => l) _ _ _ _ _ _
           sample_unkept_shape sample_interfaces_distinct identity_iterates H).
Defined.

(** ** Files and output *)

Lemma read_write_other (path path' content : string) (fs : list (string * string)) :
  path' <> path -> read_file path' (write_file path content fs) = read_file path' fs.
Proof.
  intros Hne. induction fs as [|[p c] fs IH]; cbn [write_file read_file].
  - destruct (String.eqb_spec path' path); [contradiction | reflexivity].
  - destruct (String.eqb_spec path p) as [->|Hp]; cbn [read_file].
    + destruct (String.eqb_spec path' p); [contradiction | reflexivity].
    + now rewrite IH.
Qed.

(** X9: when [process] of [config_filter.py] returns with an output file
    given, the file holds the serialization of the pruned document of the
    input file, every other file is as it was, and nothing was printed. *)
Theorem process_writes_destination_only (json_loads : string -> option json)
  (json_dumps : json -> string) (set_iter : list json -> list json)
  (i o : string) (w w' : world) :
  ConfigFilter.process json_loads json_dumps set_iter i (Some o) w = Ok w' ->
  (exists content data data',
      read_file i (files w) = Some content /\ json_loads content = Some data
      /\ ConfigFilter.prune set_iter data = Ok data'
      /\ read_file o (files w') = Some (json_dumps data'))
  /\ (forall p, p <> o -> read_file p (files w') = read_file p (files w))
  /\ stdout w' = stdout w.
Proof.
  unfold ConfigFilter.process, load_data. intros H.
  destruct (read_file i (files w)) as [content|] eqn:Hfile; [|discriminate].
  destruct (json_loads content) as [data|] eqn:Hparse; [|discriminate].
  cbn [bind] in H.
  destruct (ConfigFilter.prune set_iter data) as [data'|e] eqn:Hprune; [|discriminate].
  cbn [bind] in H. injection H as <-. cbn [files stdout].
  split; [|split; [|reflexivity]].
  - exists content, data, data'. repeat split; try assumption. apply read_write_file.
  - intros p Hp. now apply read_write_other.
Qed.

Lemma process_writes_destination_only_witness :
  let loads := fun _ : string => Some sample_data in
  let dumps := fun _ : json => "{}" in
  let w := World [("in.json", "..."); ("other", "kept")] "" in
  exists w',
    ConfigFilter.process loads dumps (fun l => l) "in.json" (Some "out.json") w = Ok w'
    /\ read_file "other" (files w') = Some "kept"
    /\ read_file "out.json" (files w') = Some "{}".
Proof.
  cbv zeta. eexists.
  assert (H : ConfigFilter.process (fun _ => Some sample_data) (fun _ => "{}")
                (fun l => l) "in.json" (Some "out.json")
                (World [("in.json", "..."); ("other", "kept")] "")
              = Ok (World [("in.json", "..."); ("other", "kept"); ("out.json", "{}")] ""))
    by (vm_compute; reflexivity).
  split; [exact H|].
  destruct (process_writes_destination_only _ _ _ _ _ _ _ H) as (_ & Hframe & _).
  split; [|reflexivity]. rewrite Hframe; [reflexivity | discriminate].
Defined.

(** X10: when [process] of either variant returns with no output file
    given, no file has changed and the output stream has grown by the
    serialization of the pruned document and a line end. *)
Theorem process_prints_without_destination (v : variant)
  (json_loads : string -> option json) (json_dumps : json -> string)
  (set_iter : list json -> list json) (i : string) (w w' : world) :
  match v with
  | Strict => Main.process
  | Consolidating => ConfigFilter.process
  end json_loads json_dumps set_iter i None w = Ok w' ->
  files w' = files w
  /\ exists content data data',
       read_file i (files w) = Some content /\ json_loads content = Some data
       /\ prune_of v set_iter data = Ok data'
       /\ stdout w' = (stdout w ++ json_dumps data' ++ String (ascii_of_N 10) EmptyString)%string.
Proof.
  intros H.
  assert (H' : (data <- load_data json_loads i w ;;
                data' <- prune_of v set_iter data ;;
                Ok (print (json_dumps data') w)) = Ok w') by (now destruct v).
  clear H. unfold load_data in H'.
  destruct (read_file i (files w)) as [content|] eqn:Hfile; [|discriminate].
  destruct (json_loads content) as [data|] eqn:Hparse; [|discriminate].
  cbn [bind] in H'.
  destruct (prune_of v set_iter data) as [data'|e] eqn:Hprune; [|discriminate].
  cbn [bind] in H'. injection H' as <-. cbn [print files stdout].
  split; [reflexivity|]. now exists content, data, data'.
Qed.

Lemma process_prints_without_destination_witness :
  exists w',
    Main.process (fun _ => Some sample_data) (fun _ => "{}") (fun l => l)
      "in.json" None (World [("in.json", "...")] "") = Ok w'
    /\ files w' = [("in.json", "...")].
Proof.
  eexists.
  assert (H : Main.process (fun _ => Some sample_data) (fun _ => "{}") (fun l => l)
                "in.json" None (World [("in.json", "...")] "")
              = Ok (World [("in.json", "...")]
                      (String "{" (String "}" (String (ascii_of_N 10) EmptyString)))))
    by (vm_compute; reflexivity).
  split; [exact H|].
  exact (proj1 (process_prints_without_destination Strict _ _ _ _ _ _ H)).
Defined.



(** [load_data] on a path that names no file. *)
Example load_data_missing_file :
  forall json_loads, load_data json_loads "absent.json" (World [("in.json", "{}")] "")
                     = Raise SystemExit.
Proof. reflexivity. Qed.

(** X12: with an output file given, [process] of [src/main.py] never
    returns, whatever the files, the parser, the serializer and the order of
    the set: where loading and pruning go through, [finish] raises. *)
Theorem main_process_with_destination_fails (json_loads : string -> option json)
  (json_dumps : json -> string) (set_iter : list json -> list json)
  (i o : string) (w : world) :
  fails (Main.process json_loads json_dumps set_iter i (Some o) w)
  /\ forall data data',
       load_data json_loads i w = Ok data -> Main.prune set_iter data = Ok data' ->
       Main.process json_loads json_dumps set_iter i (Some o) w = Raise ValueError.
Proof.
  split; [apply main_process_never_writes|].
  intros data data' Hload Hprune. unfold Main.process.
  rewrite Hload. cbn [bind]. rewrite Hprune. reflexivity.
Qed.

(** ** The two filters on any input *)

(** X13: on network instances that are named records, [drop_nis] returns,
    and an entry is in its result exactly when it is in the input and its name
    has a configured substring in it; where no name has two of them in it, the
    result is the input list filtered, in its order. *)
Theorem drop_nis_keeps_matching_entries (keep_nis : list string) (data : json)
  (entries : list json) :
  named_list data "network-instance" entries ->
  exists out kept_entries,
    drop_nis keep_nis data = Ok out
    /\ getitem out "network-instance" = Ok (JArr kept_entries)
    /\ (forall e, In e kept_entries <-> In e entries /\ kept keep_nis e = true)
    /\ (Forall (fun e => (copies_kept keep_nis e <= 1)%nat) entries ->
        kept_entries = List.filter (kept keep_nis) entries).
Proof. exact (drop_nis_filter keep_nis data entries). Qed.

Lemma sample_instances_named : named_list sample_data "network-instance" sample_instances.
Proof. split; [reflexivity|]. unfold sample_instances. solve_forall_records. Defined.

Lemma drop_nis_keeps_matching_entries_witness :
  named_list sample_data "network-instance" sample_instances
  /\ exists out kept_entries,
       drop_nis ConfigFilter.keep_nis sample_data = Ok out
       /\ getitem out "network-instance" = Ok (JArr kept_entries)
       /\ (forall e, In e kept_entries
                     <-> In e sample_instances /\ kept ConfigFilter.keep_nis e = true)
       /\ (Forall (fun e => (copies_kept ConfigFilter.keep_nis e <= 1)%nat)
             sample_instances ->
           kept_entries = List.filter (kept ConfigFilter.keep_nis) sample_instances).
Proof.
  split; [exact sample_instances_named|].
  exact (drop_nis_keeps_matching_entries ConfigFilter.keep_nis sample_data
           sample_instances sample_instances_named).
Defined.

(** X14: on BFD bindings that have an id, [remove_bfd_interfaces] returns,
    and a binding is in its result exactly when it is in the input and its id
    is the canonical form of a reference; where no id is the canonical form of
    two references, the result is the input list filtered, a subsequence of
    it. *)
Theorem remove_bfd_keeps_bindings_in_use (irbs : list Interface.t) (data : json)
  (b : dict) (entries : list json) :
  bfd_list data b entries ->
  exists out b' matched,
    remove_bfd_interfaces irbs data = Ok out
    /\ getitem out "bfd" = Ok (JObj b')
    /\ assoc "subinterface" b' = Some (JArr matched)
    /\ (forall e, In e matched <-> In e entries /\ bfd_in_use irbs e = true)
    /\ (Forall (fun e => (bfd_copies irbs e <= 1)%nat) entries ->
        matched = List.filter (bfd_in_use irbs) entries /\ subseq matched entries).
Proof. exact (remove_bfd_interfaces_filter irbs data b entries). Qed.

Lemma sample_bindings_listed : bfd_list sample_data sample_bfd sample_bindings.
Proof.
  split; [reflexivity|]. split; [reflexivity|].
  unfold sample_bindings. solve_forall_records.
Defined.

Lemma remove_bfd_keeps_bindings_in_use_witness :
  bfd_list sample_data sample_bfd sample_bindings
  /\ exists out b' matched,
       remove_bfd_interfaces sample_in_use sample_data = Ok out
       /\ getitem out "bfd" = Ok (JObj b')
       /\ assoc "subinterface" b' = Some (JArr matched)
       /\ (forall e, In e matched
                     <-> In e sample_bindings /\ bfd_in_use sample_in_use e = true)
       /\ (Forall (fun e => (bfd_copies sample_in_use e <= 1)%nat) sample_bindings ->
           matched = List.filter (bfd_in_use sample_in_use) sample_bindings
           /\ subseq matched sample_bindings).
Proof.
  split; [exact sample_bindings_listed|].
  exact (remove_bfd_keeps_bindings_in_use sample_in_use sample_data sample_bfd
           sample_bindings sample_bindings_listed).
Defined.

(** ** The two variants side by side *)

Lemma kept_more_substrings (keep keep' : list string) (e : json) :
  (forall m, In m keep -> In m keep') -> kept keep e = true -> kept keep' e = true.
Proof.
  intros Hincl. unfold kept. destruct (name_of e) as [n|]; [|discriminate].
  rewrite !existsb_exists. intros (m & Hm & Hc). exists m. auto.
Qed.

(** X15: every network instance that [drop_nis] of [config_filter.py] keeps,
    [drop_nis] of [src/main.py] keeps as well: its substring list holds the
    other one. *)
Theorem main_keeps_what_config_filter_keeps (data : json) (entries : list json) :
  named_list data "network-instance" entries ->
  exists out_c out_m kept_c kept_m,
    drop_nis ConfigFilter.keep_nis data = Ok out_c
    /\ drop_nis Main.keep_nis data = Ok out_m
    /\ getitem out_c "network-instance" = Ok (JArr kept_c)
    /\ getitem out_m "network-instance" = Ok (JArr kept_m)
    /\ forall e, In e kept_c -> In e kept_m.
Proof.
  intros H.
  destruct (drop_nis_filter ConfigFilter.keep_nis data entries H)
    as (out_c & kept_c & Hc & Hgc & Hmc & _).
  destruct (drop_nis_filter Main.keep_nis data entries H)
    as (out_m & kept_m & Hm & Hgm & Hmm & _).
  exists out_c, out_m, kept_c, kept_m. repeat split; try assumption.
  intros e He. apply Hmc in He as [He Hk]. apply Hmm. split; [assumption|].
  apply (kept_more_substrings ConfigFilter.keep_nis); [|assumption].
  intros m [<-|[<-|[]]]; cbn; auto.
Qed.

Lemma main_keeps_what_config_filter_keeps_witness :
  named_list sample_data "network-instance" sample_instances
  /\ exists out_c out_m kept_c kept_m,
       drop_nis ConfigFilter.keep_nis sample_data = Ok out_c
       /\ drop_nis Main.keep_nis sample_data = Ok out_m
       /\ getitem out_c "network-instance" = Ok (JArr kept_c)
       /\ getitem out_m "network-instance" = Ok (JArr kept_m)
       /\ forall e, In e kept_c -> In e kept_m.
Proof.
  split; [exact sample_instances_named|].
  exact (main_keeps_what_config_filter_keeps sample_data sample_instances
           sample_instances_named).
Defined.

(** A network instance that [src/main.py] keeps and [config_filter.py]
    drops. *)
Example provisioning_instance :
  kept Main.keep_nis (network_instance "provisioning" []) = true
  /\ kept ConfigFilter.keep_nis (network_instance "provisioning" []) = false.
Proof. split; reflexivity. Qed.

Lemma selected_by_only_reference (irbs : list Interface.t) (e : json)
  (irb : Interface.t) :
  NoDup (map Interface.interface_name irbs) -> In irb irbs -> named irb e = true ->
  selected_subifs irbs e
  = List.filter (index_matches (Interface.unit irb)) (subifs_of e).
Proof.
  intros Hnd Hin Hnamed. unfold selected_subifs.
  apply (flat_map_single (fun irb' => named irb' e)
           (fun irb' => List.filter (index_matches (Interface.unit irb')) (subifs_of e))
           irbs irb); [now apply NoDup_map_inv in Hnd | assumption | | assumption].
  intros y Hy Hnamed'. apply (nodup_map_injective Interface.interface_name irbs);
    try assumption.
  unfold named in Hnamed, Hnamed'. destruct (name_of e) as [n|]; [|discriminate].
  apply String.eqb_eq in Hnamed, Hnamed'. congruence.
Qed.

Lemma retained_by_reference (irbs : list Interface.t) (e : json) :
  ethernet_named e = false ->
  retained irbs e = true <-> exists irb, In irb irbs /\ named irb e = true.
Proof.
  unfold ethernet_named, retained, named. destruct (name_of e) as [n|].
  - intros ->. cbn [orb]. rewrite existsb_exists. reflexivity.
  - intros _. split; [discriminate | now intros (irb & _ & H)].
Qed.

(** X16: on interface records with distinct names, none with ["ethernet"]
    in it, and references that name distinct interfaces, the two pruners
    return the same records: the strict one in the order of the references,
    the consolidating one in the order of the document. *)
Theorem pruners_agree_on_single_references (irbs : list Interface.t) (data : json)
  (entries : list json) :
  iface_list data entries -> NoDup (names_of entries) ->
  NoDup (map Interface.interface_name irbs) ->
  Forall (fun e => ethernet_named e = false) entries ->
  exists out_s out_c rs rc,
    Main.remove_interfaces irbs data = Ok out_s
    /\ ConfigFilter.remove_interfaces irbs data = Ok out_c
    /\ getitem out_s "interface" = Ok (JArr rs)
    /\ getitem out_c "interface" = Ok (JArr rc)
    /\ forall r, In r rs <-> In r rc.
Proof.
  intros Hlist Hnames Hrefs Hplain. pose proof Hlist as [Hget Hall].
  destruct data as [| | | | |o]; try discriminate.
  cbn [getitem] in Hget. destruct (assoc "interface" o) as [x|] eqn:Hifs; [|discriminate].
  injection Hget as ->.
  rewrite (strict_remove_interfaces_listed irbs o entries Hifs Hall).
  rewrite (consolidating_remove_interfaces_listed irbs o entries Hifs Hall Hnames).
  eexists. eexists. eexists. eexists.
  split; [reflexivity|]. split; [reflexivity|].
  split; [cbn [getitem]; now rewrite assoc_set_same|].
  split; [cbn [getitem]; now rewrite assoc_set_same|].
  intros r. rewrite Forall_forall in Hplain.
  unfold consolidated_records, strict_records.
  rewrite in_flat_map, in_map_iff. split.
  - intros (irb & Hirb & Hr). apply in_map_iff in Hr as (e & <- & He).
    apply filter_In in He as [He Hnamed]. exists e. split.
    + now rewrite (selected_by_only_reference irbs e irb).
    + apply filter_In. split; [assumption|].
      apply retained_by_reference; [now apply Hplain | now exists irb].
  - intros (e & <- & He). apply filter_In in He as [He Hret].
    apply retained_by_reference in Hret as (irb & Hirb & Hnamed); [|now apply Hplain].
    exists irb. split; [assumption|]. apply in_map_iff. exists e. split.
    + now rewrite (selected_by_only_reference irbs e irb).
    + apply filter_In. now split.
Qed.

Lemma pruners_agree_on_single_references_witness :
  let entries := [record "lo0" [subif 0; subif 1]; record "irb0" [subif 1; subif 2]] in
  let data := JObj [("interface", JArr entries)] in
  let irbs := [Interface.Build "irb0" 2; Interface.Build "lo0" 0] in
  iface_list data entries /\ NoDup (names_of entries)
  /\ NoDup (map Interface.interface_name irbs)
  /\ Forall (fun e => ethernet_named e = false) entries
  /\ exists out_s out_c rs rc,
       Main.remove_interfaces irbs data = Ok out_s
       /\ ConfigFilter.remove_interfaces irbs data = Ok out_c
       /\ getitem out_s "interface" = Ok (JArr rs)
       /\ getitem out_c "interface" = Ok (JArr rc)
       /\ forall r, In r rs <-> In r rc.
Proof.
  cbv zeta.
  assert (H1 : iface_list
                 (JObj [("interface",
                         JArr [record "lo0" [subif 0; subif 1];
                               record "irb0" [subif 1; subif 2]])])
                 [record "lo0" [subif 0; subif 1]; record "irb0" [subif 1; subif 2]])
    by (split; [reflexivity | solve_forall_records]).
  assert (H2 : NoDup (names_of [record "lo0" [subif 0; subif 1];
                                record "irb0" [subif 1; subif 2]]))
    by (cbn; solve_nodup).
  assert (H3 : NoDup (map Interface.interface_name
                        [Interface.Build "irb0" 2; Interface.Build "lo0" 0]))
    by (cbn; solve_nodup).
  assert (H4 : Forall (fun e => ethernet_named e = false)
                 [record "lo0" [subif 0; subif 1]; record "irb0" [subif 1; subif 2]])
    by (repeat constructor).
  split; [exact H1|]. split; [exact H2|]. split; [exact H3|]. split; [exact H4|].
  exact (pruners_agree_on_single_references _ _ _ H1 H2 H3 H4).
Defined.

(** With ethernet records, or an interface in use with two units, they
    differ. *)
Example pruners_differ :
  Main.remove_interfaces sample_in_use sample_data
  = (data <- setitem sample_data "interface"
               (JArr [record "irb0" [subif 2]; record "ethernet-1/1" [subif 0];
                      record "irb0" [subif 1]]) ;;
     Ok data)
  /\ ConfigFilter.remove_interfaces sample_in_use sample_data
     = (data <- setitem sample_data "interface"
                  (JArr [record "ethernet-1/1" [subif 0];
                         record "irb0" [subif 2; subif 1]]) ;;
        Ok data).
Proof. split; reflexivity. Qed.
